(** * storjrpcudp: the RPC-over-UDP protocol engine

    A shallow embedding of [storjrpcudp/protocol.py] (class [RPCProtocol])
    and the properties of its framing, pending-call table, timeout handling,
    request dispatch and resilient send.

    The engine is written against four collaborators that are not part of
    the repository: the umsgpack codec, Python's string formatting, the
    Twisted reactor (Deferred and DelayedCall objects, the UDP transport)
    and the system clock.  The codec and the formatter are the fields of
    the class [Runtime]; the reactor objects live in the [world]; the
    transport's answers, the random correlation IDs and the pace of the
    clock come from an oracle record [env].

    Engine code runs in a monad [M] that threads the world, collects a
    trace of effects (log lines, datagrams accepted by the transport,
    sleeps) and ends in a value or a raised exception.  Time is an integer
    number of milliseconds; how long a turn of the send loop takes is the
    oracle's to say.  Handlers are functions of the sender's address and
    the arguments. *)

From Stdlib Require Import ZArith Lia.
From Stdlib Require Import Strings.Byte Strings.Ascii.
From stdpp Require Import base option list gmap strings pretty.
From Equations Require Import Equations.

Local Open Scope Z_scope.

(** ** Byte strings *)

Abbreviation bytes := (list byte).

#[global] Instance byte_eq_dec : EqDecision byte := Byte.byte_eq_dec.

#[global] Instance byte_countable : Countable byte :=
  inj_countable Byte.to_N Byte.of_N Byte.of_to_N.

(** [len(b)] as a Python integer. *)
Definition len {A} (l : list A) : Z := Z.of_nat (length l).

(** Slices [b[i:j]] and [b[i:]] for non-negative constant bounds. *)
Definition slice {A} (i j : nat) (l : list A) : list A := take (j - i) (drop i l).
Definition slice_from {A} (i : nat) (l : list A) : list A := drop i l.

Definition REQUEST_BYTE : bytes := ["002"%byte].
Definition RESPONSE_BYTE : bytes := ["003"%byte].

(** ** Decoded values

    The values the codec produces and consumes: [None], booleans, integers,
    text and arrays.  A Python tuple and a Python list are both packed as an
    array, and an array is unpacked as a list, so both are [VList].  Text is
    a sequence of 8-bit characters. *)

#[warnings="-register-all"]
Inductive value :=
| VNil
| VBool (b : bool)
| VInt (z : Z)
| VStr (s : string)
| VList (l : list value).

(** An address is a [(host, port)] pair. *)
Definition address : Type := string * Z.

(** ** Exceptions, effects, results *)

Inductive exn :=
| MalformedMessage (msg : string)
| SocketError (errno : Z)
| UnpackException
| PackException
| TypeError
| KeyError (key : bytes)
| AttributeError (attribute : string)
| AlreadyCalledError
| AlreadyCancelled
| AlreadyCalled.

(** The lines handed to [twisted.python.log]; the formatted text
    is kept as its arguments. *)
Inductive log_line :=
| LogReceivedDatagram (a : address)
| LogTooSmall (a : address)
| LogUnknownMessage (a : address)
| LogUnknownResponse (msgID : bytes) (a : address)
| LogReceivedResponse (msgID : bytes) (a : address)
| LogNoCallable (funcname : string)
| LogFailure (e : exn)
| LogSendingResponse (msgID : bytes) (a : address)
| LogNoReply (msgID : bytes) (waitTimeout : Z)
| LogCalling (name : string) (a : address) (msgID : bytes).

(** What a run does to the outside: a log line ([log.msg] or [log.err]),
    a datagram accepted by the transport, a sleep. *)
Inductive effect :=
| Log (err : bool) (line : log_line)
| Sent (data : bytes) (a : address)
| Slept.

(** The datagrams a trace hands to the transport. *)
Definition sent_of (t : list effect) : list (bytes * address) :=
  omap (fun e => match e with Sent d a => Some (d, a) | _ => None end) t.

Inductive outcome (A : Type) :=
| Ret (a : A)
| Raise (e : exn).
Arguments Ret {A} a.
Arguments Raise {A} e.

(** ** The world: reactor objects and the engine's table *)

(** A [Deferred] is unfired ([None]) or holds the result it was fired with,
    a pair [(success, data)]; Python's [None] as data is [VNil]. *)
Abbreviation dstate := (option (bool * value)).

Inductive tstatus := TPending | TCancelled | TCalled.

#[global] Instance tstatus_eq_dec : EqDecision tstatus.
Proof. solve_decision. Defined.

(** A [DelayedCall] made by [reactor.callLater(delay, self._timeout, msgID)]. *)
Record timer := { t_delay : Z; t_msgID : bytes; t_status : tstatus }.

Inductive write_result := WriteOk | WriteErr (errno : Z).

(** The oracles: what the transport answers to the n-th [write], the n-th
    value of [sha1(os.urandom(32)).digest()], and the time that the turn of
    the send loop around the n-th [write] takes on top of the millisecond
    it asks [time.sleep] for (the write itself, the handling of its error,
    a sleep that lasts longer than asked, the next reading of the clock),
    in milliseconds. *)
Record env := {
  net : nat -> write_result;
  digest : nat -> bytes;
  lag : nat -> nat
}.

(** The mutable state: [self._outstanding] maps a message ID to the
    references of its Deferred and of its DelayedCall, the two heaps hold
    these objects, [clock] is the reading of [time.time()] in milliseconds.
    [awaiting] lists the
    Deferreds returned by handlers: each holds the ID and the address that
    [_acceptRequest] bound to its [_sendResponse] callback, until it
    fires. *)
Record world := {
  outstanding : gmap bytes (nat * nat);
  deferreds : list dstate;
  timers : list timer;
  awaiting : list (option (bytes * address));
  clock : Z;
  writes : nat;
  draws : nat
}.

Definition set_outstanding (f : (gmap bytes (nat * nat)) -> (gmap bytes (nat * nat))) (w : world) : world :=
  {| outstanding := f (outstanding w); deferreds := deferreds w;
     timers := timers w; awaiting := awaiting w; clock := clock w;
     writes := writes w; draws := draws w |}.

Definition set_deferreds (f : (list dstate) -> (list dstate)) (w : world) : world :=
  {| outstanding := outstanding w; deferreds := f (deferreds w);
     timers := timers w; awaiting := awaiting w; clock := clock w;
     writes := writes w; draws := draws w |}.

Definition set_timers (f : (list timer) -> (list timer)) (w : world) : world :=
  {| outstanding := outstanding w; deferreds := deferreds w;
     timers := f (timers w); awaiting := awaiting w; clock := clock w;
     writes := writes w; draws := draws w |}.

Definition set_awaiting (f : (list (option (bytes * address))) -> (list (option (bytes * address)))) (w : world) : world :=
  {| outstanding := outstanding w; deferreds := deferreds w;
     timers := timers w; awaiting := f (awaiting w); clock := clock w;
     writes := writes w; draws := draws w |}.

Definition set_clock (f : Z -> Z) (w : world) : world :=
  {| outstanding := outstanding w; deferreds := deferreds w;
     timers := timers w; awaiting := awaiting w; clock := f (clock w);
     writes := writes w; draws := draws w |}.

Definition set_writes (f : nat -> nat) (w : world) : world :=
  {| outstanding := outstanding w; deferreds := deferreds w;
     timers := timers w; awaiting := awaiting w; clock := clock w;
     writes := f (writes w); draws := draws w |}.

Definition set_draws (f : nat -> nat) (w : world) : world :=
  {| outstanding := outstanding w; deferreds := deferreds w;
     timers := timers w; awaiting := awaiting w; clock := clock w;
     writes := writes w; draws := f (draws w) |}.

(** ** The monad of engine code

    A computation starts in a world and ends in a world, with a trace of
    effects and either a value or a raised exception.  An exception keeps
    the world and the trace reached when it was raised. *)

Definition M (A : Type) : Type := world -> outcome A * world * list effect.

Definition raise {A} (e : exn) : M A := fun w => (Raise e, w, []).

#[global] Instance M_ret : MRet M := fun A a w => (Ret a, w, []).

#[global] Instance M_bind : MBind M := fun A B k m w =>
  match m w with
  | (Ret a, w1, t1) =>
      match k a w1 with
      | (r, w2, t2) => (r, w2, t1 ++ t2)
      end
  | (Raise e, w1, t1) => (Raise e, w1, t1)
  end.

Definition get : M world := fun w => (Ret w, w, []).
Definition modify (f : world -> world) : M unit := fun w => (Ret tt, f w, []).
Definition emit (e : effect) : M unit := fun w => (Ret tt, w, [e]).

Definition log_msg (l : log_line) : M unit := emit (Log false l).
Definition log_err (l : log_line) : M unit := emit (Log true l).
Definition when (b : bool) (m : M unit) : M unit := if b then m else mret tt.

(** [try: m  except Exception as e: h e]. *)
Definition try_except {A} (m : M A) (h : exn -> M A) : M A := fun w =>
  match m w with
  | (Ret a, w1, t1) => (Ret a, w1, t1)
  | (Raise e, w1, t1) =>
      match h e w1 with
      | (r, w2, t2) => (r, w2, t1 ++ t2)
      end
  end.

(** ** The collaborators *)

(** [packb] and [unpackb] of umsgpack ([None] when they raise), and
    Python's [str()] as used by the [%s] conversion. *)
Class Runtime := {
  packb : value -> option bytes;
  unpackb : bytes -> option value;
  py_str : value -> string
}.

(** What a handler does when called: it returns a value, raises, or
    returns a Deferred that has not fired yet (see [handler_fired]). *)
Inductive hresult :=
| HReturn (v : value)
| HRaise (e : exn)
| HDeferred.

(** An attribute of the engine object whose name starts with [rpc_]: a
    method, or something that is not callable. *)
Inductive attr :=
| Callable (f : address -> list value -> hresult)
| NotCallable.

(** The engine object: the class flag [noisy], [_waitTimeout] (in seconds,
    5 by default) and the attributes whose name starts with [rpc_]. *)
Record engine := {
  noisy : bool;
  waitTimeout : Z;
  rpc_attrs : gmap string attr
}.

(** ** [send_all] *)

(** [e.errno in (11, 10055)] *)
Definition would_block (errno : Z) : bool :=
  bool_decide (errno = 11 \/ errno = 10055).

(** The time between the reading of the clock before the n-th [write] and
    the next reading, when that write would block: the millisecond of
    [time.sleep(0.001)] and the lag of the turn.  The clock is taken to
    move forward, by no less than the sleep asked for. *)
Definition turn_time (E : env) (n : nat) : Z := 1 + Z.of_nat (lag E n).

(** The [while time.time() < future] loop.  One turn of the loop asks the
    transport once.  The clock is read by the test of the loop only; the
    reading that sets [future] and the first test are one reading, and a
    later test reads the clock [turn_time] after the test before it. *)
Equations? send_loop (E : env) (data : bytes) (a : address) (future : Z)
    (w : world) : outcome unit * world * list effect
    by wf (Z.to_nat (future - clock w)) lt :=
send_loop E data a future w with decide (clock w < future) := {
  | right _ => (Ret tt, w, [])
  | left _ with net E (writes w) := {
    | WriteOk => (Ret tt, set_writes S w, [Sent data a])
    | WriteErr errno with would_block errno := {
      | true with send_loop E data a future
                    (set_clock (Z.add (turn_time E (writes w))) (set_writes S w)) := {
        | (r, w', t) => (r, w', Slept :: t) }
      | false => (Raise (SocketError errno), set_writes S w, []) } } }.
Proof. simpl. unfold turn_time. lia. Qed.

Definition send_all (E : env) (data : bytes) (a : address) (timeout : Z)
    : M unit := fun w =>
  let future := clock w + timeout in
  send_loop E data a future w.

(** The default [timeout=5] of [send_all], in milliseconds. *)
Definition default_send_timeout : Z := 5000.

(** ** Reactor objects

    A reference is the index of its object in the heap.  References are
    made by [new_deferred] and [callLater] only, so that none dangles; the
    operations answer a dangling one like an object already used. *)

(** [defer.Deferred()] *)
Definition new_deferred : M nat := fun w =>
  (Ret (length (deferreds w)), set_deferreds (fun h => h ++ [None]) w, []).

(** [d.callback(result)]: a Deferred fires once, a second firing raises
    [AlreadyCalledError]. *)
Definition callback (d : nat) (r : bool * value) : M unit := fun w =>
  match deferreds w !! d with
  | Some None => (Ret tt, set_deferreds (<[d := Some r]>) w, [])
  | _ => (Raise AlreadyCalledError, w, [])
  end.

(** [reactor.callLater(delay, self._timeout, msgID)] *)
Definition callLater (delay : Z) (msgID : bytes) : M nat := fun w =>
  (Ret (length (timers w)),
   set_timers (fun h => h ++ [{| t_delay := delay; t_msgID := msgID;
                                  t_status := TPending |}]) w, []).

Definition with_status (s : tstatus) (tm : timer) : timer :=
  {| t_delay := t_delay tm; t_msgID := t_msgID tm; t_status := s |}.

(** [timeout.cancel()]: a call that was cancelled or made cannot be
    cancelled. *)
Definition cancel (t : nat) : M unit := fun w =>
  match timers w !! t with
  | Some tm =>
      match t_status tm with
      | TPending => (Ret tt, set_timers (<[t := with_status TCancelled tm]>) w, [])
      | TCancelled => (Raise AlreadyCancelled, w, [])
      | TCalled => (Raise AlreadyCalled, w, [])
      end
  | None => (Raise AlreadyCalled, w, [])
  end.

(** [self._outstanding[msgID]] and [del self._outstanding[msgID]] *)
Definition get_outstanding (msgID : bytes) : M (nat * nat) := fun w =>
  match outstanding w !! msgID with
  | Some p => (Ret p, w, [])
  | None => (Raise (KeyError msgID), w, [])
  end.

Definition del_outstanding (msgID : bytes) : M unit := fun w =>
  match outstanding w !! msgID with
  | Some _ => (Ret tt, set_outstanding (delete msgID) w, [])
  | None => (Raise (KeyError msgID), w, [])
  end.

(** [sha1(os.urandom(32)).digest()] *)
Definition fresh_digest (E : env) : M bytes := fun w =>
  (Ret (digest E (draws w)), set_draws S w, []).

(** What the unpacking [*args] passes to a call: the items of a list, the
    characters of a string; anything else is not iterable. *)
Definition py_iter (v : value) : option (list value) :=
  match v with
  | VList l => Some l
  | VStr s => Some ((fun c => VStr (String c EmptyString)) <$> String.list_ascii_of_string s)
  | _ => None
  end.

(** ** The engine *)


(** What an attribute access yields: an attribute that ordinary lookup
    found, or the closure [func] made by [__getattr__]. *)
Inductive attribute :=
| Ordinary
| RemoteCall (call : address -> list value -> M nat).

Section Engine.
Context `{RT : Runtime}.
Variable self : engine.
Variable E : env.

Definition _acceptResponse (msgID : bytes) (data : value) (a : address)
    : M unit :=
  w ← get;
  if bool_decide (outstanding w !! msgID = None) then
    log_err (LogUnknownResponse msgID a)
  else
    when (noisy self) (log_msg (LogReceivedResponse msgID a));;
    p ← get_outstanding msgID;
    let '(d, timeout) := p in
    cancel timeout;;
    callback d (true, data);;
    del_outstanding msgID.

Definition _onError (err : exn) : M unit :=
  log_err (LogFailure err).

Definition _sendResponse (response : value) (msgID : bytes) (a : address)
    : M unit :=
  when (noisy self) (log_msg (LogSendingResponse msgID a));;
  match packb response with
  | None => raise PackException
  | Some packed =>
      let txdata := RESPONSE_BYTE ++ msgID ++ packed in
      send_all E txdata a default_send_timeout
  end.

(** [maybeDeferred(f, address, *args)] with [_sendResponse] as callback
    and [_onError] as errback: a failure of the handler, or of the
    callback, ends in the errback and stays in the handler's Deferred. *)
Definition _acceptRequest (msgID : bytes) (data : value) (a : address)
    : M unit :=
  match data with
  | VList [funcname; args] =>
      match rpc_attrs self !! ("rpc_" +:+ py_str funcname) with
      | Some (Callable f) =>
          match py_iter args with
          | None => raise TypeError
          | Some argl =>
              match f a argl with
              | HReturn response =>
                  try_except (_sendResponse response msgID a) _onError
              | HRaise err => _onError err
              | HDeferred =>
                  modify (set_awaiting (fun l => l ++ [Some (msgID, a)]))
              end
          end
      | _ => log_err (LogNoCallable (py_str funcname))
      end
  | _ => raise (MalformedMessage ("Could not read packet: " +:+ py_str data))
  end.

(** The Deferred [i] returned by a handler fires, with a result or with a
    failure: its callback [_sendResponse] or its errback [_onError] runs. *)
Definition handler_fired (i : nat) (res : value + exn) : M unit := fun w =>
  match awaiting w !! i with
  | Some (Some (msgID, a)) =>
      (modify (set_awaiting (<[i := None]>));;
       match res with
       | inl response => try_except (_sendResponse response msgID a) _onError
       | inr err => _onError err
       end) w
  | _ => (Ret tt, w, [])
  end.

Definition datagramReceived (datagram : bytes) (a : address) : M unit :=
  when (noisy self) (log_msg (LogReceivedDatagram a));;
  if bool_decide (len datagram < 22) then
    log_msg (LogTooSmall a)
  else
    let msgID := slice 1 21 datagram in
    match unpackb (slice_from 21 datagram) with
    | None => raise UnpackException
    | Some data =>
        if bool_decide (slice 0 1 datagram = REQUEST_BYTE) then
          _acceptRequest msgID data a
        else if bool_decide (slice 0 1 datagram = RESPONSE_BYTE) then
          _acceptResponse msgID data a
        else
          log_msg (LogUnknownMessage a)
    end.

Definition _timeout (msgID : bytes) : M unit :=
  log_err (LogNoReply msgID (waitTimeout self));;
  p ← get_outstanding msgID;
  callback p.1 (false, VNil);;
  del_outstanding msgID.

(** The closure [func] that [__getattr__] returns for [name]. *)
Definition func (name : string) (a : address) (args : list value) : M nat :=
  msgID ← fresh_digest E;
  match packb (VList [VStr name; VList args]) with
  | None => raise PackException
  | Some data =>
      if bool_decide (len data > 8192) then
        raise (MalformedMessage
                 "Total length of function name and arguments cannot exceed 8K")
      else
        let txdata := REQUEST_BYTE ++ msgID ++ data in
        when (noisy self) (log_msg (LogCalling name a msgID));;
        send_all E txdata a default_send_timeout;;
        d ← new_deferred;
        timeout ← callLater (waitTimeout self) msgID;
        modify (set_outstanding (<[msgID := (d, timeout)]>));;
        mret d
  end.

(** The body of [__getattr__].  [object] has no attribute [__getattr__],
    so both calls of [object.__getattr__] raise the [AttributeError] of
    that name, whatever [name] is. *)
Definition __getattr__ (name : string)
    : outcome (address -> list value -> M nat) :=
  if String.prefix "_" name || String.prefix "rpc_" name then
    Raise (AttributeError "__getattr__")
  else
    Ret (func name).


(** The reactor reaching the due time of DelayedCall [t]: a call that
    was cancelled, or was already made, is skipped. *)
Definition reactor_fire (t : nat) : M unit := fun w =>
  match timers w !! t with
  | Some tm =>
      match t_status tm with
      | TPending =>
          (modify (set_timers (<[t := with_status TCalled tm]>));;
           _timeout (t_msgID tm)) w
      | _ => (Ret tt, w, [])
      end
  | None => (Ret tt, w, [])
  end.

End Engine.

(** ** A MessagePack codec

    An instance of [Runtime] for concrete runs: the MessagePack format
    restricted to nil, booleans, fixint, uint8, uint16, fixstr, str8, str16,
    fixarray and array16, with ASCII text.  Inside this fragment it produces
    and reads the bytes umsgpack does; a value or a type byte outside it,
    and text with a byte above 0x7f, is reported as a failure.  Bytes after
    the first complete object are ignored, and the reserved type byte 0xc1
    and truncated input are failures, as in umsgpack. *)

Module Msgpack.

Definition byte_of (n : N) : byte := default "000"%byte (Byte.of_N n).

(** Big-endian 16-bit length. *)
Definition be16 (n : N) : bytes :=
  [byte_of (n / 256)%N; byte_of (n mod 256)%N].

Definition pack_int (z : Z) : option bytes :=
  if bool_decide (0 <= z < 128) then Some [byte_of (Z.to_N z)]
  else if bool_decide (-32 <= z < 0) then Some [byte_of (Z.to_N (256 + z))]
  else if bool_decide (128 <= z < 256) then Some ["204"%byte; byte_of (Z.to_N z)]
  else if bool_decide (256 <= z < 65536) then Some ("205"%byte :: be16 (Z.to_N z))
  else None.

(** The bytes of an ASCII text. *)
Definition is_ascii (raw : bytes) : bool :=
  forallb (fun b => (Byte.to_N b <? 128)%N) raw.

Definition pack_str (s : string) : option bytes :=
  let raw := String.list_byte_of_string s in
  let n := N.of_nat (length raw) in
  if negb (is_ascii raw) then None
  else if (n <? 32)%N then Some (byte_of (160 + n) :: raw)
  else if (n <? 256)%N then Some ("217"%byte :: byte_of n :: raw)
  else if (n <? 65536)%N then Some ("218"%byte :: be16 n ++ raw)
  else None.

Definition array_header (n : N) : option bytes :=
  if (n <? 16)%N then Some [byte_of (144 + n)]
  else if (n <? 65536)%N then Some ("220"%byte :: be16 n)
  else None.

Fixpoint pack (v : value) : option bytes :=
  match v with
  | VNil => Some ["192"%byte]
  | VBool false => Some ["194"%byte]
  | VBool true => Some ["195"%byte]
  | VInt z => pack_int z
  | VStr s => pack_str s
  | VList l =>
      h ← array_header (N.of_nat (length l));
      body ← (fix items (l : list value) : option bytes :=
                match l with
                | [] => Some []
                | x :: l' => b ← pack x; bs ← items l'; Some (b ++ bs)
                end) l;
      Some (h ++ body)
  end.

Definition read_str (n : nat) (b : bytes) : option (value * bytes) :=
  if bool_decide (n <= length b)%nat && is_ascii (take n b) then
    Some (VStr (String.string_of_list_byte (take n b)), drop n b)
  else None.

Definition read_be16 (b : bytes) : option (N * bytes) :=
  match b with
  | hi :: lo :: rest => Some ((Byte.to_N hi * 256 + Byte.to_N lo)%N, rest)
  | _ => None
  end.

Fixpoint unpack_one (fuel : nat) (b : bytes) : option (value * bytes) :=
  match fuel with
  | O => None
  | S fuel' =>
      let items := fix items (n : nat) (b : bytes) : option (list value * bytes) :=
        match n with
        | O => Some ([], b)
        | S n' =>
            '(v, b1) ← unpack_one fuel' b;
            '(vs, b2) ← items n' b1;
            Some (v :: vs, b2)
        end in
      match b with
      | [] => None
      | t :: rest =>
          let c := Byte.to_N t in
          if (c <? 128)%N then Some (VInt (Z.of_N c), rest)
          else if (c <? 144)%N then None
          else if (c <? 160)%N then
            '(vs, b') ← items (N.to_nat (c - 144)) rest; Some (VList vs, b')
          else if (c <? 192)%N then read_str (N.to_nat (c - 160)) rest
          else if (c =? 192)%N then Some (VNil, rest)
          else if (c =? 194)%N then Some (VBool false, rest)
          else if (c =? 195)%N then Some (VBool true, rest)
          else if (c =? 204)%N then
            match rest with
            | x :: rest' => Some (VInt (Z.of_N (Byte.to_N x)), rest')
            | [] => None
            end
          else if (c =? 205)%N then
            '(n, rest') ← read_be16 rest; Some (VInt (Z.of_N n), rest')
          else if (c =? 217)%N then
            match rest with
            | x :: rest' => read_str (N.to_nat (Byte.to_N x)) rest'
            | [] => None
            end
          else if (c =? 218)%N then
            '(n, rest') ← read_be16 rest; read_str (N.to_nat n) rest'
          else if (c =? 220)%N then
            '(n, rest') ← read_be16 rest;
            '(vs, b') ← items (N.to_nat n) rest'; Some (VList vs, b')
          else if (224 <=? c)%N then Some (VInt (Z.of_N c - 256), rest)
          else None
      end
  end.

Definition unpack (b : bytes) : option value :=
  fst <$> unpack_one (S (length b)) b.

Definition squote : Ascii.ascii := "'"%char.
Definition dquote : Ascii.ascii := "034"%char.
Definition backslash : Ascii.ascii := "\"%char.

Definition hex_digit (n : N) : Ascii.ascii :=
  nth (N.to_nat n) (String.list_ascii_of_string "0123456789abcdef") "0"%char.

(** One character of an ASCII text inside the quotes [q] of [repr]. *)
Definition escape (q c : Ascii.ascii) : string :=
  let n := Ascii.N_of_ascii c in
  if bool_decide (c = backslash) || bool_decide (c = q) then
    String backslash (String c EmptyString)
  else if (n =? 9)%N then String backslash "t"
  else if (n =? 10)%N then String backslash "n"
  else if (n =? 13)%N then String backslash "r"
  else if (n <? 32)%N || (n =? 127)%N then
    String backslash (String "x" (String (hex_digit (n / 16))
                                    (String (hex_digit (n mod 16)) EmptyString)))
  else String c EmptyString.

(** [repr()] of an ASCII text: between single quotes, or between double
    quotes when it holds a single quote and no double quote. *)
Definition repr_str (s : string) : string :=
  let cs := String.list_ascii_of_string s in
  let q := if bool_decide (squote ∈ cs) && negb (bool_decide (dquote ∈ cs))
           then dquote else squote in
  String q (foldr (fun c r => escape q c +:+ r) (String q EmptyString) cs).

(** [str()] of a decoded value; inside a list an element is shown by
    [repr()]. *)
Fixpoint show (quoted : bool) (v : value) : string :=
  match v with
  | VNil => "None"
  | VBool true => "True"
  | VBool false => "False"
  | VInt z => pretty z
  | VStr s => if quoted then repr_str s else s
  | VList l =>
      "[" +:+
      (fix items (l : list value) : string :=
         match l with
         | [] => ""
         | [x] => show true x
         | x :: l' => show true x +:+ ", " +:+ items l'
         end) l +:+ "]"
  end.

#[global] Instance runtime : Runtime :=
  {| packb := pack; unpackb := unpack; py_str := show false |}.

End Msgpack.

(** ** Frames, runs and the consistency of the pending-call table *)

(** The checks [datagramReceived] makes on a datagram before it looks at
    the payload: the size and the tag byte. *)
Definition frame_ok (d : bytes) : bool :=
  bool_decide (22 <= len d) &&
  (bool_decide (slice 0 1 d = REQUEST_BYTE) || bool_decide (slice 0 1 d = RESPONSE_BYTE)).

(** [isinstance(data, list) and len(data) == 2] *)
Definition two_element_list (v : value) : bool :=
  match v with
  | VList [_; _] => true
  | _ => false
  end.

(** Every effect of a trace is a log line. *)
Definition only_logs (t : list effect) : Prop :=
  Forall (fun e => match e with Log _ _ => True | _ => False end) t.

(** The two worlds hold the same table and the same reactor objects. *)
Definition same_objects (w w' : world) : Prop :=
  outstanding w' = outstanding w /\ deferreds w' = deferreds w /\
  timers w' = timers w /\ awaiting w' = awaiting w /\ draws w' = draws w.

(** The table and the heaps agree: an entry holds an unfired Deferred and
    the pending DelayedCall made for its ID, every pending DelayedCall
    belongs to the entry of its ID, and no Deferred is held twice. *)
Definition consistent (w : world) : Prop :=
  (forall X d t, outstanding w !! X = Some (d, t) ->
     deferreds w !! d = Some None /\
     exists tm, timers w !! t = Some tm /\ t_msgID tm = X /\ t_status tm = TPending) /\
  (forall t tm, timers w !! t = Some tm -> t_status tm = TPending ->
     exists d, outstanding w !! t_msgID tm = Some (d, t)) /\
  (forall X X' d t t', outstanding w !! X = Some (d, t) ->
     outstanding w !! X' = Some (d, t') -> X = X').

(** A datagram made of a known tag byte, a 20-byte ID and a payload that
    is not empty. *)
Definition well_framed (d : bytes) : Prop :=
  exists tag id payload,
    d = tag ++ id ++ payload /\ (tag = REQUEST_BYTE \/ tag = RESPONSE_BYTE) /\
    length id = 20%nat /\ payload <> [].

(** The IDs bound to the Deferreds of handlers are 20 bytes long. *)
Definition awaiting_ids_ok (w : world) : Prop :=
  forall i X a, awaiting w !! i = Some (Some (X, a)) -> length X = 20%nat.

(** Every Deferred fired in [w] holds the same result in [w']. *)
Definition fired_kept (w w' : world) : Prop :=
  forall d r, deferreds w !! d = Some (Some r) -> deferreds w' !! d = Some (Some r).

(** The world of an engine just made: [__init__] sets [_outstanding] to the
    empty dict, and no reactor object exists yet. *)
Definition fresh_world (now : Z) : world :=
  {| outstanding := ∅; deferreds := []; timers := []; awaiting := [];
     clock := now; writes := 0; draws := 0 |}.

(** What the reactor and the application do to an engine. *)
Inductive event :=
| EvDatagram (datagram : bytes) (a : address)
| EvTimer (t : nat)
| EvCall (name : string) (a : address) (args : list value)
| EvHandler (i : nat) (res : value + exn).

(** An error of a reactor object or of the table: a Deferred fired twice,
    a DelayedCall cancelled late, a missing table key. *)
Definition object_error (e : exn) : bool :=
  match e with
  | KeyError _ | AlreadyCalledError | AlreadyCancelled | AlreadyCalled => true
  | _ => false
  end.

Definition raises_object_error {A} (r : outcome A) : bool :=
  match r with
  | Raise e => object_error e
  | Ret _ => false
  end.

Section Runs.
Context `{RT : Runtime}.
Variable self : engine.
Variable E : env.

Definition step (ev : event) : M unit :=
  match ev with
  | EvDatagram dg a => datagramReceived self E dg a
  | EvTimer t => reactor_fire self t
  | EvCall name a args => func self E name a args ≫= fun _ => mret tt
  | EvHandler i res => handler_fired self E i res
  end.

(** The world after a sequence of events; an exception ends its event,
    not the run. *)
Fixpoint run (evs : list event) (w : world) : world :=
  match evs with
  | [] => w
  | ev :: evs' => run evs' (step ev w).1.2
  end.

(** The trace of the run. *)
Fixpoint run_trace (evs : list event) (w : world) : list effect :=
  match evs with
  | [] => []
  | ev :: evs' => (step ev w).2 ++ run_trace evs' (step ev w).1.2
  end.

(** Some event of the run ends in an error of a reactor object. *)
Fixpoint crashes (evs : list event) (w : world) : bool :=
  match evs with
  | [] => false
  | ev :: evs' =>
      raises_object_error (step ev w).1.1 || crashes evs' (step ev w).1.2
  end.

(** No call of the run draws an ID that is outstanding at that moment. *)
Fixpoint collision_free (evs : list event) (w : world) : Prop :=
  match evs with
  | [] => True
  | ev :: evs' =>
      match ev with
      | EvCall _ _ _ => outstanding w !! digest E (draws w) = None
      | _ => True
      end /\ collision_free evs' (step ev w).1.2
  end.

End Runs.

(** The world after [i] turns of the loop that ended in a sleep. *)
Fixpoint after_retries (E : env) (i : nat) (w : world) : world :=
  match i with
  | O => w
  | S i' =>
      after_retries E i' (set_clock (Z.add (turn_time E (writes w))) (set_writes S w))
  end.

(** The window of [timeout] milliseconds that [send_all] opens in [w] is
    still open after [i] such turns: the loop makes one more attempt. *)
Definition window_open (E : env) (timeout : Z) (i : nat) (w : world) : Prop :=
  clock (after_retries E i w) < clock w + timeout.

(** The transport answers the next [i] writes with a would-block error. *)
Definition blocked (E : env) (i : nat) (w : world) : Prop :=
  forall j, (j < i)%nat ->
    exists errno, net E (writes w + j) = WriteErr errno /\ would_block errno = true.

(** A datagram sent by the response path: a response frame with the ID it
    was given, addressed to [a]. *)
Definition is_response_to `{RT : Runtime} (msgID : bytes) (a : address)
    (p : bytes * address) : Prop :=
  exists response packed,
    packb response = Some packed /\ p = (RESPONSE_BYTE ++ msgID ++ packed, a).

(** The world after a response for [msgID] has been matched with the entry
    [(d, t)], and after the DelayedCall [t] of that entry has fired. *)
Definition matched (msgID : bytes) (d t : nat) (tm : timer) (data : value)
    (w : world) : world :=
  set_outstanding (delete msgID)
    (set_deferreds (<[d := Some (true, data)]>)
       (set_timers (<[t := with_status TCancelled tm]>) w)).

Definition timed_out (msgID : bytes) (d t : nat) (tm : timer) (w : world) : world :=
  set_outstanding (delete msgID)
    (set_deferreds (<[d := Some (false, VNil)]>)
       (set_timers (<[t := with_status TCalled tm]>) w)).

(** ** Sample objects for concrete runs *)

Module Sample.

Definition caller_addr : address := ("10.0.0.1", 4000).
Definition responder_addr : address := ("10.0.0.2", 4000).

(** A transport that accepts every write, and IDs made of one repeated
    byte, the n-th draw repeating the byte n (modulo 256). *)
Definition id_of (n : nat) : bytes :=
  replicate 20 (Msgpack.byte_of (N.of_nat n mod 256)).

Definition calm : env :=
  {| net := fun _ => WriteOk; digest := id_of; lag := fun _ => O |}.

(** A transport whose first three answers are EAGAIN (errno 11). *)
Definition busy3 : env :=
  {| net := fun n => if (n <? 3)%nat then WriteErr 11 else WriteOk;
     digest := id_of; lag := fun _ => O |}.

(** A transport that answers EAGAIN three times, then EPIPE (errno 32). *)
Definition broken3 : env :=
  {| net := fun n => if (n <? 3)%nat then WriteErr 11 else WriteErr 32;
     digest := id_of; lag := fun _ => O |}.


(** A transport that answers EAGAIN 47 times and accepts the write after
    that, on a machine where the first three turns of the loop take two
    milliseconds each: 47 turns take 50 milliseconds. *)
Definition slow47 : env :=
  {| net := fun n => if (n <? 47)%nat then WriteErr 11 else WriteOk;
     digest := id_of;
     lag := fun n => if (n <? 3)%nat then 1%nat else O |}.

(** [def rpc_echo(self, address, x): return x] *)
Definition rpc_echo (a : address) (args : list value) : hresult :=
  match args with
  | [x] => HReturn x
  | _ => HRaise TypeError
  end.

Definition plain : engine :=
  {| noisy := false; waitTimeout := 5; rpc_attrs := ∅ |}.

Definition echo_server : engine :=
  {| noisy := false; waitTimeout := 5;
     rpc_attrs := {[ "rpc_echo" := Callable rpc_echo ]} |}.

(** An argument whose packed form is longer than 8192 bytes. *)
Definition big_arg : value := VList (replicate (Z.to_nat 9000) VNil).

Definition idle : world := fresh_world 0.

(** The argument list [["x"]] and the call [echo(responder_addr, ["x"])]
    made by [plain] in the world [idle]; the world it leaves holds one
    pending call, with ID [id_of 0], Deferred 0 and DelayedCall 0. *)
Definition x_arg : value := VList [VStr "x"].

Definition pending : world :=
  (func plain calm "echo" responder_addr [x_arg] idle).1.2.

(** The packed form of a value of the fragment, and a frame with the given
    tag byte, ID [id_of 0] and packed payload. *)
Definition packed (v : value) : bytes := default [] (Msgpack.pack v).

Definition frame_of (tag : byte) (payload : value) : bytes :=
  [tag] ++ id_of 0 ++ packed payload.

(** The request frame of that call, a response frame for it, a request
    with a number where the
    argument list should be, a request whose argument list is a string,
    a request with one element, and datagrams with an unknown tag, with
    the request tag and with the response tag followed by the reserved
    type byte 0xc1. *)
Definition echo_request : bytes :=
  frame_of "002" (VList [VStr "echo"; VList [x_arg]]).
Definition echo_response : bytes := frame_of "003" x_arg.
Definition odd_request : bytes := frame_of "002" (VList [VStr "nosuch"; VInt 5]).
Definition text_request : bytes := frame_of "002" (VList [VStr "echo"; VStr "x"]).
Definition short_request : bytes := frame_of "002" (VList [VStr "x"]).
Definition unknown_request : bytes :=
  frame_of "002" (VList [VStr "nosuch"; VList [VInt 1]]).
Definition garbage : bytes := ["005"%byte] ++ id_of 0 ++ ["193"%byte].
Definition garbage_request : bytes := ["002"%byte] ++ id_of 0 ++ ["193"%byte].
Definition garbage_response : bytes := ["003"%byte] ++ id_of 0 ++ ["193"%byte].
Definition stray : bytes := frame_of "005" VNil.

(** The world after the timeout callback of that call has run. *)
Definition expired : world := (_timeout plain (id_of 0) pending).1.2.

(** What may follow the resolution of that call: its DelayedCall comes due,
    a response with its ID arrives, a second call is made (it draws
    [id_of 1]), and the DelayedCall of that second call fires. *)
Definition late_events : list event :=
  [EvTimer 0; EvDatagram echo_response responder_addr;
   EvCall "echo" responder_addr [x_arg]; EvTimer 1].

End Sample.

(** ** Observations and further sample objects *)

(** What an observer outside the engine sees of a computation, the log
    apart: its outcome, the world it leaves and the datagrams it sent. *)
Definition observe {A} (x : outcome A * world * list effect)
    : outcome A * world * list (bytes * address) :=
  (x.1.1, x.1.2, sent_of x.2).

(** The engine with its [noisy] flag set to [b]. *)
Definition with_noisy (b : bool) (self : engine) : engine :=
  {| noisy := b; waitTimeout := waitTimeout self; rpc_attrs := rpc_attrs self |}.

Module Scenario.

(** [def rpc_slow(self, address, x): return defer.Deferred()] *)
Definition rpc_slow (a : address) (args : list value) : hresult :=
  match args with
  | [_] => HDeferred
  | _ => HRaise TypeError
  end.

(** [def rpc_huge(self, address): return 2 ** 70], a result no MessagePack
    integer holds. *)
Definition rpc_huge (a : address) (args : list value) : hresult :=
  match args with
  | [] => HReturn (VInt (2 ^ 70))
  | _ => HRaise TypeError
  end.

Definition server : engine :=
  {| noisy := false; waitTimeout := 5;
     rpc_attrs := {[ "rpc_echo" := Callable Sample.rpc_echo;
                     "rpc_slow" := Callable rpc_slow;
                     "rpc_huge" := Callable rpc_huge;
                     "rpc_version" := NotCallable ]} |}.

(** Requests with ID [id_of 0]: [echo] called without its argument, [echo]
    called with a number where the argument list should be, [slow] and
    [huge]. *)
Definition bare_echo : bytes := Sample.frame_of "002" (VList [VStr "echo"; VList []]).
Definition number_echo : bytes := Sample.frame_of "002" (VList [VStr "echo"; VInt 5]).
Definition slow_request : bytes :=
  Sample.frame_of "002" (VList [VStr "slow"; VList [VInt 1]]).
Definition huge_request : bytes := Sample.frame_of "002" (VList [VStr "huge"; VList []]).


(** A transport that accepts every write, with a digest that repeats:
    every call draws [id_of 0]. *)
Definition twin : env :=
  {| net := fun _ => WriteOk; digest := fun _ => Sample.id_of 0; lag := fun _ => O |}.

(** A transport that answers EPIPE (errno 32) at once. *)
Definition dead : env :=
  {| net := fun _ => WriteErr 32; digest := Sample.id_of; lag := fun _ => O |}.

(** The world after two calls of [echo] by [plain] over the calm
    transport: two pending calls, with IDs [id_of 0] and [id_of 1]. *)
Definition two_pending : world :=
  (func Sample.plain Sample.calm "echo" Sample.responder_addr [Sample.x_arg]
     Sample.pending).1.2.

End Scenario.

(** Every ID in the table is one of the digests drawn so far. *)
Definition drawn (E : env) (w : world) : Prop :=
  forall X p, outstanding w !! X = Some p ->
    exists n, (n < draws w)%nat /\ X = digest E n.

(** One step neither draws backwards nor adds an entry other than under
    the digest it draws. *)
Definition table_grows_by_draw (E : env) (w w' : world) : Prop :=
  (draws w <= draws w')%nat /\
  forall X p, outstanding w' !! X = Some p ->
    outstanding w !! X = Some p \/ (X = digest E (draws w) /\ (draws w < draws w')%nat).

(** * Properties *)

(** ** Basic facts *)

Ltac unfold_M :=
  unfold mbind, M_bind, mret, M_ret, get, modify, emit, log_msg, log_err,
    when, raise, try_except, get_outstanding, del_outstanding, callback,
    cancel, new_deferred, callLater, fresh_digest in *.

Lemma sent_of_app t1 t2 : sent_of (t1 ++ t2) = sent_of t1 ++ sent_of t2.
Proof. unfold sent_of. apply omap_app. Qed.

Lemma only_logs_sent t : only_logs t -> sent_of t = [].
Proof.
  induction 1 as [|e t He _ IH]; [done|].
  destruct e; simpl in *; try done.
Qed.

Lemma same_objects_refl w : same_objects w w.
Proof. by repeat split. Qed.

(** *** [send_all] *)

(** The loop touches the clock and the write counter only, raises nothing
    but a socket error, and hands the transport nothing but [data]. *)
Lemma send_loop_frame E data a future w r w' t :
  send_loop E data a future w = (r, w', t) ->
  same_objects w w' /\
  (r = Ret tt \/ exists errno, r = Raise (SocketError errno) /\ would_block errno = false) /\
  (r = Ret tt -> sent_of t = [(data, a)] \/ (sent_of t = [] /\ future <= clock w')) /\
  (r <> Ret tt -> sent_of t = []).
Proof.
  revert r w' t.
  funelim (send_loop E data a future w); intros r' w'' t' Hres;
    inversion Hres; subst; clear Hres.
  - split; [apply same_objects_refl|]. repeat split; eauto.
    intros _. right. split; [done | lia].
  - repeat split; eauto. done.
  - repeat split; eauto. done.
  - match goal with IH : forall _ _ _, _ = _ -> _ |- _ =>
      destruct (IH _ _ _ Heq) as (Hs & Hr & Hok & Hbad) end.
    split; [|split; [done|split]].
    + destruct Hs as (?&?&?&?&?). by repeat split.
    + intros Hr'. simpl. by apply Hok.
    + intros Hr'. simpl. by apply Hbad.
Qed.

Lemma after_retries_snoc E i : forall w,
  after_retries E (S i) w =
  set_clock (Z.add (turn_time E (writes w + i))) (set_writes S (after_retries E i w)).
Proof.
  induction i as [|i IH]; intros w.
  - simpl. by rewrite Nat.add_0_r.
  - change (after_retries E (S (S i)) w) with
      (after_retries E (S i) (set_clock (Z.add (turn_time E (writes w))) (set_writes S w))).
    rewrite IH. simpl. by rewrite Nat.add_succ_r.
Qed.

Lemma after_retries_writes E i w : writes (after_retries E i w) = (writes w + i)%nat.
Proof.
  induction i as [|i IH]; [simpl; lia|].
  rewrite after_retries_snoc. simpl. lia.
Qed.

Lemma after_retries_same E i w : same_objects w (after_retries E i w).
Proof.
  induction i as [|i IH]; [apply same_objects_refl|].
  rewrite after_retries_snoc. destruct IH as (?&?&?&?&?). by repeat split.
Qed.

(** Every turn takes a millisecond at least. *)
Lemma after_retries_clock E i j w :
  (j <= i)%nat ->
  clock (after_retries E j w) + Z.of_nat (i - j) <= clock (after_retries E i w).
Proof.
  induction 1 as [|i Hle IH].
  - rewrite Nat.sub_diag. simpl. lia.
  - rewrite (after_retries_snoc E i). simpl. unfold turn_time. lia.
Qed.

Lemma window_open_earlier E timeout i j w :
  (j <= i)%nat -> window_open E timeout i w -> window_open E timeout j w.
Proof.
  unfold window_open. intros Hle Hopen.
  pose proof (after_retries_clock E i j w Hle). lia.
Qed.


Lemma blocked_earlier E i j w : (j <= i)%nat -> blocked E i w -> blocked E j w.
Proof. intros Hle Hblk k Hk. apply Hblk. lia. Qed.

Lemma send_loop_would_block E data a future w errno :
  clock w < future -> net E (writes w) = WriteErr errno -> would_block errno = true ->
  send_loop E data a future w =
  let '(r, w', t) := send_loop E data a future
                       (set_clock (Z.add (turn_time E (writes w))) (set_writes S w)) in
  (r, w', Slept :: t).
Proof.
  intros Hlt Hnet Hwb. rewrite (send_loop_equation_1 E data a future w).
  destruct (decide (clock w < future)) as [?|?]; [|lia].
  simpl. rewrite Hnet. simpl. rewrite Hwb. simpl.
  by destruct (send_loop E data a future _) as [[r w'] t].
Qed.

Lemma send_loop_fatal E data a future w errno :
  clock w < future -> net E (writes w) = WriteErr errno -> would_block errno = false ->
  send_loop E data a future w = (Raise (SocketError errno), set_writes S w, []).
Proof.
  intros Hlt Hnet Hwb. rewrite (send_loop_equation_1 E data a future w).
  destruct (decide (clock w < future)) as [?|?]; [|lia].
  simpl. rewrite Hnet. simpl. by rewrite Hwb.
Qed.

Lemma send_loop_ok E data a future w :
  clock w < future -> net E (writes w) = WriteOk ->
  send_loop E data a future w = (Ret tt, set_writes S w, [Sent data a]).
Proof.
  intros Hlt Hnet. rewrite (send_loop_equation_1 E data a future w).
  destruct (decide (clock w < future)) as [?|?]; [|lia].
  simpl. by rewrite Hnet.
Qed.

Lemma send_loop_elapsed E data a future w :
  future <= clock w -> send_loop E data a future w = (Ret tt, w, []).
Proof.
  intros Hle. rewrite (send_loop_equation_1 E data a future w).
  destruct (decide (clock w < future)) as [?|?]; [lia|done].
Qed.

(** [i] would-block answers, each inside the window: [i] sleeps, then the
    loop goes on from the world [after_retries E i w]. *)
Lemma send_loop_retries E data a future i : forall w,
  (forall j, (j < i)%nat -> clock (after_retries E j w) < future) -> blocked E i w ->
  send_loop E data a future w =
  let '(r, w', t) := send_loop E data a future (after_retries E i w) in
  (r, w', replicate i Slept ++ t).
Proof.
  induction i as [|i IH]; intros w Hwin Hblk.
  - simpl. by destruct (send_loop E data a future w) as [[r w'] t].
  - destruct (Hblk O) as (errno & Hnet & Hwb); [lia|].
    rewrite Nat.add_0_r in Hnet.
    rewrite (send_loop_would_block _ _ _ _ _ errno); [|apply (Hwin O); lia|done..].
    rewrite (IH (set_clock (Z.add (turn_time E (writes w))) (set_writes S w))).
    + simpl.
      by destruct (send_loop E data a future (after_retries E i _)) as [[r w'] t].
    + intros j Hj. apply (Hwin (S j)). lia.
    + intros j Hj. destruct (Hblk (S j)) as (e' & Hn' & Hw'); [lia|].
      exists e'. split; [|done]. simpl. by rewrite <- Nat.add_succ_r.
Qed.

Lemma window_open_turns E timeout i w :
  window_open E timeout i w ->
  i = O \/ exists i', i = S i' /\ window_open E timeout i' w.
Proof.
  destruct i as [|i]; [by left|]. intros Hopen. right. exists i. split; [done|].
  apply (window_open_earlier E timeout (S i)); [lia|done].
Qed.

(** The same from [send_all]: the window is the one it opens in [w]. *)
Lemma send_all_retries E data a timeout i w :
  (i = O \/ exists i', i = S i' /\ window_open E timeout i' w) -> blocked E i w ->
  send_all E data a timeout w =
  let '(r, w', t) := send_loop E data a (clock w + timeout) (after_retries E i w) in
  (r, w', replicate i Slept ++ t).
Proof.
  intros Hwin Hblk. unfold send_all. apply send_loop_retries; [|done].
  intros j Hj. destruct Hwin as [->|(i' & -> & Hopen)]; [lia|].
  apply (window_open_earlier E timeout i' j w); [lia|done].
Qed.

Lemma sent_of_sleeps (n : nat) : sent_of (replicate n Slept) = [].
Proof. induction n; [done|]. simpl. done. Qed.

(** When the window has closed after [i] would-block answers at the
    latest, the loop ends at the first [n] at which it is closed. *)
Lemma send_all_exhausted E data a timeout i w :
  blocked E i w -> ~ window_open E timeout i w ->
  exists n, (n <= i)%nat /\
    (forall j, (j < n)%nat -> window_open E timeout j w) /\
    ~ window_open E timeout n w /\
    send_all E data a timeout w = (Ret tt, after_retries E n w, replicate n Slept).
Proof.
  induction i as [|i IH]; intros Hblk Hclosed.
  - exists O. split; [done|]. split; [intros j Hj; lia|]. split; [done|].
    unfold send_all. rewrite send_loop_elapsed; [done|].
    unfold window_open in Hclosed. simpl in Hclosed. lia.
  - destruct (decide (clock (after_retries E i w) < clock w + timeout)) as [Hopen|Hnot].
    + exists (S i). split; [done|].
      split; [intros j Hj; apply (window_open_earlier E timeout i j w); [lia|done]|].
      split; [done|].
      rewrite (send_all_retries _ _ _ _ (S i)); [|right; by exists i|done].
      rewrite send_loop_elapsed; [by rewrite app_nil_r|].
      unfold window_open in Hclosed. lia.
    + destruct IH as (n & Hn & Hrest);
        [apply (blocked_earlier E (S i)); [lia|done]|exact Hnot|].
      exists n. split; [lia|done].
Qed.

(** The ID drawn by a call does not bear on the loop. *)
Lemma after_retries_draws E f i : forall w,
  after_retries E i (set_draws f w) = set_draws f (after_retries E i w).
Proof. induction i as [|i IH]; intros w; [done|]. simpl. by rewrite <- IH. Qed.

Lemma window_open_draws E timeout f i w :
  window_open E timeout i w -> window_open E timeout i (set_draws f w).
Proof. unfold window_open. by rewrite after_retries_draws. Qed.

(** ** The resilient send *)

(** C9: the resilient send answers a would-block error of the transport
    with a sleep and a new attempt as long as its window is open, however
    long the turns of the loop take: a write accepted after [i] such errors,
    with the window still open, sends the datagram; any other transport
    error met with the window still open is raised at once as a socket
    error, with nothing sent; and when the window has closed after [i] such
    errors at the latest, the loop ends after [n] of them, the first [n] at
    which the window is closed, without an error and without having sent
    the datagram. *)
Theorem send_all_resilient (E : env) (data : bytes) (a : address) (timeout : Z)
    (w : world) :
  (forall i, blocked E i w -> window_open E timeout i w ->
     net E (writes w + i) = WriteOk ->
     send_all E data a timeout w =
     (Ret tt, set_writes S (after_retries E i w), replicate i Slept ++ [Sent data a])) /\
  (forall i errno, blocked E i w -> window_open E timeout i w ->
     net E (writes w + i) = WriteErr errno -> would_block errno = false ->
     send_all E data a timeout w =
     (Raise (SocketError errno), set_writes S (after_retries E i w), replicate i Slept)) /\
  (forall i, blocked E i w -> ~ window_open E timeout i w ->
     exists n, (n <= i)%nat /\
       (forall j, (j < n)%nat -> window_open E timeout j w) /\
       ~ window_open E timeout n w /\
       send_all E data a timeout w =
       (Ret tt, after_retries E n w, replicate n Slept) /\
       sent_of (replicate n Slept) = []).
Proof.
  split; [|split].
  - intros i Hblk Hopen Hnet.
    rewrite (send_all_retries _ _ _ _ i); [|by apply window_open_turns|done].
    rewrite send_loop_ok; [done|exact Hopen|by rewrite after_retries_writes].
  - intros i errno Hblk Hopen Hnet Hwb.
    rewrite (send_all_retries _ _ _ _ i); [|by apply window_open_turns|done].
    rewrite (send_loop_fatal _ _ _ _ _ errno);
      [by rewrite app_nil_r|exact Hopen|by rewrite after_retries_writes|done].
  - intros i Hblk Hclosed.
    destruct (send_all_exhausted E data a timeout i w Hblk Hclosed)
      as (n & Hn & Hbefore & Hat & Hrun).
    exists n. repeat (split; [done|]). apply sent_of_sleeps.
Qed.

Lemma send_all_resilient_witness :
  (blocked Sample.busy3 3 Sample.idle /\ window_open Sample.busy3 5000 3 Sample.idle /\
   net Sample.busy3 (writes Sample.idle + 3) = WriteOk /\
   send_all Sample.busy3 [] Sample.responder_addr 5000 Sample.idle =
   (Ret tt, set_writes S (after_retries Sample.busy3 3 Sample.idle),
    replicate 3 Slept ++ [Sent [] Sample.responder_addr])) /\
  (would_block 32 = false /\
   send_all Sample.broken3 [] Sample.responder_addr 5000 Sample.idle =
   (Raise (SocketError 32), set_writes S (after_retries Sample.broken3 3 Sample.idle),
    replicate 3 Slept)) /\
  (blocked Sample.slow47 47 Sample.idle /\
   ~ window_open Sample.slow47 50 47 Sample.idle /\
   net Sample.slow47 (writes Sample.idle + 47) = WriteOk /\
   exists n, (n <= 47)%nat /\
     send_all Sample.slow47 [] Sample.responder_addr 50 Sample.idle =
     (Ret tt, after_retries Sample.slow47 n Sample.idle, replicate n Slept)).
Proof.
  assert (Hb : forall E, (forall n, (n < 3)%nat -> net E n = WriteErr 11) ->
                         blocked E 3 Sample.idle).
  { intros E HE j Hj. exists 11. split; [by apply HE|done]. }
  assert (H3 : forall n, (n < 3)%nat -> (if (n <? 3)%nat then WriteErr 11 else WriteOk) = WriteErr 11).
  { intros n Hn. by destruct (Nat.ltb_spec n 3); [|lia]. }
  assert (H3' : forall n, (n < 3)%nat -> (if (n <? 3)%nat then WriteErr 11 else WriteErr 32) = WriteErr 11).
  { intros n Hn. by destruct (Nat.ltb_spec n 3); [|lia]. }
  assert (Hj : blocked Sample.slow47 47 Sample.idle).
  { intros j Hj. exists 11. split; [|done]. simpl.
    by destruct (Nat.ltb_spec j 47); [|lia]. }
  assert (Ho : window_open Sample.busy3 5000 3 Sample.idle) by (vm_compute; reflexivity).
  assert (Ho' : window_open Sample.broken3 5000 3 Sample.idle) by (vm_compute; reflexivity).
  assert (Hc : ~ window_open Sample.slow47 50 47 Sample.idle).
  { unfold window_open. vm_compute. by intros ?. }
  split; [|split].
  - split; [by apply Hb|]. split; [exact Ho|]. split; [done|].
    apply (proj1 (send_all_resilient Sample.busy3 [] Sample.responder_addr 5000 Sample.idle));
      [by apply Hb | exact Ho | done].
  - split; [done|].
    apply (proj1 (proj2 (send_all_resilient Sample.broken3 [] Sample.responder_addr 5000
                           Sample.idle)) 3%nat 32);
      [by apply Hb | exact Ho' | done | done].
  - split; [exact Hj|]. split; [exact Hc|]. split; [reflexivity|].
    destruct (proj2 (proj2 (send_all_resilient Sample.slow47 [] Sample.responder_addr 50
                              Sample.idle)) 47%nat Hj Hc) as (n & Hn & _ & _ & Hrun & _).
    exists n. exact (conj Hn Hrun).
Defined.

(** *** Log lines under [noisy] *)

Lemma when_noisy (self : engine) (l : log_line) (w : world) :
  when (noisy self) (log_msg l) w =
  (Ret tt, w, if noisy self then [Log false l] else []).
Proof. unfold when, log_msg, emit, mret, M_ret. by destruct (noisy self). Qed.

Lemma only_logs_noisy (b : bool) (l : log_line) :
  only_logs (if b then [Log false l] else []).
Proof. destruct b; repeat constructor. Qed.

Lemma only_logs_app t1 t2 : only_logs t1 -> only_logs t2 -> only_logs (t1 ++ t2).
Proof. apply Forall_app_2. Qed.

(** ** Undersized datagrams *)

(** C5: a datagram shorter than 22 bytes makes [datagramReceived] return
    without an exception; the world (the pending-call table, the Deferreds,
    the DelayedCalls) is unchanged, the trace holds log lines only, so that
    nothing is sent; and whatever datagram comes next is processed exactly
    as it would have been, its trace following these log lines. *)
Theorem undersized_datagram_ignored `{RT : Runtime} (self : engine) (E : env)
    (datagram : bytes) (a : address) (w : world) :
  len datagram < 22 ->
  exists t,
    datagramReceived self E datagram a w = (Ret tt, w, t) /\
    only_logs t /\ sent_of t = [] /\
    forall datagram' a',
      (datagramReceived self E datagram a ≫=
         fun _ => datagramReceived self E datagram' a') w =
      let '(r, w', t') := datagramReceived self E datagram' a' w in
      (r, w', t ++ t').
Proof.
  intros Hlen.
  assert (Hrun : datagramReceived self E datagram a w =
                 (Ret tt, w, (if noisy self then [Log false (LogReceivedDatagram a)] else [])
                             ++ [Log false (LogTooSmall a)])).
  { unfold datagramReceived. unfold mbind at 1, M_bind at 1.
    rewrite when_noisy. rewrite bool_decide_eq_true_2 by done. done. }
  eexists. split; [exact Hrun|]. split; [|split].
  - apply only_logs_app; [apply only_logs_noisy | repeat constructor].
  - apply only_logs_sent, only_logs_app; [apply only_logs_noisy | repeat constructor].
  - intros datagram' a'. unfold mbind at 1, M_bind at 1. rewrite Hrun.
    by destruct (datagramReceived self E datagram' a' w) as [[r w'] t'].
Qed.

Lemma undersized_datagram_ignored_witness :
  len (replicate 10 "000"%byte) < 22 /\
  exists t,
    datagramReceived Sample.echo_server Sample.calm (replicate 10 "000"%byte)
      Sample.caller_addr Sample.idle = (Ret tt, Sample.idle, t) /\
    only_logs t /\ sent_of t = [] /\
    forall datagram' a',
      (datagramReceived Sample.echo_server Sample.calm (replicate 10 "000"%byte)
         Sample.caller_addr ≫=
         fun _ => datagramReceived Sample.echo_server Sample.calm datagram' a')
        Sample.idle =
      let '(r, w', t') :=
        datagramReceived Sample.echo_server Sample.calm datagram' a' Sample.idle in
      (r, w', t ++ t').
Proof.
  split; [done|].
  apply (undersized_datagram_ignored Sample.echo_server Sample.calm
           (replicate 10 "000"%byte) Sample.caller_addr Sample.idle).
  done.
Defined.

(** ** The size guard of outbound calls *)

(** C4: when the packed [[name, args]] is longer than 8192 bytes, the call
    raises [MalformedMessage] at once: the trace is empty (no datagram, not
    even a log line) and the world differs only by the random draw already
    made, so that no table entry, Deferred or DelayedCall was created.
    When it is at most 8192 bytes long, the call does not raise
    [MalformedMessage]. *)
Theorem call_size_guard `{RT : Runtime} (self : engine) (E : env)
    (name : string) (a : address) (args : list value) (data : bytes) (w : world) :
  packb (VList [VStr name; VList args]) = Some data ->
  (len data > 8192 ->
     func self E name a args w =
     (Raise (MalformedMessage
               "Total length of function name and arguments cannot exceed 8K"),
      set_draws S w, [])) /\
  (len data <= 8192 ->
     forall msg, (func self E name a args w).1.1 <> Raise (MalformedMessage msg)).
Proof.
  intros Hpack. split.
  - intros Hbig.
    unfold func. unfold mbind at 1, M_bind at 1. unfold fresh_digest.
    rewrite Hpack. rewrite bool_decide_eq_true_2 by done. done.
  - intros Hsmall msg. unfold func. unfold mbind at 1, M_bind at 1.
    unfold fresh_digest. rewrite Hpack. rewrite bool_decide_eq_false_2 by lia.
    unfold mbind at 1, M_bind at 1. rewrite when_noisy.
    unfold mbind at 1, M_bind at 1. unfold send_all.
    destruct (send_loop _ _ _ _ _) as [[r w1] t1] eqn:Hsend.
    destruct (send_loop_frame _ _ _ _ _ _ _ _ Hsend) as (_ & [->|(errno & -> & _)] & _).
    + unfold_M. simpl. done.
    + simpl. done.
Qed.

Lemma call_size_guard_witness :
  (exists data,
     Msgpack.pack (VList [VStr "store"; VList [Sample.big_arg]]) = Some data /\
     len data > 8192 /\
     func Sample.plain Sample.calm "store" Sample.responder_addr
       [Sample.big_arg] Sample.idle =
     (Raise (MalformedMessage
               "Total length of function name and arguments cannot exceed 8K"),
      set_draws S Sample.idle, [])) /\
  (exists data,
     Msgpack.pack (VList [VStr "echo"; VList [VList [VStr "x"]]]) = Some data /\
     len data <= 8192 /\
     forall msg,
       (func Sample.plain Sample.calm "echo" Sample.responder_addr
          [VList [VStr "x"]] Sample.idle).1.1 <> Raise (MalformedMessage msg)).
Proof.
  split.
  - eexists. split; [vm_compute; reflexivity|]. split; [vm_compute; reflexivity|].
    apply (call_size_guard Sample.plain Sample.calm "store" Sample.responder_addr
             [Sample.big_arg]
             (default [] (Msgpack.pack
                (VList [VStr "store"; VList [Sample.big_arg]])))
             Sample.idle).
    + vm_compute; reflexivity.
    + vm_compute; reflexivity.
  - eexists. split; [vm_compute; reflexivity|]. split; [vm_compute; discriminate|].
    apply (call_size_guard Sample.plain Sample.calm "echo" Sample.responder_addr
             [VList [VStr "x"]]
             (default [] (Msgpack.pack (VList [VStr "echo"; VList [VList [VStr "x"]]])))
             Sample.idle).
    + vm_compute; reflexivity.
    + vm_compute; discriminate.
Defined.

(** ** What the engine sends *)

Lemma send_all_frame E data a timeout w r w' t :
  send_all E data a timeout w = (r, w', t) ->
  same_objects w w' /\
  (r = Ret tt \/ exists errno, r = Raise (SocketError errno)) /\
  (forall p, p ∈ sent_of t -> p = (data, a)).
Proof.
  unfold send_all. intros Hsend.
  destruct (send_loop_frame _ _ _ _ _ _ _ _ Hsend) as (Hs & Hr & Hok & Hbad).
  split; [done|]. split.
  - destruct Hr as [->|(errno & -> & _)]; eauto.
  - intros p Hp. destruct Hr as [->|(errno & -> & _)].
    + destruct Hok as [Heq|[Heq _]]; [done| |]; rewrite Heq in Hp.
      * by apply list_elem_of_singleton in Hp.
      * by apply elem_of_nil in Hp.
    + rewrite Hbad in Hp by done. by apply elem_of_nil in Hp.
Qed.

Section Dispatch.
Context `{RT : Runtime}.
Variable self : engine.
Variable E : env.

Lemma _sendResponse_frame response msgID a w r w' t :
  _sendResponse self E response msgID a w = (r, w', t) ->
  same_objects w w' /\
  (r = Ret tt \/ r = Raise PackException \/ exists errno, r = Raise (SocketError errno)) /\
  (forall p, p ∈ sent_of t -> is_response_to msgID a p).
Proof.
  unfold _sendResponse. unfold mbind at 1, M_bind at 1. rewrite when_noisy.
  destruct (packb response) as [packed|] eqn:Hpack.
  - destruct (send_all _ _ _ _ _) as [[r1 w1] t1] eqn:Hsend.
    intros [= <- <- <-].
    destruct (send_all_frame _ _ _ _ _ _ _ _ Hsend) as (Hs & Hr & Hsent).
    split; [done|]. split; [destruct Hr as [->|[errno ->]]; eauto|].
    intros p. rewrite sent_of_app, only_logs_sent by apply only_logs_noisy.
    simpl. intros Hp. apply Hsent in Hp. by exists response, packed.
  - unfold raise. intros [= <- <- <-].
    split; [apply same_objects_refl|]. split; [eauto|].
    intros p. rewrite app_nil_r, only_logs_sent by apply only_logs_noisy.
    by intros ?%elem_of_nil.
Qed.

(** Dispatch of a request leaves the table and the reactor objects alone,
    but for the Deferred a handler may return; it raises nothing but
    [MalformedMessage] and [TypeError], and sends nothing but response
    frames carrying the ID of the request. *)
Lemma _acceptRequest_frame msgID data a w r w' t :
  _acceptRequest self E msgID data a w = (r, w', t) ->
  (same_objects w w' \/ w' = set_awaiting (fun l => l ++ [Some (msgID, a)]) w) /\
  (r = Ret tt \/ r = Raise TypeError \/ exists msg, r = Raise (MalformedMessage msg)) /\
  (forall p, p ∈ sent_of t -> is_response_to msgID a p).
Proof.
  unfold _acceptRequest. intros Hrun.
  assert (Hmal : forall msg, (raise (MalformedMessage msg) : M unit) w = (r, w', t) ->
    (same_objects w w' \/ w' = set_awaiting (fun l => l ++ [Some (msgID, a)]) w) /\
    (r = Ret tt \/ r = Raise TypeError \/ exists msg, r = Raise (MalformedMessage msg)) /\
    (forall p, p ∈ sent_of t -> is_response_to msgID a p)).
  { unfold raise. intros msg [= <- <- <-].
    split; [left; apply same_objects_refl|]. split; [eauto|]. by intros p ?%elem_of_nil. }
  assert (Hlog : forall l, log_err l w = (r, w', t) ->
    (same_objects w w' \/ w' = set_awaiting (fun l => l ++ [Some (msgID, a)]) w) /\
    (r = Ret tt \/ r = Raise TypeError \/ exists msg, r = Raise (MalformedMessage msg)) /\
    (forall p, p ∈ sent_of t -> is_response_to msgID a p)).
  { unfold log_err, emit. intros l [= <- <- <-].
    split; [left; apply same_objects_refl|]. split; [eauto|]. by intros p ?%elem_of_nil. }
  destruct data as [| | | |l]; try by eapply Hmal.
  destruct l as [|funcname [|args [|? ?]]]; try by eapply Hmal.
  destruct (rpc_attrs self !! _) as [[f|]|]; try by eapply Hlog.
  destruct (py_iter args) as [argl|].
  - destruct (f a argl) as [response|err|].
    + unfold try_except in Hrun.
      destruct (_sendResponse _ _ _ _ _ _) as [[r1 w1] t1] eqn:Hsend.
      destruct (_sendResponse_frame _ _ _ _ _ _ _ Hsend) as (Hs & Hr & Hsent).
      destruct r1 as [[]|e].
      * injection Hrun as <- <- <-. split; [by left|]. split; [eauto|done].
      * unfold _onError, log_err, emit in Hrun. injection Hrun as <- <- <-.
        split; [by left|]. split; [eauto|].
        intros p. rewrite sent_of_app. simpl. rewrite app_nil_r. apply Hsent.
    + unfold _onError in Hrun. by eapply Hlog.
    + unfold modify in Hrun. injection Hrun as <- <- <-.
      split; [by right|]. split; [eauto|]. by intros p ?%elem_of_nil.
  - unfold raise in Hrun. injection Hrun as <- <- <-.
    split; [left; apply same_objects_refl|]. split; [eauto|]. by intros p ?%elem_of_nil.
Qed.

End Dispatch.

(** ** Response matching and timeouts, step by step *)

Section Matching.
Context `{RT : Runtime}.
Variable self : engine.
Variable E : env.

Lemma _acceptResponse_unknown X data a w :
  outstanding w !! X = None ->
  _acceptResponse self X data a w = (Ret tt, w, [Log true (LogUnknownResponse X a)]).
Proof.
  intros Hnone. unfold _acceptResponse. unfold mbind at 1, M_bind at 1, get.
  by rewrite bool_decide_eq_true_2.
Qed.

Lemma _acceptResponse_found X d t tm data a w :
  outstanding w !! X = Some (d, t) ->
  deferreds w !! d = Some None ->
  timers w !! t = Some tm -> t_status tm = TPending ->
  _acceptResponse self X data a w =
  (Ret tt, matched X d t tm data w,
   if noisy self then [Log false (LogReceivedResponse X a)] else []).
Proof.
  intros Hout Hd Ht Hst. unfold _acceptResponse.
  unfold mbind at 1, M_bind at 1, get.
  rewrite bool_decide_eq_false_2 by congruence.
  unfold mbind at 1, M_bind at 1. rewrite when_noisy.
  unfold mbind at 1, M_bind at 1, get_outstanding. rewrite Hout.
  unfold mbind at 1, M_bind at 1, cancel. rewrite Ht, Hst.
  unfold mbind at 1, M_bind at 1, callback. simpl. rewrite Hd.
  unfold del_outstanding. simpl. rewrite Hout. simpl.
  by rewrite !app_nil_r.
Qed.

(** Whatever happens, matching a response sends nothing and leaves the
    Deferreds of handlers alone. *)
Lemma _acceptResponse_logs X data a w r w' t :
  _acceptResponse self X data a w = (r, w', t) ->
  only_logs t /\ awaiting w' = awaiting w.
Proof.
  unfold _acceptResponse. unfold mbind at 1, M_bind at 1, get.
  case_bool_decide as Hout.
  { unfold log_err, emit. intros [= <- <- <-]. split; [repeat constructor|done]. }
  unfold mbind at 1, M_bind at 1. rewrite when_noisy.
  unfold mbind at 1, M_bind at 1, get_outstanding.
  destruct (outstanding w !! X) as [[d tr]|]; [|done].
  unfold mbind at 1, M_bind at 1, cancel.
  assert (Hn : only_logs ((if noisy self then [Log false (LogReceivedResponse X a)] else [])
                          ++ [])).
  { rewrite app_nil_r. apply only_logs_noisy. }
  destruct (timers w !! tr) as [tm|]; [destruct (t_status tm)|];
    try (intros [= <- <- <-]; split; [exact Hn|done]).
  unfold mbind at 1, M_bind at 1, callback. simpl.
  destruct (deferreds w !! d) as [[?|]|]; try (intros [= <- <- <-]; split; [exact Hn|done]).
  unfold del_outstanding. simpl.
  destruct (outstanding w !! X); intros [= <- <- <-]; simpl; split; (exact Hn || done).
Qed.

Lemma _timeout_found X d t w :
  outstanding w !! X = Some (d, t) ->
  deferreds w !! d = Some None ->
  _timeout self X w =
  (Ret tt, set_outstanding (delete X) (set_deferreds (<[d := Some (false, VNil)]>) w),
   [Log true (LogNoReply X (waitTimeout self))]).
Proof.
  intros Hout Hd. unfold _timeout.
  unfold mbind at 1, M_bind at 1, log_err, emit.
  unfold mbind at 1, M_bind at 1, get_outstanding. rewrite Hout.
  unfold mbind at 1, M_bind at 1, callback. simpl. rewrite Hd.
  unfold del_outstanding. simpl. by rewrite Hout.
Qed.

(** Called for an ID that is not in the table, the callback fails on
    the table lookup. *)
Lemma _timeout_missing X w :
  outstanding w !! X = None ->
  _timeout self X w =
  (Raise (KeyError X), w, [Log true (LogNoReply X (waitTimeout self))]).
Proof.
  intros Hout. unfold _timeout.
  unfold mbind at 1, M_bind at 1, log_err, emit.
  unfold mbind at 1, M_bind at 1, get_outstanding. by rewrite Hout.
Qed.

Lemma reactor_fire_pending t tm d w :
  timers w !! t = Some tm -> t_status tm = TPending ->
  outstanding w !! t_msgID tm = Some (d, t) ->
  deferreds w !! d = Some None ->
  reactor_fire self t w =
  (Ret tt, timed_out (t_msgID tm) d t tm w,
   [Log true (LogNoReply (t_msgID tm) (waitTimeout self))]).
Proof.
  intros Ht Hst Hout Hd. unfold reactor_fire. rewrite Ht, Hst.
  unfold mbind at 1, M_bind at 1, modify.
  rewrite (_timeout_found _ d t) by done. done.
Qed.

Lemma reactor_fire_skipped t tm w :
  timers w !! t = Some tm -> t_status tm <> TPending ->
  reactor_fire self t w = (Ret tt, w, []).
Proof.
  intros Ht Hst. unfold reactor_fire. rewrite Ht. by destruct (t_status tm).
Qed.

End Matching.

(** ** The receive path, branch by branch *)

Section Receive.
Context `{RT : Runtime}.
Variable self : engine.
Variable E : env.

Lemma datagramReceived_request frame a data w :
  22 <= len frame -> slice 0 1 frame = REQUEST_BYTE ->
  unpackb (slice_from 21 frame) = Some data ->
  datagramReceived self E frame a w =
  let '(r, w', t) := _acceptRequest self E (slice 1 21 frame) data a w in
  (r, w', (if noisy self then [Log false (LogReceivedDatagram a)] else []) ++ t).
Proof.
  intros Hlen Htag Hdata. unfold datagramReceived.
  unfold mbind at 1, M_bind at 1. rewrite when_noisy.
  rewrite bool_decide_eq_false_2 by lia. rewrite Hdata.
  by rewrite bool_decide_eq_true_2.
Qed.

Lemma datagramReceived_response frame a data w :
  22 <= len frame -> slice 0 1 frame = RESPONSE_BYTE ->
  unpackb (slice_from 21 frame) = Some data ->
  datagramReceived self E frame a w =
  let '(r, w', t) := _acceptResponse self (slice 1 21 frame) data a w in
  (r, w', (if noisy self then [Log false (LogReceivedDatagram a)] else []) ++ t).
Proof.
  intros Hlen Htag Hdata. unfold datagramReceived.
  unfold mbind at 1, M_bind at 1. rewrite when_noisy.
  rewrite bool_decide_eq_false_2 by lia. rewrite Hdata.
  rewrite bool_decide_eq_false_2 by (rewrite Htag; discriminate).
  by rewrite bool_decide_eq_true_2.
Qed.

Lemma datagramReceived_unknown frame a data w :
  22 <= len frame ->
  slice 0 1 frame <> REQUEST_BYTE -> slice 0 1 frame <> RESPONSE_BYTE ->
  unpackb (slice_from 21 frame) = Some data ->
  datagramReceived self E frame a w =
  (Ret tt, w, (if noisy self then [Log false (LogReceivedDatagram a)] else [])
              ++ [Log false (LogUnknownMessage a)]).
Proof.
  intros Hlen Hreq Hresp Hdata. unfold datagramReceived.
  unfold mbind at 1, M_bind at 1. rewrite when_noisy.
  rewrite bool_decide_eq_false_2 by lia. rewrite Hdata.
  by rewrite !bool_decide_eq_false_2.
Qed.

(** The payload is unpacked before the tag is looked at. *)
Lemma datagramReceived_undecodable frame a w :
  22 <= len frame -> unpackb (slice_from 21 frame) = None ->
  datagramReceived self E frame a w =
  (Raise UnpackException, w,
   (if noisy self then [Log false (LogReceivedDatagram a)] else []) ++ []).
Proof.
  intros Hlen Hdata. unfold datagramReceived.
  unfold mbind at 1, M_bind at 1. rewrite when_noisy.
  rewrite bool_decide_eq_false_2 by lia. by rewrite Hdata.
Qed.

End Receive.

(** ** Timeouts *)

(** C3, as stated, fails: after the timeout callback of the pending call
    with ID [id_of 0] has fired its Deferred with [(False, None)] and
    removed the entry, a response frame with that ID whose payload is the
    reserved type byte 0xc1 is not dropped with a log line:
    [datagramReceived] raises the decoding exception, before the table is
    looked at and without a log line. *)
Lemma late_garbage_response_raises :
  _timeout Sample.plain (Sample.id_of 0) Sample.pending =
    (Ret tt, Sample.expired,
     [Log true (LogNoReply (Sample.id_of 0) (waitTimeout Sample.plain))]) /\
  deferreds Sample.expired !! 0%nat = Some (Some (false, VNil)) /\
  outstanding Sample.expired !! Sample.id_of 0 = None /\
  22 <= len Sample.garbage_response /\
  slice 0 1 Sample.garbage_response = RESPONSE_BYTE /\
  slice 1 21 Sample.garbage_response = Sample.id_of 0 /\
  datagramReceived Sample.plain Sample.calm Sample.garbage_response
    Sample.responder_addr Sample.expired = (Raise UnpackException, Sample.expired, []) /\
  ~ exists w t, datagramReceived Sample.plain Sample.calm Sample.garbage_response
                  Sample.responder_addr Sample.expired = (Ret tt, w, t).
Proof.
  assert (Hrun : datagramReceived Sample.plain Sample.calm Sample.garbage_response
                   Sample.responder_addr Sample.expired =
                 (Raise UnpackException, Sample.expired, []))
    by (vm_compute; reflexivity).
  split; [vm_compute; reflexivity|].
  split; [vm_compute; reflexivity|]. split; [vm_compute; reflexivity|].
  split; [vm_compute; discriminate|].
  split; [reflexivity|]. split; [reflexivity|]. split; [exact Hrun|].
  intros (w & t & Hret). rewrite Hrun in Hret. discriminate.
Qed.

(** C3, amended: when the timeout callback runs for a pending call, it
    returns normally, the call's Deferred is fired with [(False, None)] and
    the entry leaves the table; a response frame with the same ID that
    arrives afterwards and whose payload unpacks is dropped as unknown:
    [datagramReceived] returns normally, the world is unchanged and the
    trace holds log lines only, among them the line for the unknown
    response. *)
Theorem timeout_resolves_and_removes `{RT : Runtime} (self : engine) (E : env)
    (X : bytes) (d t : nat) (w : world) (frame : bytes) (a : address) (data : value) :
  outstanding w !! X = Some (d, t) ->
  deferreds w !! d = Some None ->
  22 <= len frame -> slice 0 1 frame = RESPONSE_BYTE -> slice 1 21 frame = X ->
  unpackb (slice_from 21 frame) = Some data ->
  exists w',
    _timeout self X w = (Ret tt, w', [Log true (LogNoReply X (waitTimeout self))]) /\
    deferreds w' !! d = Some (Some (false, VNil)) /\
    outstanding w' !! X = None /\
    exists tr,
      datagramReceived self E frame a w' = (Ret tt, w', tr) /\
      only_logs tr /\ Log true (LogUnknownResponse X a) ∈ tr.
Proof.
  intros Hout Hd Hlen Htag Hid Hdata.
  eexists. split; [by apply (_timeout_found self X d t)|].
  split; [|split].
  - simpl. apply list_lookup_insert_eq. by eapply lookup_lt_Some.
  - simpl. apply lookup_delete_eq.
  - eexists. split; [|split].
    + rewrite (datagramReceived_response self E frame a data) by done.
      rewrite Hid. rewrite _acceptResponse_unknown; [done|].
      simpl. apply lookup_delete_eq.
    + apply only_logs_app; [apply only_logs_noisy | repeat constructor].
    + apply elem_of_app. right. by apply list_elem_of_singleton.
Qed.

Lemma timeout_resolves_and_removes_witness :
  outstanding Sample.pending !! Sample.id_of 0 = Some (0%nat, 0%nat) /\
  deferreds Sample.pending !! 0%nat = Some None /\
  22 <= len Sample.echo_response /\
  slice 0 1 Sample.echo_response = RESPONSE_BYTE /\
  slice 1 21 Sample.echo_response = Sample.id_of 0 /\
  Msgpack.unpack (slice_from 21 Sample.echo_response) = Some Sample.x_arg /\
  exists w',
    _timeout Sample.plain (Sample.id_of 0) Sample.pending =
    (Ret tt, w', [Log true (LogNoReply (Sample.id_of 0) (waitTimeout Sample.plain))]) /\
    deferreds w' !! 0%nat = Some (Some (false, VNil)) /\
    outstanding w' !! Sample.id_of 0 = None /\
    exists tr,
      datagramReceived Sample.plain Sample.calm Sample.echo_response
        Sample.responder_addr w' = (Ret tt, w', tr) /\
      only_logs tr /\
      Log true (LogUnknownResponse (Sample.id_of 0) Sample.responder_addr) ∈ tr.
Proof.
  assert (H1 : outstanding Sample.pending !! Sample.id_of 0 = Some (0%nat, 0%nat))
    by (vm_compute; reflexivity).
  assert (H2 : deferreds Sample.pending !! 0%nat = Some None) by reflexivity.
  assert (H3 : 22 <= len Sample.echo_response) by (vm_compute; discriminate).
  assert (H4 : slice 0 1 Sample.echo_response = RESPONSE_BYTE) by reflexivity.
  assert (H5 : slice 1 21 Sample.echo_response = Sample.id_of 0) by reflexivity.
  assert (H6 : Msgpack.unpack (slice_from 21 Sample.echo_response) = Some Sample.x_arg)
    by reflexivity.
  repeat (split; [assumption|]).
  exact (timeout_resolves_and_removes Sample.plain Sample.calm (Sample.id_of 0) 0 0
           Sample.pending Sample.echo_response Sample.responder_addr Sample.x_arg
           H1 H2 H3 H4 H5 H6).
Defined.

(** ** Unknown tags and undecodable payloads *)

(** C6: what the engine does at the input where it departs from the claim
    and from its own comment and log line in the last branch of
    [datagramReceived], which say that a datagram of unknown format is
    ignored.  A 22-byte datagram with the unknown tag 0x05 whose payload is
    the reserved type byte 0xc1 is not ignored: the payload is unpacked
    before the tag is looked at, and [datagramReceived] raises the decoding
    exception instead of returning. *)
Lemma unknown_tag_garbage_raises :
  22 <= len Sample.garbage /\
  slice 0 1 Sample.garbage <> REQUEST_BYTE /\
  slice 0 1 Sample.garbage <> RESPONSE_BYTE /\
  datagramReceived Sample.plain Sample.calm Sample.garbage Sample.caller_addr
    Sample.idle = (Raise UnpackException, Sample.idle, []) /\
  ~ exists w t, datagramReceived Sample.plain Sample.calm Sample.garbage
                  Sample.caller_addr Sample.idle = (Ret tt, w, t).
Proof.
  assert (Hrun : datagramReceived Sample.plain Sample.calm Sample.garbage
                   Sample.caller_addr Sample.idle = (Raise UnpackException, Sample.idle, []))
    by reflexivity.
  split; [vm_compute; discriminate|].
  split; [discriminate|]. split; [discriminate|]. split; [exact Hrun|].
  intros (w & t & Hret). rewrite Hrun in Hret. discriminate.
Qed.

(** X18: a datagram of at least 22 bytes whose tag is neither 0x02
    nor 0x03 and whose payload unpacks is dropped: [datagramReceived]
    returns normally, the world is unchanged and the trace holds log lines
    only, ending with the line for the unknown message.  The payload of a
    request or response frame is not checked before it is unpacked: when it
    does not unpack, the decoding exception leaves [datagramReceived], with
    the world unchanged and nothing sent. *)
Theorem unknown_tag_dropped `{RT : Runtime} (self : engine) (E : env)
    (frame : bytes) (a : address) (w : world) :
  22 <= len frame ->
  (slice 0 1 frame <> REQUEST_BYTE -> slice 0 1 frame <> RESPONSE_BYTE ->
   forall data, unpackb (slice_from 21 frame) = Some data ->
   exists t,
     datagramReceived self E frame a w = (Ret tt, w, t) /\
     only_logs t /\ sent_of t = [] /\ last t = Some (Log false (LogUnknownMessage a))) /\
  (slice 0 1 frame = REQUEST_BYTE \/ slice 0 1 frame = RESPONSE_BYTE ->
   unpackb (slice_from 21 frame) = None ->
   exists t,
     datagramReceived self E frame a w = (Raise UnpackException, w, t) /\
     only_logs t /\ sent_of t = []).
Proof.
  intros Hlen. split.
  - intros Hreq Hresp data Hdata. eexists. split.
    + by apply (datagramReceived_unknown self E frame a data).
    + split; [|split].
      * apply only_logs_app; [apply only_logs_noisy | repeat constructor].
      * apply only_logs_sent, only_logs_app; [apply only_logs_noisy | repeat constructor].
      * apply last_snoc.
  - intros _ Hdata. eexists. split.
    + by apply datagramReceived_undecodable.
    + rewrite app_nil_r. split; [apply only_logs_noisy|].
      apply only_logs_sent, only_logs_noisy.
Qed.

Lemma unknown_tag_dropped_witness :
  22 <= len Sample.stray /\
  (slice 0 1 Sample.stray <> REQUEST_BYTE /\ slice 0 1 Sample.stray <> RESPONSE_BYTE /\
   Msgpack.unpack (slice_from 21 Sample.stray) = Some VNil /\
   exists t,
     datagramReceived Sample.plain Sample.calm Sample.stray Sample.caller_addr
       Sample.idle = (Ret tt, Sample.idle, t) /\
     only_logs t /\ sent_of t = [] /\
     last t = Some (Log false (LogUnknownMessage Sample.caller_addr))) /\
  22 <= len Sample.garbage_request /\
  (slice 0 1 Sample.garbage_request = REQUEST_BYTE /\
   Msgpack.unpack (slice_from 21 Sample.garbage_request) = None /\
   exists t,
     datagramReceived Sample.plain Sample.calm Sample.garbage_request
       Sample.caller_addr Sample.idle = (Raise UnpackException, Sample.idle, t) /\
     only_logs t /\ sent_of t = []).
Proof.
  assert (H1 : 22 <= len Sample.stray) by (vm_compute; discriminate).
  assert (H2 : 22 <= len Sample.garbage_request) by (vm_compute; discriminate).
  split; [exact H1|]. split; [|split; [exact H2|]].
  - split; [discriminate|]. split; [discriminate|]. split; [reflexivity|].
    refine (proj1 (unknown_tag_dropped Sample.plain Sample.calm Sample.stray
                     Sample.caller_addr Sample.idle H1) _ _ VNil _);
      [discriminate | discriminate | reflexivity].
  - split; [reflexivity|]. split; [reflexivity|].
    apply (proj2 (unknown_tag_dropped Sample.plain Sample.calm Sample.garbage_request
                    Sample.caller_addr Sample.idle H2));
      [by left | reflexivity].
Defined.

(** ** Malformed requests *)

(** C7, as stated, fails: the request payload [["nosuch", 5]] has a number
    where the argument list should be, and [datagramReceived] returns
    normally (the method is unknown, the request is logged and dropped)
    instead of raising an exception. *)
Lemma request_with_number_args_not_rejected :
  22 <= len Sample.odd_request /\
  slice 0 1 Sample.odd_request = REQUEST_BYTE /\
  Msgpack.unpack (slice_from 21 Sample.odd_request) =
    Some (VList [VStr "nosuch"; VInt 5]) /\
  datagramReceived Sample.plain Sample.calm Sample.odd_request Sample.caller_addr
    Sample.idle = (Ret tt, Sample.idle, [Log true (LogNoCallable "nosuch")]) /\
  ~ exists e w t, datagramReceived Sample.plain Sample.calm Sample.odd_request
                    Sample.caller_addr Sample.idle = (Raise e, w, t).
Proof.
  assert (Hrun : datagramReceived Sample.plain Sample.calm Sample.odd_request
                   Sample.caller_addr Sample.idle =
                 (Ret tt, Sample.idle, [Log true (LogNoCallable "nosuch")]))
    by (vm_compute; reflexivity).
  split; [vm_compute; discriminate|].
  split; [reflexivity|]. split; [reflexivity|]. split; [exact Hrun|].
  intros (e & w & t & Hraise). rewrite Hrun in Hraise. discriminate.
Qed.

(** The same for a string in the place of the argument list, with a
    registered handler: the string is unpacked into its characters, the
    handler runs and a response frame is sent. *)
Lemma request_with_text_args_answered :
  Msgpack.unpack (slice_from 21 Sample.text_request) =
    Some (VList [VStr "echo"; VStr "x"]) /\
  exists t,
    datagramReceived Sample.echo_server Sample.calm Sample.text_request
      Sample.caller_addr Sample.idle = (Ret tt, set_writes S Sample.idle, t) /\
    sent_of t = [(Sample.frame_of "003" (VStr "x"), Sample.caller_addr)].
Proof.
  split; [reflexivity|]. eexists. split; vm_compute; reflexivity.
Qed.

(** C7, amended: a request frame whose payload does not unpack to a list of
    exactly two elements makes [datagramReceived] raise [MalformedMessage];
    the world is unchanged and the trace holds log lines only, so that no
    response frame is sent.  A payload that unpacks to a list of two
    elements never raises [MalformedMessage], whatever its second element
    is. *)
Theorem malformed_request_rejected `{RT : Runtime} (self : engine) (E : env)
    (frame : bytes) (a : address) (data : value) (w : world) :
  22 <= len frame -> slice 0 1 frame = REQUEST_BYTE ->
  unpackb (slice_from 21 frame) = Some data ->
  (two_element_list data = false ->
   exists t,
     datagramReceived self E frame a w =
     (Raise (MalformedMessage ("Could not read packet: " +:+ py_str data)), w, t) /\
     only_logs t /\ sent_of t = []) /\
  (two_element_list data = true ->
   forall msg, (datagramReceived self E frame a w).1.1 <> Raise (MalformedMessage msg)).
Proof.
  intros Hlen Htag Hdata.
  rewrite (datagramReceived_request self E frame a data) by done. split.
  - intros Hshape.
    assert (Hreq : _acceptRequest self E (slice 1 21 frame) data a w =
                   (Raise (MalformedMessage ("Could not read packet: " +:+ py_str data)),
                    w, [])).
    { unfold _acceptRequest.
      destruct data as [| | | |l]; try done.
      destruct l as [|? [|? [|? ?]]]; done. }
    rewrite Hreq. eexists. split; [done|]. rewrite app_nil_r.
    split; [apply only_logs_noisy | apply only_logs_sent, only_logs_noisy].
  - intros Hshape msg.
    destruct data as [| | | |l]; try done.
    destruct l as [|funcname [|args [|? ?]]]; try done.
    unfold _acceptRequest.
    destruct (rpc_attrs self !! _) as [[f|]|]; try done.
    destruct (py_iter args) as [argl|]; [|done].
    destruct (f a argl) as [response|err|]; try done.
    unfold try_except.
    destruct (_sendResponse _ _ _ _ _ _) as [[[[]|e] w1] t1]; done.
Qed.

Lemma malformed_request_rejected_witness :
  22 <= len Sample.short_request /\
  slice 0 1 Sample.short_request = REQUEST_BYTE /\
  Msgpack.unpack (slice_from 21 Sample.short_request) = Some (VList [VStr "x"]) /\
  two_element_list (VList [VStr "x"]) = false /\
  (exists t,
     datagramReceived Sample.echo_server Sample.calm Sample.short_request
       Sample.caller_addr Sample.idle =
     (Raise (MalformedMessage
               ("Could not read packet: " +:+ Msgpack.show false (VList [VStr "x"]))),
      Sample.idle, t) /\
     only_logs t /\ sent_of t = []) /\
  22 <= len Sample.text_request /\
  slice 0 1 Sample.text_request = REQUEST_BYTE /\
  Msgpack.unpack (slice_from 21 Sample.text_request) =
    Some (VList [VStr "echo"; VStr "x"]) /\
  two_element_list (VList [VStr "echo"; VStr "x"]) = true /\
  forall msg,
    (datagramReceived Sample.echo_server Sample.calm Sample.text_request
       Sample.caller_addr Sample.idle).1.1 <> Raise (MalformedMessage msg).
Proof.
  assert (H1 : 22 <= len Sample.short_request) by (vm_compute; discriminate).
  assert (H2 : slice 0 1 Sample.short_request = REQUEST_BYTE) by reflexivity.
  assert (H3 : Msgpack.unpack (slice_from 21 Sample.short_request) = Some (VList [VStr "x"]))
    by reflexivity.
  assert (H4 : two_element_list (VList [VStr "x"]) = false) by reflexivity.
  assert (H5 : 22 <= len Sample.text_request) by (vm_compute; discriminate).
  assert (H6 : slice 0 1 Sample.text_request = REQUEST_BYTE) by reflexivity.
  assert (H7 : Msgpack.unpack (slice_from 21 Sample.text_request) =
               Some (VList [VStr "echo"; VStr "x"])) by reflexivity.
  assert (H8 : two_element_list (VList [VStr "echo"; VStr "x"]) = true) by reflexivity.
  repeat (split; [assumption|]).
  split.
  { exact (proj1 (malformed_request_rejected (RT := Msgpack.runtime) Sample.echo_server
                    Sample.calm Sample.short_request Sample.caller_addr (VList [VStr "x"])
                    Sample.idle H1 H2 H3) H4). }
  repeat (split; [assumption|]).
  exact (proj2 (malformed_request_rejected (RT := Msgpack.runtime) Sample.echo_server
                  Sample.calm Sample.text_request Sample.caller_addr
                  (VList [VStr "echo"; VStr "x"]) Sample.idle H5 H6 H7) H8).
Defined.


(** ** Outbound calls, step by step *)

Section Calls.
Context `{RT : Runtime}.
Variable self : engine.
Variable E : env.

(** A call draws one ID; what it sends is the request frame with that ID;
    when it returns, the table maps the ID to a new Deferred and a new
    DelayedCall; when it raises, the table and the heaps are as before. *)
Lemma func_frame name a args w r w' t :
  func self E name a args w = (r, w', t) ->
  awaiting w' = awaiting w /\ draws w' = S (draws w) /\
  (forall p, p ∈ sent_of t ->
     exists data, packb (VList [VStr name; VList args]) = Some data /\
                  len data <= 8192 /\
                  p = (REQUEST_BYTE ++ digest E (draws w) ++ data, a)) /\
  match r with
  | Ret d =>
      d = length (deferreds w) /\
      outstanding w' = <[digest E (draws w) := (d, length (timers w))]> (outstanding w) /\
      deferreds w' = deferreds w ++ [None] /\
      timers w' = timers w ++ [{| t_delay := waitTimeout self;
                                  t_msgID := digest E (draws w);
                                  t_status := TPending |}]
  | Raise e =>
      object_error e = false /\ outstanding w' = outstanding w /\
      deferreds w' = deferreds w /\ timers w' = timers w
  end.
Proof.
  unfold func. unfold mbind at 1, M_bind at 1, fresh_digest.
  destruct (packb _) as [data|] eqn:Hpack.
  2:{ unfold raise. intros [= <- <- <-]. simpl.
      repeat split; try done. by intros p ?%elem_of_nil. }
  case_bool_decide as Hbig.
  { unfold raise. intros [= <- <- <-]. simpl.
    repeat split; try done. by intros p ?%elem_of_nil. }
  unfold mbind at 1, M_bind at 1. rewrite when_noisy.
  unfold mbind at 1, M_bind at 1.
  destruct (send_all _ _ _ _ _) as [[r1 w1] t1] eqn:Hsend.
  destruct (send_all_frame _ _ _ _ _ _ _ _ Hsend) as (Hs & Hr & Hsent).
  destruct Hs as (Ho & Hd & Ht & Ha & Hdr). simpl in Ho, Hd, Ht, Ha, Hdr.
  assert (Hp : forall t2 p, p ∈ sent_of
      ([] ++ (if noisy self then [Log false (LogCalling name a (digest E (draws w)))] else [])
          ++ t1 ++ t2) -> sent_of t2 = [] ->
      exists data0, Some data = Some data0 /\ len data0 <= 8192 /\
                    p = (REQUEST_BYTE ++ digest E (draws w) ++ data0, a)).
  { intros t2 p. rewrite !sent_of_app. simpl.
    rewrite (only_logs_sent (if noisy self then _ else _)) by apply only_logs_noisy.
    simpl. intros Hin Ht2. rewrite Ht2, app_nil_r in Hin.
    apply Hsent in Hin. exists data. split; [done|]. split; [lia|done]. }
  destruct Hr as [->|[errno ->]].
  - unfold_M. simpl. intros [= <- <- <-]. simpl.
    rewrite Ho, Hd, Ht, Ha, Hdr. repeat split; try done.
    intros p Hin. by apply (Hp [] p).
  - intros [= <- <- <-]. repeat split; try done.
    intros p Hin. apply (Hp [] p); [by rewrite app_nil_r|done].
Qed.

End Calls.

(** ** Every frame the engine sends *)

Lemma slice_id_length (d : bytes) : 22 <= len d -> length (slice 1 21 d) = 20%nat.
Proof. unfold len, slice. rewrite length_take, length_drop. lia. Qed.

Lemma well_framed_ok (d : bytes) :
  well_framed d -> frame_ok d = true /\ length (slice 1 21 d) = 20%nat.
Proof.
  intros (tag & id & payload & -> & Htag & Hid & Hpay).
  assert (Hlen : 22 <= len (tag ++ id ++ payload)).
  { unfold len. rewrite !length_app, Hid.
    destruct payload; [done|]. destruct Htag as [-> | ->]; simpl; lia. }
  split; [|by apply slice_id_length].
  unfold frame_ok. rewrite bool_decide_eq_true_2 by done.
  apply orb_true_iff.
  destruct Htag as [-> | ->]; [left|right]; by apply bool_decide_eq_true_2.
Qed.

Section Emitted.
Context `{RT : Runtime}.
Variable self : engine.
Variable E : env.
Hypothesis packb_nonempty : forall v b, packb v = Some b -> b <> [].

Lemma response_well_framed X a p :
  length X = 20%nat -> is_response_to X a p -> well_framed p.1.
Proof.
  intros HX (response & packed & Hpack & ->). simpl.
  exists RESPONSE_BYTE, X, packed. repeat split; eauto.
Qed.

Lemma reactor_fire_logs t0 w r w' t :
  reactor_fire self t0 w = (r, w', t) -> only_logs t /\ awaiting w' = awaiting w.
Proof.
  unfold reactor_fire.
  destruct (timers w !! t0) as [tm|];
    [|intros [= <- <- <-]; split; [constructor|done]].
  destruct (t_status tm); try (intros [= <- <- <-]; split; [constructor|done]).
  unfold mbind at 1, M_bind at 1, modify. unfold _timeout.
  unfold mbind at 1, M_bind at 1, log_err, emit.
  unfold mbind at 1, M_bind at 1, get_outstanding. simpl.
  destruct (outstanding w !! t_msgID tm) as [[d tr]|];
    [|intros [= <- <- <-]; split; [repeat constructor|done]].
  unfold mbind at 1, M_bind at 1, callback. simpl.
  destruct (deferreds w !! d) as [[?|]|];
    try (intros [= <- <- <-]; split; [repeat constructor|done]).
  unfold del_outstanding. simpl.
  destruct (outstanding w !! t_msgID tm);
    intros [= <- <- <-]; split; (repeat constructor || done).
Qed.

(** What a datagram makes the engine send is a response to the ID of that
    datagram, itself a request of at least 22 bytes; a Deferred returned
    by the handler is bound to that ID. *)
Lemma datagramReceived_frame dg a w r w' t :
  datagramReceived self E dg a w = (r, w', t) ->
  (forall p, p ∈ sent_of t -> 22 <= len dg /\ is_response_to (slice 1 21 dg) a p) /\
  (awaiting w' = awaiting w \/
   22 <= len dg /\ awaiting w' = awaiting w ++ [Some (slice 1 21 dg, a)]).
Proof.
  unfold datagramReceived. unfold mbind at 1, M_bind at 1. rewrite when_noisy.
  assert (Hnone : forall t', only_logs t' ->
    forall p, p ∈ sent_of ((if noisy self then [Log false (LogReceivedDatagram a)] else [])
                           ++ t') ->
    22 <= len dg /\ is_response_to (slice 1 21 dg) a p).
  { intros t' Ht' p. rewrite only_logs_sent; [by intros ?%elem_of_nil|].
    apply only_logs_app; [apply only_logs_noisy|done]. }
  case_bool_decide as Hlen.
  { unfold log_msg, emit. intros [= <- <- <-].
    split; [apply Hnone; repeat constructor | by left]. }
  destruct (unpackb _) as [data|].
  2:{ unfold raise. intros [= <- <- <-].
      split; [apply Hnone; constructor | by left]. }
  case_bool_decide as Hreq; [|case_bool_decide as Hresp].
  - destruct (_acceptRequest _ _ _ _ _ _) as [[r1 w1] t1] eqn:Hrun.
    intros [= <- <- <-].
    destruct (_acceptRequest_frame _ _ _ _ _ _ _ _ _ Hrun) as (Hw & _ & Hsent).
    split.
    + intros p. rewrite sent_of_app, only_logs_sent by apply only_logs_noisy.
      simpl. intros Hp. split; [lia|by apply Hsent].
    + destruct Hw as [(_&_&_&Ha&_)| ->]; [by left|right]. split; [lia|done].
  - destruct (_acceptResponse _ _ _ _ _) as [[r1 w1] t1] eqn:Hrun.
    intros [= <- <- <-].
    destruct (_acceptResponse_logs _ _ _ _ _ _ _ _ Hrun) as (Hlogs & Ha).
    split; [by apply Hnone | by left].
  - unfold log_msg, emit. intros [= <- <- <-].
    split; [apply Hnone; repeat constructor | by left].
Qed.

Lemma handler_fired_frame i res w r w' t :
  handler_fired self E i res w = (r, w', t) ->
  (forall p, p ∈ sent_of t ->
     exists X a, awaiting w !! i = Some (Some (X, a)) /\ is_response_to X a p) /\
  (awaiting w' = awaiting w \/ awaiting w' = <[i := None]> (awaiting w)) /\
  outstanding w' = outstanding w /\ deferreds w' = deferreds w /\
  timers w' = timers w /\ raises_object_error r = false.
Proof.
  unfold handler_fired.
  destruct (awaiting w !! i) as [[[X a]|]|] eqn:Hi;
    try (intros [= <- <- <-]; repeat split; eauto; by intros p ?%elem_of_nil).
  unfold mbind at 1, M_bind at 1, modify. destruct res as [response|err].
  - unfold try_except.
    destruct (_sendResponse _ _ _ _ _ _) as [[r1 w1] t1] eqn:Hsend.
    destruct (_sendResponse_frame _ _ _ _ _ _ _ _ _ Hsend) as (Hs & Hr & Hsent).
    destruct Hs as (Ho & Hd & Ht & Ha & _). simpl in Ho, Hd, Ht, Ha.
    destruct r1 as [[]|e]; intros [= <- <- <-]; simpl.
    + split; [|repeat split; eauto].
      intros p Hp. exists X, a. split; [done|by apply Hsent].
    + split; [|repeat split; eauto].
      intros p. rewrite sent_of_app. simpl.
      rewrite app_nil_r. intros Hp. exists X, a. split; [done|by apply Hsent].
  - unfold _onError, log_err, emit. intros [= <- <- <-]. simpl.
    split; [|repeat split; eauto]. by intros p ?%elem_of_nil.
Qed.

(** One event: the frames it sends are well framed, and the IDs kept for
    the Deferreds of handlers stay 20 bytes long. *)
Lemma step_emits ev w :
  (forall n, length (digest E n) = 20%nat) -> awaiting_ids_ok w ->
  (forall p, p ∈ sent_of (step self E ev w).2 -> well_framed p.1) /\
  awaiting_ids_ok (step self E ev w).1.2.
Proof.
  intros Hdig Hok. destruct ev as [dg a|t0|name a args|i res]; simpl.
  - destruct (datagramReceived _ _ _ _ _) as [[r w'] t] eqn:Hrun. simpl.
    destruct (datagramReceived_frame _ _ _ _ _ _ Hrun) as (Hsent & Haw). split.
    + intros p Hp. destruct (Hsent p Hp) as (Hlen & Hresp).
      eapply response_well_framed; [|done]. by apply slice_id_length.
    + intros i X a' Hi. destruct Haw as [Haw|[Hlen Haw]]; rewrite Haw in Hi.
      * by eapply Hok.
      * apply lookup_app_Some in Hi as [Hi|[_ Hi]]; [by eapply Hok|].
        apply list_lookup_singleton_Some in Hi as [_ [= <- <-]].
        by apply slice_id_length.
  - destruct (reactor_fire _ _ _) as [[r w'] t] eqn:Hrun. simpl.
    destruct (reactor_fire_logs _ _ _ _ _ Hrun) as (Hlogs & Haw). split.
    + intros p. rewrite only_logs_sent by done. by intros ?%elem_of_nil.
    + intros i X a' Hi. rewrite Haw in Hi. by eapply Hok.
  - unfold mbind, M_bind.
    destruct (func _ _ _ _ _ _) as [[r w'] t] eqn:Hrun.
    destruct (func_frame _ _ _ _ _ _ _ _ _ Hrun) as (Haw & _ & Hsent & _).
    assert (Hgoal : (forall p, p ∈ sent_of t -> well_framed p.1) /\ awaiting_ids_ok w').
    { split.
      - intros p Hp. destruct (Hsent p Hp) as (data & Hpack & _ & ->). simpl.
        exists REQUEST_BYTE, (digest E (draws w)), data. repeat split; eauto.
      - intros i X a' Hi. rewrite Haw in Hi. by eapply Hok. }
    destruct r as [d|e]; simpl; [|done]. by rewrite app_nil_r.
  - destruct (handler_fired _ _ _ _ _) as [[r w'] t] eqn:Hrun. simpl.
    destruct (handler_fired_frame _ _ _ _ _ _ Hrun) as (Hsent & Haw & _). split.
    + intros p Hp. destruct (Hsent p Hp) as (X & a' & Hi & Hresp).
      eapply response_well_framed; [|done]. by eapply Hok.
    + intros j X a' Hj. destruct Haw as [Haw|Haw]; rewrite Haw in Hj; [by eapply Hok|].
      apply list_lookup_insert_Some in Hj as [(_ & ? & _)|(_ & Hj)]; [done|].
      by eapply Hok.
Qed.

End Emitted.

Lemma pack_nonempty v b : Msgpack.pack v = Some b -> b <> [].
Proof.
  destruct v as [|[]|z|s|l]; simpl; try (intros [= <-]; discriminate).
  - unfold Msgpack.pack_int. repeat case_bool_decide; intros [= <-]; discriminate.
  - unfold Msgpack.pack_str. repeat case_match; try discriminate;
      intros [= <-]; discriminate.
  - unfold Msgpack.array_header. repeat case_match; simpl; try discriminate;
      destruct (_ l); simpl; intros [= <-]; discriminate.
Qed.

(** C10: along any run of the engine from a world whose handler Deferreds
    are bound to 20-byte IDs (the empty world is one), every datagram handed
    to the transport is a known tag byte (0x02 or 0x03), then a 20-byte ID,
    then a payload that is not empty; hence it is at least 22 bytes long and
    passes the size and tag checks of [datagramReceived].  The codec is
    assumed to produce at least one byte for every value, and the digest to
    be 20 bytes long. *)
Theorem emitted_frames_valid `{RT : Runtime} (self : engine) (E : env)
    (evs : list event) (w : world) (p : bytes * address) :
  (forall v b, packb v = Some b -> b <> []) ->
  (forall n, length (digest E n) = 20%nat) ->
  awaiting_ids_ok w ->
  p ∈ sent_of (run_trace self E evs w) ->
  well_framed p.1 /\ 22 <= len p.1 /\ frame_ok p.1 = true /\
  length (slice 1 21 p.1) = 20%nat.
Proof.
  intros Hpack Hdig. revert w.
  induction evs as [|ev evs IH]; intros w Hok Hp; simpl in Hp.
  - by apply elem_of_nil in Hp.
  - destruct (step_emits self E Hpack ev w Hdig Hok) as (Hsent & Hok').
    rewrite sent_of_app in Hp. apply elem_of_app in Hp as [Hp|Hp].
    + pose proof (Hsent p Hp) as Hwf.
      destruct (well_framed_ok _ Hwf) as (Hfr & Hid).
      repeat split; try done.
      unfold frame_ok in Hfr. apply andb_true_iff in Hfr as [Hlen _].
      by apply bool_decide_eq_true_1 in Hlen.
    + by apply (IH _ Hok').
Qed.

Lemma emitted_frames_valid_witness :
  (forall v b, Msgpack.pack v = Some b -> b <> []) /\
  (forall n, length (digest Sample.calm n) = 20%nat) /\
  awaiting_ids_ok Sample.idle /\
  (Sample.echo_response, Sample.caller_addr) ∈
    sent_of (run_trace Sample.echo_server Sample.calm
               [EvCall "echo" Sample.responder_addr [Sample.x_arg];
                EvDatagram Sample.echo_request Sample.caller_addr] Sample.idle) /\
  well_framed Sample.echo_response /\ 22 <= len Sample.echo_response /\
  frame_ok Sample.echo_response = true /\
  length (slice 1 21 Sample.echo_response) = 20%nat.
Proof.
  assert (H1 : forall n, length (digest Sample.calm n) = 20%nat).
  { intros n. apply length_replicate. }
  assert (H2 : awaiting_ids_ok Sample.idle).
  { intros i X a Hi. simpl in Hi. by rewrite lookup_nil in Hi. }
  assert (H3 : (Sample.echo_response, Sample.caller_addr) ∈
    sent_of (run_trace Sample.echo_server Sample.calm
               [EvCall "echo" Sample.responder_addr [Sample.x_arg];
                EvDatagram Sample.echo_request Sample.caller_addr] Sample.idle)).
  { vm_compute. apply list_elem_of_In. right. left. reflexivity. }
  split; [exact pack_nonempty|]. repeat (split; [assumption|]).
  exact (emitted_frames_valid Sample.echo_server Sample.calm _ Sample.idle
           (Sample.echo_response, Sample.caller_addr) pack_nonempty H1 H2 H3).
Defined.

(** ** The table stays consistent *)

Lemma consistent_same w w' :
  outstanding w' = outstanding w -> deferreds w' = deferreds w ->
  timers w' = timers w -> consistent w -> consistent w'.
Proof. unfold consistent. intros -> -> ->. done. Qed.

(** Removing an entry while firing its Deferred and closing its
    DelayedCall keeps the table consistent. *)
Lemma consistent_remove X d t tm r s w w' :
  consistent w -> outstanding w !! X = Some (d, t) -> timers w !! t = Some tm ->
  s <> TPending ->
  outstanding w' = delete X (outstanding w) ->
  deferreds w' = <[d := Some r]> (deferreds w) ->
  timers w' = <[t := with_status s tm]> (timers w) ->
  consistent w'.
Proof.
  intros (I1 & I2 & I3) Hout Htm Hs Ho Hd Ht.
  destruct (I1 _ _ _ Hout) as (HdX & tmX & HtX & HidX & HstX).
  assert (tmX = tm) as -> by congruence.
  unfold consistent. rewrite Ho, Hd, Ht. split; [|split].
  - intros X' d' t' Hlk.
    apply lookup_delete_Some in Hlk as [Hne Hlk].
    destruct (I1 _ _ _ Hlk) as (Hd' & tm' & Ht' & Hid' & Hst').
    assert (d' <> d) by (intros ->; by apply Hne, (I3 X X' d t t')).
    assert (t' <> t) by (intros ->; congruence).
    rewrite list_lookup_insert_ne by done. split; [done|].
    exists tm'. by rewrite list_lookup_insert_ne.
  - intros t' tm' Hlk Hst.
    apply list_lookup_insert_Some in Hlk as [(-> & <- & _)|(Hne & Hlk)].
    { simpl in Hst. congruence. }
    destruct (I2 _ _ Hlk Hst) as (d' & Hlk').
    exists d'. rewrite lookup_delete_ne; [done|].
    intros Heq. rewrite <- Heq in Hlk'. congruence.
  - intros X1 X2 d' t1 t2 H1 H2.
    apply lookup_delete_Some in H1 as [_ H1].
    apply lookup_delete_Some in H2 as [_ H2].
    by eapply I3.
Qed.

(** Adding an entry for an ID that is not outstanding, with a new Deferred
    and a new DelayedCall, keeps the table consistent. *)
Lemma consistent_add X delay w w' :
  consistent w -> outstanding w !! X = None ->
  outstanding w' = <[X := (length (deferreds w), length (timers w))]> (outstanding w) ->
  deferreds w' = deferreds w ++ [None] ->
  timers w' = timers w ++ [{| t_delay := delay; t_msgID := X; t_status := TPending |}] ->
  consistent w'.
Proof.
  intros (I1 & I2 & I3) Hfresh Ho Hd Ht.
  unfold consistent. rewrite Ho, Hd, Ht. split; [|split].
  - intros X' d' t' Hlk.
    apply lookup_insert_Some in Hlk as [(<- & [= <- <-])|(Hne & Hlk)].
    + split; [by rewrite lookup_app_r, Nat.sub_diag|].
      eexists. by rewrite lookup_app_r, Nat.sub_diag.
    + destruct (I1 _ _ _ Hlk) as (Hd' & tm' & Ht' & Hid' & Hst').
      split; [by apply lookup_app_l_Some|].
      exists tm'. split; [by apply lookup_app_l_Some|done].
  - intros t' tm' Hlk Hst.
    apply lookup_app_Some in Hlk as [Hlk|[Hge Hlk]].
    + destruct (I2 _ _ Hlk Hst) as (d' & Hlk').
      exists d'. rewrite lookup_insert_ne; [done|]. intros Heq. congruence.
    + apply list_lookup_singleton_Some in Hlk as [Hz <-]. simpl.
      assert (t' = length (timers w)) as -> by lia.
      eexists. apply lookup_insert_eq.
  - intros X1 X2 d' t1 t2 H1 H2.
    apply lookup_insert_Some in H1 as [(<- & Heq1)|(Hne1 & H1)];
      apply lookup_insert_Some in H2 as [(<- & Heq2)|(Hne2 & H2)]; try done.
    + injection Heq1 as <- <-.
      destruct (I1 _ _ _ H2) as (Hd' & _). apply lookup_lt_Some in Hd'.
      exfalso. lia.
    + injection Heq2 as <- <-.
      destruct (I1 _ _ _ H1) as (Hd' & _). apply lookup_lt_Some in Hd'.
      exfalso. lia.
    + by eapply I3.
Qed.

Lemma fired_kept_refl w : fired_kept w w.
Proof. by intros d r. Qed.

Lemma fired_kept_same w w' : deferreds w' = deferreds w -> fired_kept w w'.
Proof. intros Heq d r. by rewrite Heq. Qed.

Lemma fired_kept_trans w1 w2 w3 : fired_kept w1 w2 -> fired_kept w2 w3 -> fired_kept w1 w3.
Proof. intros H1 H2 d r Hd. by apply H2, H1. Qed.

Lemma fired_kept_fire d r w w' :
  deferreds w !! d = Some None -> deferreds w' = <[d := Some r]> (deferreds w) ->
  fired_kept w w'.
Proof.
  intros Hd Heq d0 r0 Hd0. rewrite Heq.
  rewrite list_lookup_insert_ne; [done|]. intros ->. congruence.
Qed.

Section Safety.
Context `{RT : Runtime}.
Variable self : engine.
Variable E : env.

Lemma _acceptResponse_safe X data a w r w' t :
  consistent w -> _acceptResponse self X data a w = (r, w', t) ->
  consistent w' /\ r = Ret tt /\ fired_kept w w'.
Proof.
  intros Hc. destruct (outstanding w !! X) as [[d tr]|] eqn:Hout.
  - destruct (proj1 Hc _ _ _ Hout) as (Hd & tm & Htm & Hid & Hst).
    rewrite (_acceptResponse_found self X d tr tm) by done.
    intros [= <- <- <-]. split; [|split; [done|]].
    + by eapply (consistent_remove X d tr tm (true, data) TCancelled w).
    + by eapply (fired_kept_fire d (true, data)).
  - rewrite _acceptResponse_unknown by done. intros [= <- <- <-].
    split; [done|]. split; [done|apply fired_kept_refl].
Qed.

Lemma reactor_fire_safe t0 w r w' t :
  consistent w -> reactor_fire self t0 w = (r, w', t) ->
  consistent w' /\ r = Ret tt /\ fired_kept w w'.
Proof.
  intros Hc. destruct (timers w !! t0) as [tm|] eqn:Htm.
  - destruct (decide (t_status tm = TPending)) as [Hst|Hst].
    + destruct (proj1 (proj2 Hc) _ _ Htm Hst) as (d & Hout).
      destruct (proj1 Hc _ _ _ Hout) as (Hd & _).
      rewrite (reactor_fire_pending self t0 tm d) by done.
      intros [= <- <- <-]. split; [|split; [done|]].
      * by eapply (consistent_remove (t_msgID tm) d t0 tm (false, VNil) TCalled w).
      * by eapply (fired_kept_fire d (false, VNil)).
    + rewrite (reactor_fire_skipped self t0 tm) by done. intros [= <- <- <-].
      split; [done|]. split; [done|apply fired_kept_refl].
  - unfold reactor_fire. rewrite Htm. intros [= <- <- <-].
    split; [done|]. split; [done|apply fired_kept_refl].
Qed.

Lemma datagramReceived_safe dg a w r w' t :
  consistent w -> datagramReceived self E dg a w = (r, w', t) ->
  consistent w' /\ raises_object_error r = false /\ fired_kept w w'.
Proof.
  intros Hc. unfold datagramReceived. unfold mbind at 1, M_bind at 1.
  rewrite when_noisy.
  case_bool_decide as Hlen.
  { unfold log_msg, emit. intros [= <- <- <-].
    split; [done|]. split; [done|apply fired_kept_refl]. }
  destruct (unpackb _) as [data|].
  2:{ unfold raise. intros [= <- <- <-].
      split; [done|]. split; [done|apply fired_kept_refl]. }
  case_bool_decide as Hreq; [|case_bool_decide as Hresp].
  - destruct (_acceptRequest _ _ _ _ _ _) as [[r1 w1] t1] eqn:Hrun.
    intros [= <- <- <-].
    destruct (_acceptRequest_frame _ _ _ _ _ _ _ _ _ Hrun) as (Hw & Hr & _).
    split; [|split].
    + destruct Hw as [(Ho & Hd & Ht & _)| ->]; by eapply consistent_same.
    + destruct Hr as [->|[->|[msg ->]]]; done.
    + destruct Hw as [(Ho & Hd & Ht & _)| ->]; by apply fired_kept_same.
  - destruct (_acceptResponse _ _ _ _ _) as [[r1 w1] t1] eqn:Hrun.
    intros [= <- <- <-].
    destruct (_acceptResponse_safe _ _ _ _ _ _ _ Hc Hrun) as (Hc' & -> & Hk). done.
  - unfold log_msg, emit. intros [= <- <- <-].
    split; [done|]. split; [done|apply fired_kept_refl].
Qed.

Lemma func_safe name a args w r w' t :
  consistent w -> outstanding w !! digest E (draws w) = None ->
  func self E name a args w = (r, w', t) ->
  consistent w' /\ raises_object_error r = false /\ fired_kept w w'.
Proof.
  intros Hc Hfresh Hrun.
  destruct (func_frame _ _ _ _ _ _ _ _ _ Hrun) as (_ & _ & _ & Hr).
  destruct r as [d|e].
  - destruct Hr as (-> & Ho & Hd & Ht). split; [|split; [done|]].
    + by eapply consistent_add.
    + intros d0 r0 Hd0. rewrite Hd. by apply lookup_app_l_Some.
  - destruct Hr as (He & Ho & Hd & Ht). split; [|split; [done|]].
    + by eapply consistent_same.
    + by apply fired_kept_same.
Qed.

(** One event from a consistent world, with no collision of IDs: the world
    stays consistent, no reactor object fails, and the Deferreds already
    fired keep their results. *)
Lemma step_safe ev w :
  consistent w ->
  match ev with
  | EvCall _ _ _ => outstanding w !! digest E (draws w) = None
  | _ => True
  end ->
  consistent (step self E ev w).1.2 /\
  raises_object_error (step self E ev w).1.1 = false /\
  fired_kept w (step self E ev w).1.2.
Proof.
  intros Hc Hfresh. destruct ev as [dg a|t0|name a args|i res]; simpl.
  - destruct (datagramReceived _ _ _ _ _) as [[r w'] t] eqn:Hrun.
    by eapply datagramReceived_safe.
  - destruct (reactor_fire _ _ _) as [[r w'] t] eqn:Hrun.
    destruct (reactor_fire_safe _ _ _ _ _ Hc Hrun) as (? & -> & ?). done.
  - unfold mbind, M_bind.
    destruct (func _ _ _ _ _ _) as [[r w'] t] eqn:Hrun.
    destruct (func_safe _ _ _ _ _ _ _ Hc Hfresh Hrun) as (? & ? & ?).
    by destruct r.
  - destruct (handler_fired _ _ _ _ _) as [[r w'] t] eqn:Hrun.
    destruct (handler_fired_frame _ _ _ _ _ _ _ _ Hrun) as (_ & _ & Ho & Hd & Ht & Hr).
    simpl. split; [by eapply consistent_same|]. split; [done|by apply fired_kept_same].
Qed.

(** A run from a consistent world, with no collision of IDs. *)
Lemma run_safe evs : forall w,
  consistent w -> collision_free self E evs w ->
  consistent (run self E evs w) /\ crashes self E evs w = false /\
  fired_kept w (run self E evs w).
Proof.
  induction evs as [|ev evs IH]; intros w Hc Hfree; simpl.
  - split; [done|]. split; [done|apply fired_kept_refl].
  - destruct Hfree as [Hfresh Hfree].
    destruct (step_safe ev w Hc Hfresh) as (Hc' & Hr & Hk).
    destruct (IH _ Hc' Hfree) as (Hc'' & Hcr & Hk').
    split; [done|]. split; [by rewrite Hr, Hcr|by eapply fired_kept_trans].
Qed.

End Safety.

Lemma consistent_fresh now : consistent (fresh_world now).
Proof.
  split; [|split].
  - intros X d t Hlk. simpl in Hlk. by rewrite lookup_empty in Hlk.
  - intros t tm Hlk. simpl in Hlk. by rewrite lookup_nil in Hlk.
  - intros X X' d t t' Hlk. simpl in Hlk. by rewrite lookup_empty in Hlk.
Qed.

(** Every world an engine reaches from its creation, by a run without
    collision of IDs, is consistent, and the run meets no error of a
    reactor object. *)
Lemma reachable_consistent `{RT : Runtime} (self : engine) (E : env) evs now :
  collision_free self E evs (fresh_world now) ->
  consistent (run self E evs (fresh_world now)) /\
  crashes self E evs (fresh_world now) = false.
Proof.
  intros Hfree.
  destruct (run_safe self E evs _ (consistent_fresh now) Hfree) as (? & ? & _). done.
Qed.

(** ** Exactly-once resolution *)

(** C2: take a consistent world and an entry of the table, with ID [X],
    Deferred [d] and DelayedCall [t].  If a response for [X] is matched, [d]
    fires with [(True, data)], the entry leaves the table in the same step,
    and the reactor reaching the due time of [t] afterwards does nothing at
    all: same world, no exception.  If instead [t] fires, [d] fires with
    [(False, None)], the entry leaves the table in the same step, and a
    response for [X] afterwards is dropped as unknown.  In both cases,
    whatever events follow (datagrams, timers, calls whose IDs do not
    collide, handler results), no reactor object fails (no Deferred is fired
    twice, no DelayedCall is cancelled late, no table key is missing) and
    [d] keeps its result. *)
Theorem exactly_once_resolution `{RT : Runtime} (self : engine) (E : env)
    (X : bytes) (d t : nat) (w : world) :
  consistent w -> outstanding w !! X = Some (d, t) ->
  deferreds w !! d = Some None /\
  (forall data a, exists w1 tr,
     _acceptResponse self X data a w = (Ret tt, w1, tr) /\ only_logs tr /\
     deferreds w1 !! d = Some (Some (true, data)) /\
     outstanding w1 !! X = None /\
     reactor_fire self t w1 = (Ret tt, w1, []) /\
     forall evs, collision_free self E evs w1 ->
       crashes self E evs w1 = false /\
       deferreds (run self E evs w1) !! d = Some (Some (true, data))) /\
  (exists w2 tr,
     reactor_fire self t w = (Ret tt, w2, tr) /\ only_logs tr /\
     deferreds w2 !! d = Some (Some (false, VNil)) /\
     outstanding w2 !! X = None /\
     (forall data a, _acceptResponse self X data a w2 =
                     (Ret tt, w2, [Log true (LogUnknownResponse X a)])) /\
     forall evs, collision_free self E evs w2 ->
       crashes self E evs w2 = false /\
       deferreds (run self E evs w2) !! d = Some (Some (false, VNil))).
Proof.
  intros Hc Hout.
  destruct (proj1 Hc _ _ _ Hout) as (Hd & tm & Htm & Hid & Hst).
  assert (Hlt : (d < length (deferreds w))%nat) by by eapply lookup_lt_Some.
  assert (Hlt' : (t < length (timers w))%nat) by by eapply lookup_lt_Some.
  split; [done|]. split.
  - intros data a. exists (matched X d t tm data w). eexists.
    assert (Hrun : _acceptResponse self X data a w =
                   (Ret tt, matched X d t tm data w,
                    if noisy self then [Log false (LogReceivedResponse X a)] else []))
      by by apply _acceptResponse_found.
    assert (Hfired : deferreds (matched X d t tm data w) !! d = Some (Some (true, data)))
      by by apply list_lookup_insert_eq.
    split; [exact Hrun|]. split; [apply only_logs_noisy|].
    split; [exact Hfired|]. split; [apply lookup_delete_eq|]. split.
    + apply (reactor_fire_skipped self t (with_status TCancelled tm)); [|done].
      by apply list_lookup_insert_eq.
    + intros evs Hfree.
      destruct (_acceptResponse_safe self _ _ _ _ _ _ _ Hc Hrun) as (Hc1 & _ & _).
      destruct (run_safe self E evs _ Hc1 Hfree) as (_ & Hcr & Hk).
      split; [done|by apply Hk].
  - exists (timed_out X d t tm w). eexists.
    assert (Hrun : reactor_fire self t w =
                   (Ret tt, timed_out X d t tm w,
                    [Log true (LogNoReply X (waitTimeout self))])).
    { rewrite <- Hid. apply reactor_fire_pending; try done. by rewrite Hid. }
    assert (Hfired : deferreds (timed_out X d t tm w) !! d = Some (Some (false, VNil)))
      by by apply list_lookup_insert_eq.
    assert (Hgone : outstanding (timed_out X d t tm w) !! X = None)
      by apply lookup_delete_eq.
    split; [exact Hrun|]. split; [repeat constructor|].
    split; [exact Hfired|]. split; [exact Hgone|]. split.
    + intros data a. by apply _acceptResponse_unknown.
    + intros evs Hfree.
      destruct (reactor_fire_safe self _ _ _ _ _ Hc Hrun) as (Hc2 & _ & _).
      destruct (run_safe self E evs _ Hc2 Hfree) as (_ & Hcr & Hk).
      split; [done|by apply Hk].
Qed.

Lemma consistent_idle : consistent Sample.idle.
Proof. apply (consistent_fresh 0). Qed.

Lemma consistent_pending : consistent Sample.pending.
Proof.
  unfold Sample.pending.
  destruct (func Sample.plain Sample.calm "echo" Sample.responder_addr
              [Sample.x_arg] Sample.idle) as [[r w'] t] eqn:Hrun.
  by destruct (func_safe Sample.plain Sample.calm _ _ _ _ _ _ _
                 consistent_idle eq_refl Hrun).
Qed.

Lemma exactly_once_resolution_witness :
  consistent Sample.pending /\
  outstanding Sample.pending !! Sample.id_of 0 = Some (0%nat, 0%nat) /\
  deferreds Sample.pending !! 0%nat = Some None /\
  (exists w1 tr,
     _acceptResponse Sample.plain (Sample.id_of 0) Sample.x_arg Sample.responder_addr
       Sample.pending = (Ret tt, w1, tr) /\
     deferreds w1 !! 0%nat = Some (Some (true, Sample.x_arg)) /\
     outstanding w1 !! Sample.id_of 0 = None /\
     reactor_fire Sample.plain 0 w1 = (Ret tt, w1, []) /\
     collision_free Sample.plain Sample.calm Sample.late_events w1 /\
     crashes Sample.plain Sample.calm Sample.late_events w1 = false /\
     deferreds (run Sample.plain Sample.calm Sample.late_events w1) !! 0%nat =
       Some (Some (true, Sample.x_arg))) /\
  (exists w2 tr,
     reactor_fire Sample.plain 0 Sample.pending = (Ret tt, w2, tr) /\
     deferreds w2 !! 0%nat = Some (Some (false, VNil)) /\
     outstanding w2 !! Sample.id_of 0 = None /\
     _acceptResponse Sample.plain (Sample.id_of 0) Sample.x_arg Sample.responder_addr w2 =
       (Ret tt, w2, [Log true (LogUnknownResponse (Sample.id_of 0) Sample.responder_addr)]) /\
     collision_free Sample.plain Sample.calm Sample.late_events w2 /\
     crashes Sample.plain Sample.calm Sample.late_events w2 = false /\
     deferreds (run Sample.plain Sample.calm Sample.late_events w2) !! 0%nat =
       Some (Some (false, VNil))).
Proof.
  assert (H1 : outstanding Sample.pending !! Sample.id_of 0 = Some (0%nat, 0%nat))
    by (vm_compute; reflexivity).
  destruct (exactly_once_resolution Sample.plain Sample.calm (Sample.id_of 0) 0 0
              Sample.pending consistent_pending H1) as (Hd & Hmatch & Hfire).
  split; [exact consistent_pending|]. split; [exact H1|]. split; [exact Hd|]. split.
  - destruct (Hmatch Sample.x_arg Sample.responder_addr)
      as (w1 & tr & Hrun & _ & Hfired & Hgone & Hskip & Hlater).
    assert (Hfree : collision_free Sample.plain Sample.calm Sample.late_events w1).
    { apply (f_equal (fun x => x.1.2)) in Hrun. simpl in Hrun. subst w1.
      vm_compute. repeat split. }
    exists w1, tr. destruct (Hlater _ Hfree) as [Hcr Hkept].
    exact (conj Hrun (conj Hfired (conj Hgone (conj Hskip (conj Hfree (conj Hcr Hkept)))))).
  - destruct Hfire as (w2 & tr & Hrun & _ & Hfired & Hgone & Hdrop & Hlater).
    assert (Hfree : collision_free Sample.plain Sample.calm Sample.late_events w2).
    { apply (f_equal (fun x => x.1.2)) in Hrun. simpl in Hrun. subst w2.
      vm_compute. repeat split. }
    exists w2, tr. destruct (Hlater _ Hfree) as [Hcr Hkept].
    pose proof (Hdrop Sample.x_arg Sample.responder_addr) as Hdrop'.
    exact (conj Hrun (conj Hfired (conj Hgone (conj Hdrop' (conj Hfree (conj Hcr Hkept)))))).
Defined.

(** ** The round trip *)

Lemma frame_parts (tag X payload : bytes) :
  length tag = 1%nat -> length X = 20%nat -> payload <> [] ->
  22 <= len (tag ++ X ++ payload) /\
  slice 0 1 (tag ++ X ++ payload) = tag /\
  slice 1 21 (tag ++ X ++ payload) = X /\
  slice_from 21 (tag ++ X ++ payload) = payload.
Proof.
  intros Htag HX Hpay. unfold len, slice, slice_from. split; [|split; [|split]].
  - rewrite !length_app, Htag, HX. destruct payload; [done|]. simpl. lia.
  - rewrite drop_0. by apply take_app_length'.
  - rewrite drop_app_length' by done. by apply take_app_length'.
  - change 21%nat with (1 + 20)%nat.
    rewrite drop_app_add' by done. by apply drop_app_length'.
Qed.

Section RoundTrip.
Context `{RT : Runtime}.

(** The world an accepted call leaves. *)
Lemma func_ok (self : engine) (E : env) name a args data w :
  packb (VList [VStr name; VList args]) = Some data -> len data <= 8192 ->
  net E (writes w) = WriteOk ->
  func self E name a args w =
  (Ret (length (deferreds w)),
   set_outstanding (<[digest E (draws w) := (length (deferreds w), length (timers w))]>)
     (set_timers (fun h => h ++ [{| t_delay := waitTimeout self;
                                    t_msgID := digest E (draws w);
                                    t_status := TPending |}])
        (set_deferreds (fun h => h ++ [None]) (set_writes S (set_draws S w)))),
   (if noisy self then [Log false (LogCalling name a (digest E (draws w)))] else [])
   ++ [Sent (REQUEST_BYTE ++ digest E (draws w) ++ data) a]).
Proof.
  intros Hpack Hlen Hnet. unfold func.
  unfold mbind at 1, M_bind at 1, fresh_digest. rewrite Hpack.
  rewrite bool_decide_eq_false_2 by lia.
  unfold mbind at 1, M_bind at 1. rewrite when_noisy.
  unfold mbind at 1, M_bind at 1. unfold send_all.
  rewrite send_loop_ok; [|simpl; unfold default_send_timeout; lia|done].
  unfold_M. simpl. done.
Qed.

(** The response an engine sends for a request its handler answers. *)
Lemma request_answered (self : engine) (E : env) frame a funcname args f argl
    response packed w :
  22 <= len frame -> slice 0 1 frame = REQUEST_BYTE ->
  unpackb (slice_from 21 frame) = Some (VList [funcname; args]) ->
  rpc_attrs self !! ("rpc_" +:+ py_str funcname) = Some (Callable f) ->
  py_iter args = Some argl -> f a argl = HReturn response ->
  packb response = Some packed -> net E (writes w) = WriteOk ->
  exists t,
    datagramReceived self E frame a w = (Ret tt, set_writes S w, t) /\
    sent_of t = [(RESPONSE_BYTE ++ slice 1 21 frame ++ packed, a)].
Proof.
  intros Hlen Htag Hdata Hattr Hiter Hf Hpack Hnet.
  rewrite (datagramReceived_request self E frame a _ w Hlen Htag Hdata).
  unfold _acceptRequest. rewrite Hattr, Hiter, Hf.
  unfold try_except, _sendResponse. unfold mbind at 1, M_bind at 1.
  rewrite when_noisy, Hpack. unfold send_all.
  rewrite send_loop_ok; [|unfold default_send_timeout; lia|done].
  eexists. split; [done|].
  rewrite !sent_of_app, !only_logs_sent by apply only_logs_noisy. done.
Qed.

End RoundTrip.

(** C1: a call [echo(addrB, ["x"])] on engine [A] goes through
    [__getattr__]; it returns an unfired Deferred [d] and sends one request
    frame.  Delivered to an engine [B] whose [rpc_echo] returns its
    argument, the request makes [B] send one response frame; delivered to
    [A], the response fires [d] with [(True, ["x"])].  Both frames carry, at
    offset 1, the 20-byte ID drawn by the call.  Assumed: both transports
    accept the write, the codec packs the request within 8192 bytes and
    unpacks what it packed, and [str()] of a string is that string. *)
Theorem echo_round_trip `{RT : Runtime} (A B : engine) (EA EB : env)
    (addrA addrB : address) (wA wB : world)
    (f : address -> list value -> hresult) (req_payload resp_payload : bytes) :
  packb (VList [VStr "echo"; VList [VList [VStr "x"]]]) = Some req_payload ->
  len req_payload <= 8192 -> req_payload <> [] ->
  unpackb req_payload = Some (VList [VStr "echo"; VList [VList [VStr "x"]]]) ->
  packb (VList [VStr "x"]) = Some resp_payload -> resp_payload <> [] ->
  unpackb resp_payload = Some (VList [VStr "x"]) ->
  py_str (VStr "echo") = "echo" ->
  length (digest EA (draws wA)) = 20%nat ->
  rpc_attrs B !! "rpc_echo" = Some (Callable f) ->
  (forall a v, f a [v] = HReturn v) ->
  net EA (writes wA) = WriteOk -> net EB (writes wB) = WriteOk ->
  exists call d wA1 t1 req wB1 t2 resp wA2 t3,
    __getattr__ A EA "echo" = Ret call /\
    call addrB [VList [VStr "x"]] wA = (Ret d, wA1, t1) /\
    sent_of t1 = [(req, addrB)] /\
    deferreds wA1 !! d = Some None /\
    datagramReceived B EB req addrA wB = (Ret tt, wB1, t2) /\
    sent_of t2 = [(resp, addrA)] /\
    datagramReceived A EA resp addrB wA1 = (Ret tt, wA2, t3) /\
    deferreds wA2 !! d = Some (Some (true, VList [VStr "x"])) /\
    slice 0 1 req = REQUEST_BYTE /\ slice 0 1 resp = RESPONSE_BYTE /\
    slice 1 21 req = digest EA (draws wA) /\
    slice 1 21 resp = slice 1 21 req /\
    length (slice 1 21 resp) = 20%nat.
Proof.
  intros Hpq Hlq Hnq Huq Hpr Hnr Hur Hstr HX Hattr Hf HnetA HnetB.
  set (X := digest EA (draws wA)) in *.
  set (arg := VList [VStr "x"]) in *.
  destruct (frame_parts REQUEST_BYTE X req_payload eq_refl HX Hnq)
    as (Hq1 & Hq2 & Hq3 & Hq4).
  destruct (frame_parts RESPONSE_BYTE X resp_payload eq_refl HX Hnr)
    as (Hr1 & Hr2 & Hr3 & Hr4).
  pose proof (func_ok A EA "echo" addrB [arg] req_payload wA Hpq Hlq HnetA) as Hcall.
  fold X in Hcall.
  destruct (request_answered B EB (REQUEST_BYTE ++ X ++ req_payload) addrA
              (VStr "echo") (VList [arg]) f [arg] arg resp_payload wB)
    as (t2 & Hserve & Hsent2); try done.
  { by rewrite Hq4. }
  { by rewrite Hstr. }
  rewrite Hq3 in Hsent2.
  eexists (func A EA "echo"), _, _, _, _, _, t2, _, _, _.
  split; [reflexivity|]. split; [exact Hcall|].
  split.
  { rewrite sent_of_app, only_logs_sent by apply only_logs_noisy. reflexivity. }
  split.
  { simpl. by rewrite lookup_app_r, Nat.sub_diag. }
  split; [exact Hserve|]. split; [exact Hsent2|].
  split.
  { rewrite (datagramReceived_response A EA _ addrB arg) by (done || by rewrite Hr4).
    rewrite Hr3.
    rewrite (_acceptResponse_found A X (length (deferreds wA)) (length (timers wA))
               {| t_delay := waitTimeout A; t_msgID := X; t_status := TPending |}).
    - reflexivity.
    - simpl. apply lookup_insert_eq.
    - simpl. by rewrite lookup_app_r, Nat.sub_diag.
    - simpl. by rewrite lookup_app_r, Nat.sub_diag.
    - done. }
  split.
  { simpl. apply list_lookup_insert_eq. rewrite length_app. simpl. lia. }
  repeat split; try done; congruence.
Qed.

Lemma echo_round_trip_witness :
  Msgpack.pack (VList [VStr "echo"; VList [VList [VStr "x"]]]) =
    Some (Sample.packed (VList [VStr "echo"; VList [Sample.x_arg]])) /\
  len (Sample.packed (VList [VStr "echo"; VList [Sample.x_arg]])) <= 8192 /\
  Sample.packed (VList [VStr "echo"; VList [Sample.x_arg]]) <> [] /\
  Msgpack.unpack (Sample.packed (VList [VStr "echo"; VList [Sample.x_arg]])) =
    Some (VList [VStr "echo"; VList [VList [VStr "x"]]]) /\
  Msgpack.pack (VList [VStr "x"]) = Some (Sample.packed Sample.x_arg) /\
  Sample.packed Sample.x_arg <> [] /\
  Msgpack.unpack (Sample.packed Sample.x_arg) = Some (VList [VStr "x"]) /\
  Msgpack.show false (VStr "echo") = "echo" /\
  length (digest Sample.calm (draws Sample.idle)) = 20%nat /\
  rpc_attrs Sample.echo_server !! "rpc_echo" = Some (Callable Sample.rpc_echo) /\
  (forall a v, Sample.rpc_echo a [v] = HReturn v) /\
  net Sample.calm (writes Sample.idle) = WriteOk /\
  exists call d wA1 t1 req wB1 t2 resp wA2 t3,
    __getattr__ Sample.plain Sample.calm "echo" = Ret call /\
    call Sample.responder_addr [VList [VStr "x"]] Sample.idle = (Ret d, wA1, t1) /\
    sent_of t1 = [(req, Sample.responder_addr)] /\
    deferreds wA1 !! d = Some None /\
    datagramReceived Sample.echo_server Sample.calm req Sample.caller_addr
      Sample.idle = (Ret tt, wB1, t2) /\
    sent_of t2 = [(resp, Sample.caller_addr)] /\
    datagramReceived Sample.plain Sample.calm resp Sample.responder_addr wA1 =
      (Ret tt, wA2, t3) /\
    deferreds wA2 !! d = Some (Some (true, VList [VStr "x"])) /\
    slice 0 1 req = REQUEST_BYTE /\ slice 0 1 resp = RESPONSE_BYTE /\
    slice 1 21 req = digest Sample.calm (draws Sample.idle) /\
    slice 1 21 resp = slice 1 21 req /\
    length (slice 1 21 resp) = 20%nat.
Proof.
  assert (H1 : Msgpack.pack (VList [VStr "echo"; VList [VList [VStr "x"]]]) =
               Some (Sample.packed (VList [VStr "echo"; VList [Sample.x_arg]])))
    by reflexivity.
  assert (H2 : len (Sample.packed (VList [VStr "echo"; VList [Sample.x_arg]])) <= 8192)
    by (vm_compute; discriminate).
  assert (H3 : Sample.packed (VList [VStr "echo"; VList [Sample.x_arg]]) <> [])
    by discriminate.
  assert (H4 : Msgpack.unpack (Sample.packed (VList [VStr "echo"; VList [Sample.x_arg]])) =
               Some (VList [VStr "echo"; VList [VList [VStr "x"]]])) by reflexivity.
  assert (H5 : Msgpack.pack (VList [VStr "x"]) = Some (Sample.packed Sample.x_arg))
    by reflexivity.
  assert (H6 : Sample.packed Sample.x_arg <> []) by discriminate.
  assert (H7 : Msgpack.unpack (Sample.packed Sample.x_arg) = Some (VList [VStr "x"]))
    by reflexivity.
  assert (H8 : Msgpack.show false (VStr "echo") = "echo") by reflexivity.
  assert (H9 : length (digest Sample.calm (draws Sample.idle)) = 20%nat) by reflexivity.
  assert (H10 : rpc_attrs Sample.echo_server !! "rpc_echo" =
                Some (Callable Sample.rpc_echo)) by (vm_compute; reflexivity).
  assert (H11 : forall a v, Sample.rpc_echo a [v] = HReturn v) by reflexivity.
  assert (H12 : net Sample.calm (writes Sample.idle) = WriteOk) by reflexivity.
  repeat (split; [assumption|]).
  exact (echo_round_trip Sample.plain Sample.echo_server Sample.calm Sample.calm
           Sample.caller_addr Sample.responder_addr Sample.idle Sample.idle
           Sample.rpc_echo _ _ H1 H2 H3 H4 H5 H6 H7 H8 H9 H10 H11 H12 H12).
Defined.

(** ** Unknown methods *)

(** C8: a request frame whose payload unpacks to [[name, args]], with [name]
    a string and no callable attribute [rpc_name] on the engine, is logged
    and dropped: [datagramReceived] returns normally, the world is unchanged
    and the trace holds log lines only, the last one for the missing method,
    so that no datagram at all is sent back.  For a caller whose table is
    consistent and holds the ID of that request, nothing therefore arrives:
    its Deferred is unfired, and the firing of its DelayedCall resolves it
    with [(False, None)]. *)
Theorem unknown_method_dropped `{RT : Runtime} (self : engine) (E : env)
    (frame : bytes) (a : address) (name : string) (args : list value) (w : world) :
  (forall s, py_str (VStr s) = s) ->
  22 <= len frame -> slice 0 1 frame = REQUEST_BYTE ->
  unpackb (slice_from 21 frame) = Some (VList [VStr name; VList args]) ->
  (rpc_attrs self !! ("rpc_" +:+ name) = None \/
   rpc_attrs self !! ("rpc_" +:+ name) = Some NotCallable) ->
  (exists t,
     datagramReceived self E frame a w = (Ret tt, w, t) /\
     only_logs t /\ sent_of t = [] /\ last t = Some (Log true (LogNoCallable name))) /\
  (forall (caller : engine) (wc : world) (d tr : nat),
     consistent wc -> outstanding wc !! slice 1 21 frame = Some (d, tr) ->
     deferreds wc !! d = Some None /\
     exists wc' t',
       reactor_fire caller tr wc = (Ret tt, wc', t') /\
       deferreds wc' !! d = Some (Some (false, VNil)) /\
       outstanding wc' !! slice 1 21 frame = None).
Proof.
  intros Hstr Hlen Htag Hdata Hattr. split.
  - rewrite (datagramReceived_request self E frame a _ w Hlen Htag Hdata).
    assert (Hreq : _acceptRequest self E (slice 1 21 frame)
                     (VList [VStr name; VList args]) a w =
                   (Ret tt, w, [Log true (LogNoCallable name)])).
    { unfold _acceptRequest. rewrite Hstr. by destruct Hattr as [-> | ->]. }
    rewrite Hreq. eexists. split; [done|]. split; [|split].
    + apply only_logs_app; [apply only_logs_noisy | repeat constructor].
    + apply only_logs_sent, only_logs_app; [apply only_logs_noisy | repeat constructor].
    + apply last_snoc.
  - intros caller wc d tr Hc Hout.
    destruct (proj1 Hc _ _ _ Hout) as (Hd & tm & Htm & Hid & Hst).
    split; [done|]. eexists _, _. split; [|split].
    + apply (reactor_fire_pending caller tr tm d); try done. by rewrite Hid.
    + simpl. apply list_lookup_insert_eq. by eapply lookup_lt_Some.
    + simpl. rewrite Hid. apply lookup_delete_eq.
Qed.

Lemma unknown_method_dropped_witness :
  (forall s, Msgpack.show false (VStr s) = s) /\
  22 <= len Sample.unknown_request /\
  slice 0 1 Sample.unknown_request = REQUEST_BYTE /\
  Msgpack.unpack (slice_from 21 Sample.unknown_request) =
    Some (VList [VStr "nosuch"; VList [VInt 1]]) /\
  rpc_attrs Sample.echo_server !! ("rpc_" +:+ "nosuch") = None /\
  (exists t,
     datagramReceived Sample.echo_server Sample.calm Sample.unknown_request
       Sample.caller_addr Sample.idle = (Ret tt, Sample.idle, t) /\
     only_logs t /\ sent_of t = [] /\
     last t = Some (Log true (LogNoCallable "nosuch"))) /\
  consistent Sample.pending /\
  outstanding Sample.pending !! slice 1 21 Sample.unknown_request =
    Some (0%nat, 0%nat) /\
  deferreds Sample.pending !! 0%nat = Some None /\
  exists wc' t',
    reactor_fire Sample.plain 0 Sample.pending = (Ret tt, wc', t') /\
    deferreds wc' !! 0%nat = Some (Some (false, VNil)) /\
    outstanding wc' !! slice 1 21 Sample.unknown_request = None.
Proof.
  assert (H0 : forall s, Msgpack.show false (VStr s) = s) by reflexivity.
  assert (H1 : 22 <= len Sample.unknown_request) by (vm_compute; discriminate).
  assert (H2 : slice 0 1 Sample.unknown_request = REQUEST_BYTE) by reflexivity.
  assert (H3 : Msgpack.unpack (slice_from 21 Sample.unknown_request) =
               Some (VList [VStr "nosuch"; VList [VInt 1]])) by reflexivity.
  assert (H4 : rpc_attrs Sample.echo_server !! ("rpc_" +:+ "nosuch") = None)
    by (vm_compute; reflexivity).
  assert (H5 : outstanding Sample.pending !! slice 1 21 Sample.unknown_request =
               Some (0%nat, 0%nat)) by (vm_compute; reflexivity).
  destruct (unknown_method_dropped (RT := Msgpack.runtime) Sample.echo_server Sample.calm Sample.unknown_request
              Sample.caller_addr "nosuch" [VInt 1] Sample.idle H0 H1 H2 H3 (or_introl H4))
    as [Hdrop Hcaller].
  repeat (split; [assumption|]).
  split; [exact consistent_pending|]. split; [exact H5|].
  exact (Hcaller Sample.plain Sample.pending 0%nat 0%nat consistent_pending H5).
Defined.

(** * Further properties *)

(** ** Bounds of the resilient send *)

Lemma send_loop_bounds E data a future w r w' t :
  send_loop E data a future w = (r, w', t) ->
  clock w <= clock w' /\
  (writes w <= writes w')%nat /\
  (writes w' - writes w <= Z.to_nat (future - clock w))%nat.
Proof.
  revert r w' t.
  funelim (send_loop E data a future w); intros r' w'' t' Hres;
    inversion Hres; subst; clear Hres; simpl.
  - lia.
  - lia.
  - lia.
  - match goal with IH : forall _ _ _, _ = _ -> _ |- _ =>
      destruct (IH _ _ _ Heq) as (H1 & H3 & H4) end.
    simpl in H1, H3, H4. unfold turn_time in *. lia.
Qed.

(** X1: whatever the transport answers, [send_all] leaves the table and
    the reactor objects alone, hands the transport the datagram at most
    once, and only to the given address; it raises nothing but the socket
    error of an errno that is not a would-block one, and then nothing was
    sent; when it returns without having sent, the whole window has gone
    by.  It never asks the transport more often than the window has
    milliseconds, and the clock does not go back; with a window that is not
    positive it does nothing at all. *)
Theorem send_all_bounded (E : env) (data : bytes) (a : address) (timeout : Z)
    (w w' : world) (r : outcome unit) (t : list effect) :
  send_all E data a timeout w = (r, w', t) ->
  same_objects w w' /\
  (sent_of t = [(data, a)] \/ sent_of t = []) /\
  (r = Ret tt \/
   exists errno, r = Raise (SocketError errno) /\ would_block errno = false /\
                 sent_of t = []) /\
  (r = Ret tt -> sent_of t = [] -> clock w + timeout <= clock w') /\
  (writes w' - writes w <= Z.to_nat timeout)%nat /\
  clock w <= clock w' /\
  (timeout <= 0 -> w' = w /\ t = [] /\ r = Ret tt).
Proof.
  unfold send_all. intros Hrun.
  destruct (send_loop_frame _ _ _ _ _ _ _ _ Hrun) as (Hs & Hr & Hok & Hbad).
  destruct (send_loop_bounds _ _ _ _ _ _ _ _ Hrun) as (H1 & H3 & H4).
  split; [done|]. split; [|split; [|split; [|split; [|split]]]].
  - destruct Hr as [->|(errno & -> & _)].
    + destruct Hok as [?|[? _]]; auto.
    + right. by apply Hbad.
  - destruct Hr as [->|(errno & -> & Hwb)]; [by left|right].
    exists errno. split; [done|]. split; [done|]. by apply Hbad.
  - intros -> Hnone. destruct Hok as [Hsent|[_ Hclk]]; [done| |done].
    rewrite Hsent in Hnone. discriminate.
  - replace (clock w + timeout - clock w) with timeout in H4 by lia. done.
  - done.
  - intros Hle. rewrite send_loop_elapsed in Hrun by lia.
    by injection Hrun as <- <- <-.
Qed.

Lemma send_all_bounded_witness :
  send_all Sample.busy3 [] Sample.responder_addr 5000 Sample.idle =
    (Ret tt, set_writes S (after_retries Sample.busy3 3 Sample.idle),
     replicate 3 Slept ++ [Sent [] Sample.responder_addr]) /\
  same_objects Sample.idle (set_writes S (after_retries Sample.busy3 3 Sample.idle)) /\
  (writes (set_writes S (after_retries Sample.busy3 3 Sample.idle)) - writes Sample.idle
   <= Z.to_nat 5000)%nat /\
  clock Sample.idle <= clock (set_writes S (after_retries Sample.busy3 3 Sample.idle)).
Proof.
  assert (Hrun : send_all Sample.busy3 [] Sample.responder_addr 5000 Sample.idle =
    (Ret tt, set_writes S (after_retries Sample.busy3 3 Sample.idle),
     replicate 3 Slept ++ [Sent [] Sample.responder_addr])) by (vm_compute; reflexivity).
  destruct (send_all_bounded Sample.busy3 [] Sample.responder_addr 5000 Sample.idle
              _ _ _ Hrun) as (Hs & _ & _ & _ & Hw & Hc & _).
  split; [exact Hrun|]. split; [exact Hs|]. split; [exact Hw|exact Hc].
Defined.

(** ** Failures while a request is served *)

Section Serving.
Context `{RT : Runtime}.
Variable self : engine.
Variable E : env.

(** A request whose handler is found and whose arguments unpack: what
    [datagramReceived] does is decided by the handler's answer. *)
Lemma datagramReceived_handled frame a funcname args f argl w :
  22 <= len frame -> slice 0 1 frame = REQUEST_BYTE ->
  unpackb (slice_from 21 frame) = Some (VList [funcname; args]) ->
  rpc_attrs self !! ("rpc_" +:+ py_str funcname) = Some (Callable f) ->
  py_iter args = Some argl ->
  datagramReceived self E frame a w =
  let '(r, w', t) :=
    match f a argl with
    | HReturn response =>
        try_except (_sendResponse self E response (slice 1 21 frame) a) (_onError) w
    | HRaise err => _onError err w
    | HDeferred =>
        modify (set_awaiting (fun l => l ++ [Some (slice 1 21 frame, a)])) w
    end in
  (r, w', (if noisy self then [Log false (LogReceivedDatagram a)] else []) ++ t).
Proof.
  intros Hlen Htag Hdata Hattr Hiter.
  rewrite (datagramReceived_request self E frame a _ w Hlen Htag Hdata).
  unfold _acceptRequest. rewrite Hattr, Hiter. by destruct (f a argl).
Qed.

End Serving.

(** X2: when the handler of a request raises, the failure is logged and
    nothing else happens: [datagramReceived] returns normally, the world is
    unchanged and no datagram is sent, so that the caller gets no answer. *)
Theorem handler_failure_logged `{RT : Runtime} (self : engine) (E : env)
    (frame : bytes) (a : address) (funcname args : value)
    (f : address -> list value -> hresult) (argl : list value) (err : exn)
    (w : world) :
  22 <= len frame -> slice 0 1 frame = REQUEST_BYTE ->
  unpackb (slice_from 21 frame) = Some (VList [funcname; args]) ->
  rpc_attrs self !! ("rpc_" +:+ py_str funcname) = Some (Callable f) ->
  py_iter args = Some argl -> f a argl = HRaise err ->
  exists t,
    datagramReceived self E frame a w = (Ret tt, w, t) /\
    only_logs t /\ sent_of t = [] /\ last t = Some (Log true (LogFailure err)).
Proof.
  intros Hlen Htag Hdata Hattr Hiter Hf.
  rewrite (datagramReceived_handled self E frame a funcname args f argl) by done.
  rewrite Hf. unfold _onError, log_err, emit. eexists. split; [done|].
  split; [|split].
  - apply only_logs_app; [apply only_logs_noisy | repeat constructor].
  - apply only_logs_sent, only_logs_app; [apply only_logs_noisy | repeat constructor].
  - apply last_snoc.
Qed.

Lemma handler_failure_logged_witness :
  22 <= len Scenario.bare_echo /\
  slice 0 1 Scenario.bare_echo = REQUEST_BYTE /\
  Msgpack.unpack (slice_from 21 Scenario.bare_echo) =
    Some (VList [VStr "echo"; VList []]) /\
  rpc_attrs Scenario.server !! ("rpc_" +:+ Msgpack.show false (VStr "echo")) =
    Some (Callable Sample.rpc_echo) /\
  py_iter (VList []) = Some [] /\
  Sample.rpc_echo Sample.caller_addr [] = HRaise TypeError /\
  exists t,
    datagramReceived Scenario.server Sample.calm Scenario.bare_echo
      Sample.caller_addr Sample.idle = (Ret tt, Sample.idle, t) /\
    only_logs t /\ sent_of t = [] /\
    last t = Some (Log true (LogFailure TypeError)).
Proof.
  assert (H1 : 22 <= len Scenario.bare_echo) by (vm_compute; discriminate).
  assert (H2 : slice 0 1 Scenario.bare_echo = REQUEST_BYTE) by reflexivity.
  assert (H3 : Msgpack.unpack (slice_from 21 Scenario.bare_echo) =
               Some (VList [VStr "echo"; VList []])) by reflexivity.
  assert (H4 : rpc_attrs Scenario.server !! ("rpc_" +:+ Msgpack.show false (VStr "echo")) =
               Some (Callable Sample.rpc_echo)) by (vm_compute; reflexivity).
  assert (H5 : py_iter (VList []) = Some []) by reflexivity.
  assert (H6 : Sample.rpc_echo Sample.caller_addr [] = HRaise TypeError) by reflexivity.
  repeat (split; [assumption|]).
  exact (handler_failure_logged (RT := Msgpack.runtime) Scenario.server Sample.calm
           Scenario.bare_echo Sample.caller_addr (VStr "echo") (VList [])
           Sample.rpc_echo [] TypeError Sample.idle H1 H2 H3 H4 H5 H6).
Defined.

(** X3: when the handler returns a result that cannot be sent, because the
    codec cannot pack it or because the transport answers, after [i]
    would-block errors and with the window still open, with another error,
    the exception
    does not leave [datagramReceived]: it is logged by the errback, the
    receive path returns normally, no datagram is sent and the table and the
    reactor objects are as before. *)
Theorem response_failure_absorbed `{RT : Runtime} (self : engine) (E : env)
    (frame : bytes) (a : address) (funcname args : value)
    (f : address -> list value -> hresult) (argl : list value) (response : value)
    (w : world) :
  22 <= len frame -> slice 0 1 frame = REQUEST_BYTE ->
  unpackb (slice_from 21 frame) = Some (VList [funcname; args]) ->
  rpc_attrs self !! ("rpc_" +:+ py_str funcname) = Some (Callable f) ->
  py_iter args = Some argl -> f a argl = HReturn response ->
  (packb response = None ->
   exists t,
     datagramReceived self E frame a w = (Ret tt, w, t) /\
     only_logs t /\ last t = Some (Log true (LogFailure PackException))) /\
  (forall packed i errno,
     packb response = Some packed ->
     window_open E default_send_timeout i w -> blocked E i w ->
     net E (writes w + i) = WriteErr errno -> would_block errno = false ->
     exists w' t,
       datagramReceived self E frame a w = (Ret tt, w', t) /\
       same_objects w w' /\ sent_of t = [] /\
       last t = Some (Log true (LogFailure (SocketError errno)))).
Proof.
  intros Hlen Htag Hdata Hattr Hiter Hf.
  rewrite (datagramReceived_handled self E frame a funcname args f argl) by done.
  rewrite Hf. unfold try_except. split.
  - intros Hpack.
    assert (Hsend : _sendResponse self E response (slice 1 21 frame) a w =
      (Raise PackException, w,
       (if noisy self then [Log false (LogSendingResponse (slice 1 21 frame) a)] else [])
       ++ [])).
    { unfold _sendResponse. unfold mbind at 1, M_bind at 1.
      rewrite when_noisy. by rewrite Hpack. }
    rewrite Hsend. unfold _onError, log_err, emit.
    eexists. split; [done|]. split.
    + repeat apply only_logs_app; try apply only_logs_noisy; repeat constructor.
    + rewrite app_nil_r, app_assoc. apply last_snoc.
  - intros packed i errno Hpack Hi Hblk Hnet Hwb.
    assert (Hsend : _sendResponse self E response (slice 1 21 frame) a w =
      (Raise (SocketError errno), set_writes S (after_retries E i w),
       (if noisy self then [Log false (LogSendingResponse (slice 1 21 frame) a)] else [])
       ++ replicate i Slept ++ [])).
    { unfold _sendResponse. unfold mbind at 1, M_bind at 1.
      rewrite when_noisy. rewrite Hpack.
      rewrite (send_all_retries _ _ _ _ i); [|by apply window_open_turns|done].
      rewrite (send_loop_fatal _ _ _ _ _ errno);
        [done|exact Hi|by rewrite after_retries_writes|done]. }
    rewrite Hsend. unfold _onError, log_err, emit. eexists _, _. split; [done|].
    split.
    { destruct (after_retries_same E i w) as (?&?&?&?&?). by repeat split. }
    split.
    + rewrite !sent_of_app, !only_logs_sent by apply only_logs_noisy.
      simpl. rewrite !app_nil_r. apply sent_of_sleeps.
    + rewrite app_assoc. apply last_snoc.
Qed.

Lemma response_failure_absorbed_witness :
  (Msgpack.pack (VInt (2 ^ 70)) = None /\
   exists t,
     datagramReceived Scenario.server Sample.calm Scenario.huge_request
       Sample.caller_addr Sample.idle = (Ret tt, Sample.idle, t) /\
     only_logs t /\ last t = Some (Log true (LogFailure PackException))) /\
  (Msgpack.pack Sample.x_arg = Some (Sample.packed Sample.x_arg) /\
   window_open Scenario.dead default_send_timeout 0 Sample.idle /\
   blocked Scenario.dead 0 Sample.idle /\
   net Scenario.dead (writes Sample.idle + 0) = WriteErr 32 /\
   would_block 32 = false /\
   exists w' t,
     datagramReceived Scenario.server Scenario.dead Sample.echo_request
       Sample.caller_addr Sample.idle = (Ret tt, w', t) /\
     same_objects Sample.idle w' /\ sent_of t = [] /\
     last t = Some (Log true (LogFailure (SocketError 32)))).
Proof.
  assert (Hb : blocked Scenario.dead 0 Sample.idle) by (intros j Hj; lia).
  assert (Ho : window_open Scenario.dead default_send_timeout 0 Sample.idle)
    by (vm_compute; reflexivity).
  split.
  - split; [reflexivity|].
    refine (proj1 (response_failure_absorbed (RT := Msgpack.runtime) Scenario.server
                     Sample.calm Scenario.huge_request Sample.caller_addr (VStr "huge")
                     (VList []) Scenario.rpc_huge [] (VInt (2 ^ 70)) Sample.idle
                     _ _ _ _ _ _) _);
      try reflexivity; vm_compute; (reflexivity || discriminate).
  - split; [reflexivity|]. split; [exact Ho|]. split; [exact Hb|].
    split; [reflexivity|]. split; [reflexivity|].
    refine (proj2 (response_failure_absorbed (RT := Msgpack.runtime) Scenario.server
                     Scenario.dead Sample.echo_request Sample.caller_addr (VStr "echo")
                     (VList [Sample.x_arg]) Sample.rpc_echo [Sample.x_arg] Sample.x_arg
                     Sample.idle _ _ _ _ _ _)
                  (Sample.packed Sample.x_arg) 0%nat 32 _ Ho Hb _ _);
      try reflexivity; vm_compute; (reflexivity || discriminate).
Defined.

(** ** What the receive path can raise *)

(** X4: on a consistent world [datagramReceived] returns normally or raises
    one of three exceptions: the decoding exception of the codec,
    [MalformedMessage], or the [TypeError] of arguments that cannot be
    unpacked into a call.  It never lets a socket error, a packing error or
    an error of a reactor object escape; and whenever it raises, the world
    is unchanged and nothing has been sent. *)
Theorem receive_raises_only `{RT : Runtime} (self : engine) (E : env)
    (datagram : bytes) (a : address) (w w' : world) (r : outcome unit)
    (t : list effect) :
  consistent w ->
  datagramReceived self E datagram a w = (r, w', t) ->
  r = Ret tt \/
  ((r = Raise UnpackException \/ r = Raise TypeError \/
    exists msg, r = Raise (MalformedMessage msg)) /\
   w' = w /\ sent_of t = []).
Proof.
  intros Hc. unfold datagramReceived. unfold mbind at 1, M_bind at 1.
  rewrite when_noisy.
  assert (Hq : sent_of ((if noisy self then [Log false (LogReceivedDatagram a)] else [])
                        ++ []) = []).
  { rewrite app_nil_r. apply only_logs_sent, only_logs_noisy. }
  case_bool_decide as Hlen.
  { unfold log_msg, emit. intros [= <- <- <-]. by left. }
  destruct (unpackb _) as [data|].
  2:{ unfold raise. intros [= <- <- <-]. right. eauto. }
  case_bool_decide as Hreq; [|case_bool_decide as Hresp].
  - unfold _acceptRequest.
    destruct data as [| | | |l];
      try (unfold raise; intros [= <- <- <-]; right; by eauto 6).
    destruct l as [|funcname [|args [|? ?]]];
      try (unfold raise; intros [= <- <- <-]; right; by eauto 6).
    destruct (rpc_attrs self !! _) as [[f|]|];
      try (unfold log_err, emit; intros [= <- <- <-]; by left).
    destruct (py_iter args) as [argl|];
      [|unfold raise; intros [= <- <- <-]; right; by eauto 6].
    destruct (f a argl) as [response|err|].
    + unfold try_except.
      destruct (_sendResponse _ _ _ _ _ _) as [[[[]|e] w1] t1];
        unfold _onError, log_err, emit; intros [= <- <- <-]; by left.
    + unfold _onError, log_err, emit. intros [= <- <- <-]. by left.
    + unfold modify. intros [= <- <- <-]. by left.
  - destruct (_acceptResponse _ _ _ _ _) as [[r1 w1] t1] eqn:Hrun.
    intros [= <- <- <-].
    destruct (_acceptResponse_safe self _ _ _ _ _ _ _ Hc Hrun) as (_ & -> & _). by left.
  - unfold log_msg, emit. intros [= <- <- <-]. by left.
Qed.

Lemma receive_raises_only_witness :
  consistent Sample.pending /\
  datagramReceived Sample.echo_server Sample.calm Sample.short_request
    Sample.caller_addr Sample.pending =
    (Raise (MalformedMessage "Could not read packet: ['x']"), Sample.pending, []) /\
  ((Raise (MalformedMessage "Could not read packet: ['x']") : outcome unit) = Ret tt \/
   (((Raise (MalformedMessage "Could not read packet: ['x']") : outcome unit) =
       Raise UnpackException \/
     (Raise (MalformedMessage "Could not read packet: ['x']") : outcome unit) =
       Raise TypeError \/
     exists msg, (Raise (MalformedMessage "Could not read packet: ['x']") : outcome unit) =
                 Raise (MalformedMessage msg)) /\
    Sample.pending = Sample.pending /\ sent_of [] = [])).
Proof.
  assert (Hrun : datagramReceived Sample.echo_server Sample.calm Sample.short_request
                   Sample.caller_addr Sample.pending =
                 (Raise (MalformedMessage "Could not read packet: ['x']"),
                  Sample.pending, [])) by (vm_compute; reflexivity).
  split; [exact consistent_pending|]. split; [exact Hrun|].
  exact (receive_raises_only (RT := Msgpack.runtime) Sample.echo_server Sample.calm
           Sample.short_request Sample.caller_addr Sample.pending Sample.pending _ _
           consistent_pending Hrun).
Defined.

(** X5: a request [[name, args]] for a registered handler, whose [args] is
    [None], a boolean or a number, cannot be unpacked into the call: the
    [TypeError] is raised out of [datagramReceived] itself, not into the
    handler's Deferred, so that it is not logged by the errback; the world
    is unchanged and nothing is sent. *)
Theorem scalar_arguments_raise `{RT : Runtime} (self : engine) (E : env)
    (frame : bytes) (a : address) (funcname args : value)
    (f : address -> list value -> hresult) (w : world) :
  22 <= len frame -> slice 0 1 frame = REQUEST_BYTE ->
  unpackb (slice_from 21 frame) = Some (VList [funcname; args]) ->
  rpc_attrs self !! ("rpc_" +:+ py_str funcname) = Some (Callable f) ->
  (args = VNil \/ (exists b, args = VBool b) \/ exists z, args = VInt z) ->
  datagramReceived self E frame a w =
  (Raise TypeError, w,
   (if noisy self then [Log false (LogReceivedDatagram a)] else []) ++ []) /\
  sent_of ((if noisy self then [Log false (LogReceivedDatagram a)] else []) ++ []) = [].
Proof.
  intros Hlen Htag Hdata Hattr Hargs. split.
  - rewrite (datagramReceived_request self E frame a _ w Hlen Htag Hdata).
    unfold _acceptRequest. rewrite Hattr.
    by destruct Hargs as [->|[[b ->]|[z ->]]].
  - rewrite app_nil_r. apply only_logs_sent, only_logs_noisy.
Qed.

Lemma scalar_arguments_raise_witness :
  22 <= len Scenario.number_echo /\
  slice 0 1 Scenario.number_echo = REQUEST_BYTE /\
  Msgpack.unpack (slice_from 21 Scenario.number_echo) =
    Some (VList [VStr "echo"; VInt 5]) /\
  rpc_attrs Scenario.server !! ("rpc_" +:+ Msgpack.show false (VStr "echo")) =
    Some (Callable Sample.rpc_echo) /\
  datagramReceived Scenario.server Sample.calm Scenario.number_echo
    Sample.caller_addr Sample.idle = (Raise TypeError, Sample.idle, [] ++ []) /\
  sent_of ([] ++ []) = [].
Proof.
  assert (H1 : 22 <= len Scenario.number_echo) by (vm_compute; discriminate).
  assert (H2 : slice 0 1 Scenario.number_echo = REQUEST_BYTE) by reflexivity.
  assert (H3 : Msgpack.unpack (slice_from 21 Scenario.number_echo) =
               Some (VList [VStr "echo"; VInt 5])) by reflexivity.
  assert (H4 : rpc_attrs Scenario.server !! ("rpc_" +:+ Msgpack.show false (VStr "echo")) =
               Some (Callable Sample.rpc_echo)) by (vm_compute; reflexivity).
  repeat (split; [assumption|]).
  exact (scalar_arguments_raise (RT := Msgpack.runtime) Scenario.server Sample.calm
           Scenario.number_echo Sample.caller_addr (VStr "echo") (VInt 5)
           Sample.rpc_echo Sample.idle H1 H2 H3 H4
           (or_intror (or_intror (ex_intro _ 5 eq_refl)))).
Defined.

(** ** Calls whose request does not leave *)

Lemma sent_of_noisy (b : bool) (l : log_line) :
  sent_of (if b then [Log false l] else []) = [].
Proof. by destruct b. Qed.

(** X6: when the transport answers the request of a call, after [i]
    would-block errors and with the window still open, with another error,
    the call
    raises that socket error to its caller; nothing was sent, and no table
    entry, Deferred or DelayedCall was made. *)
Theorem call_transport_failure `{RT : Runtime} (self : engine) (E : env)
    (name : string) (a : address) (args : list value) (data : bytes)
    (i : nat) (errno : Z) (w : world) :
  packb (VList [VStr name; VList args]) = Some data -> len data <= 8192 ->
  window_open E default_send_timeout i w -> blocked E i w ->
  net E (writes w + i) = WriteErr errno -> would_block errno = false ->
  exists w' t,
    func self E name a args w = (Raise (SocketError errno), w', t) /\
    sent_of t = [] /\ outstanding w' = outstanding w /\
    deferreds w' = deferreds w /\ timers w' = timers w.
Proof.
  intros Hpack Hlen Hi Hblk Hnet Hwb.
  assert (Hsend : send_all E (REQUEST_BYTE ++ digest E (draws w) ++ data) a
                    default_send_timeout (set_draws S w) =
                  (Raise (SocketError errno),
                   set_writes S (after_retries E i (set_draws S w)),
                   replicate i Slept ++ [])).
  { apply (window_open_draws E _ S) in Hi.
    rewrite (send_all_retries _ _ _ _ i); [|by apply window_open_turns|done].
    rewrite (send_loop_fatal _ _ _ _ _ errno);
      [done|exact Hi|by rewrite after_retries_writes|done]. }
  unfold func. unfold mbind at 1, M_bind at 1, fresh_digest. rewrite Hpack.
  rewrite bool_decide_eq_false_2 by lia.
  unfold mbind at 1, M_bind at 1. rewrite when_noisy.
  unfold mbind at 1, M_bind at 1. rewrite Hsend.
  eexists _, _. split; [done|]. split.
  { by rewrite !sent_of_app, sent_of_noisy, sent_of_sleeps. }
  destruct (after_retries_same E i (set_draws S w)) as (H1 & H2 & H3 & _).
  simpl. by rewrite H1, H2, H3.
Qed.

Lemma call_transport_failure_witness :
  Msgpack.pack (VList [VStr "echo"; VList [Sample.x_arg]]) =
    Some (Sample.packed (VList [VStr "echo"; VList [Sample.x_arg]])) /\
  len (Sample.packed (VList [VStr "echo"; VList [Sample.x_arg]])) <= 8192 /\
  window_open Sample.broken3 default_send_timeout 3 Sample.idle /\
  blocked Sample.broken3 3 Sample.idle /\
  net Sample.broken3 (writes Sample.idle + 3) = WriteErr 32 /\
  would_block 32 = false /\
  exists w' t,
    func Sample.plain Sample.broken3 "echo" Sample.responder_addr [Sample.x_arg]
      Sample.idle = (Raise (SocketError 32), w', t) /\
    sent_of t = [] /\ outstanding w' = outstanding Sample.idle /\
    deferreds w' = deferreds Sample.idle /\ timers w' = timers Sample.idle.
Proof.
  assert (H1 : Msgpack.pack (VList [VStr "echo"; VList [Sample.x_arg]]) =
               Some (Sample.packed (VList [VStr "echo"; VList [Sample.x_arg]])))
    by reflexivity.
  assert (H2 : len (Sample.packed (VList [VStr "echo"; VList [Sample.x_arg]])) <= 8192)
    by (vm_compute; discriminate).
  assert (H3 : window_open Sample.broken3 default_send_timeout 3 Sample.idle)
    by (vm_compute; reflexivity).
  assert (H4 : blocked Sample.broken3 3 Sample.idle).
  { intros j Hj. exists 11. split; [|done]. simpl.
    by destruct (Nat.ltb_spec j 3); [|lia]. }
  assert (H5 : net Sample.broken3 (writes Sample.idle + 3) = WriteErr 32) by reflexivity.
  assert (H6 : would_block 32 = false) by reflexivity.
  repeat (split; [assumption|]).
  exact (call_transport_failure (RT := Msgpack.runtime) Sample.plain Sample.broken3
           "echo" Sample.responder_addr [Sample.x_arg] _ 3 32 Sample.idle
           H1 H2 H3 H4 H5 H6).
Defined.



(** ** Responses and timeouts among several pending calls *)

(** X8: a response frame whose ID is not in the table, because the call
    was never made by this engine or is already resolved, resolves nothing
    whatever the world is: the world is unchanged and the trace holds log
    lines only.  When its payload unpacks, the frame is logged as unknown
    and [datagramReceived] returns normally; when it does not, the decoding
    exception leaves [datagramReceived]. *)
Theorem unmatched_response_dropped `{RT : Runtime} (self : engine) (E : env)
    (frame : bytes) (a : address) (w : world) :
  22 <= len frame -> slice 0 1 frame = RESPONSE_BYTE ->
  outstanding w !! slice 1 21 frame = None ->
  (exists r t, datagramReceived self E frame a w = (r, w, t) /\ only_logs t) /\
  (forall data, unpackb (slice_from 21 frame) = Some data ->
     datagramReceived self E frame a w =
     (Ret tt, w,
      (if noisy self then [Log false (LogReceivedDatagram a)] else [])
      ++ [Log true (LogUnknownResponse (slice 1 21 frame) a)])) /\
  (unpackb (slice_from 21 frame) = None ->
     datagramReceived self E frame a w =
     (Raise UnpackException, w,
      (if noisy self then [Log false (LogReceivedDatagram a)] else []) ++ [])).
Proof.
  intros Hlen Htag Hout.
  assert (Hsome : forall data, unpackb (slice_from 21 frame) = Some data ->
     datagramReceived self E frame a w =
     (Ret tt, w,
      (if noisy self then [Log false (LogReceivedDatagram a)] else [])
      ++ [Log true (LogUnknownResponse (slice 1 21 frame) a)])).
  { intros data Hdata.
    rewrite (datagramReceived_response self E frame a data) by done.
    by rewrite _acceptResponse_unknown. }
  split; [|split; [exact Hsome|by apply datagramReceived_undecodable]].
  destruct (unpackb (slice_from 21 frame)) as [data|] eqn:Hdata.
  - eexists _, _. split; [exact (Hsome data eq_refl)|].
    apply only_logs_app; [apply only_logs_noisy|repeat constructor].
  - eexists _, _. split; [by apply datagramReceived_undecodable|].
    apply only_logs_app; [apply only_logs_noisy|constructor].
Qed.

Lemma unmatched_response_dropped_witness :
  (22 <= len Sample.echo_response /\
   slice 0 1 Sample.echo_response = RESPONSE_BYTE /\
   Msgpack.unpack (slice_from 21 Sample.echo_response) = Some Sample.x_arg /\
   outstanding Sample.idle !! slice 1 21 Sample.echo_response = None /\
   datagramReceived Sample.plain Sample.calm Sample.echo_response
     Sample.responder_addr Sample.idle =
   (Ret tt, Sample.idle,
    (if noisy Sample.plain then [Log false (LogReceivedDatagram Sample.responder_addr)]
     else [])
    ++ [Log true (LogUnknownResponse (slice 1 21 Sample.echo_response)
                    Sample.responder_addr)])) /\
  (22 <= len Sample.garbage_response /\
   slice 0 1 Sample.garbage_response = RESPONSE_BYTE /\
   Msgpack.unpack (slice_from 21 Sample.garbage_response) = None /\
   outstanding Sample.idle !! slice 1 21 Sample.garbage_response = None /\
   datagramReceived Sample.plain Sample.calm Sample.garbage_response
     Sample.responder_addr Sample.idle =
   (Raise UnpackException, Sample.idle,
    (if noisy Sample.plain then [Log false (LogReceivedDatagram Sample.responder_addr)]
     else []) ++ [])).
Proof.
  assert (H1 : 22 <= len Sample.echo_response) by (vm_compute; discriminate).
  assert (H2 : slice 0 1 Sample.echo_response = RESPONSE_BYTE) by reflexivity.
  assert (H3 : Msgpack.unpack (slice_from 21 Sample.echo_response) = Some Sample.x_arg)
    by reflexivity.
  assert (H4 : outstanding Sample.idle !! slice 1 21 Sample.echo_response = None)
    by (vm_compute; reflexivity).
  assert (G1 : 22 <= len Sample.garbage_response) by (vm_compute; discriminate).
  assert (G2 : slice 0 1 Sample.garbage_response = RESPONSE_BYTE) by reflexivity.
  assert (G3 : Msgpack.unpack (slice_from 21 Sample.garbage_response) = None)
    by reflexivity.
  assert (G4 : outstanding Sample.idle !! slice 1 21 Sample.garbage_response = None)
    by (vm_compute; reflexivity).
  split; repeat (split; [assumption|]).
  - exact (proj1 (proj2 (unmatched_response_dropped (RT := Msgpack.runtime) Sample.plain
                           Sample.calm Sample.echo_response Sample.responder_addr
                           Sample.idle H1 H2 H4)) Sample.x_arg H3).
  - exact (proj2 (proj2 (unmatched_response_dropped (RT := Msgpack.runtime) Sample.plain
                           Sample.calm Sample.garbage_response Sample.responder_addr
                           Sample.idle G1 G2 G4)) G3).
Defined.

(** X9: resolving one pending call leaves every other one pending.  In a
    consistent world with entries for two different IDs [X] and [X'],
    neither the matching of a response for [X] nor the firing of the
    DelayedCall of [X] touches the entry of [X']: it stays in the table,
    its Deferred is still unfired and its DelayedCall still pending. *)
Theorem resolution_is_local (self : engine) (X X' : bytes) (d t d' t' : nat)
    (w : world) :
  consistent w -> X <> X' ->
  outstanding w !! X = Some (d, t) -> outstanding w !! X' = Some (d', t') ->
  forall w1,
    ((exists data a, w1 = (_acceptResponse self X data a w).1.2) \/
     w1 = (reactor_fire self t w).1.2) ->
    outstanding w1 !! X = None /\
    outstanding w1 !! X' = Some (d', t') /\
    deferreds w1 !! d' = Some None /\
    exists tm', timers w1 !! t' = Some tm' /\ t_status tm' = TPending /\
                t_msgID tm' = X'.
Proof.
  intros Hc Hne Hout Hout' w1 Hw1.
  destruct (proj1 Hc _ _ _ Hout) as (Hd & tm & Htm & Hid & Hst).
  assert (Hgoal : consistent w1 /\ outstanding w1 = delete X (outstanding w)).
  { destruct Hw1 as [(data & a & ->)| ->].
    - destruct (_acceptResponse self X data a w) as [[r w2] tr] eqn:Hrun.
      destruct (_acceptResponse_safe self _ _ _ _ _ _ _ Hc Hrun) as (Hc2 & _ & _).
      rewrite (_acceptResponse_found self X d t tm) in Hrun by done.
      injection Hrun as <- <- <-. simpl. split; [done|]. reflexivity.
    - destruct (reactor_fire self t w) as [[r w2] tr] eqn:Hrun.
      destruct (reactor_fire_safe self _ _ _ _ _ Hc Hrun) as (Hc2 & _ & _).
      rewrite (reactor_fire_pending self t tm d) in Hrun by (try rewrite Hid; done).
      injection Hrun as <- <- <-. simpl. split; [done|]. simpl. by rewrite Hid. }
  destruct Hgoal as (Hc1 & Ho1).
  assert (Hout1 : outstanding w1 !! X' = Some (d', t')).
  { rewrite Ho1. by rewrite lookup_delete_ne. }
  split; [rewrite Ho1; apply lookup_delete_eq|]. split; [done|].
  destruct (proj1 Hc1 _ _ _ Hout1) as (Hd' & tm' & Htm' & Hid' & Hst').
  split; [done|]. by exists tm'.
Qed.

Lemma resolution_is_local_witness :
  consistent Scenario.two_pending /\ Sample.id_of 0 <> Sample.id_of 1 /\
  outstanding Scenario.two_pending !! Sample.id_of 0 = Some (0%nat, 0%nat) /\
  outstanding Scenario.two_pending !! Sample.id_of 1 = Some (1%nat, 1%nat) /\
  outstanding (reactor_fire Sample.plain 0 Scenario.two_pending).1.2
    !! Sample.id_of 0 = None /\
  outstanding (reactor_fire Sample.plain 0 Scenario.two_pending).1.2
    !! Sample.id_of 1 = Some (1%nat, 1%nat) /\
  deferreds (reactor_fire Sample.plain 0 Scenario.two_pending).1.2 !! 1%nat =
    Some None /\
  exists tm', timers (reactor_fire Sample.plain 0 Scenario.two_pending).1.2 !! 1%nat =
                Some tm' /\
              t_status tm' = TPending /\ t_msgID tm' = Sample.id_of 1.
Proof.
  assert (H0 : consistent Scenario.two_pending).
  { unfold Scenario.two_pending.
    destruct (func Sample.plain Sample.calm "echo" Sample.responder_addr
                [Sample.x_arg] Sample.pending) as [[r w'] t] eqn:Hrun.
    refine (proj1 (func_safe Sample.plain Sample.calm _ _ _ _ _ _ _
                     consistent_pending _ Hrun)).
    vm_compute. reflexivity. }
  assert (H1 : Sample.id_of 0 <> Sample.id_of 1) by discriminate.
  assert (H2 : outstanding Scenario.two_pending !! Sample.id_of 0 = Some (0%nat, 0%nat))
    by (vm_compute; reflexivity).
  assert (H3 : outstanding Scenario.two_pending !! Sample.id_of 1 = Some (1%nat, 1%nat))
    by (vm_compute; reflexivity).
  repeat (split; [assumption|]).
  exact (resolution_is_local Sample.plain (Sample.id_of 0)
           (Sample.id_of 1) 0 0 1 1 Scenario.two_pending H0 H1 H2 H3 _
           (or_intror eq_refl)).
Defined.

(** ** Two calls with one ID *)

(** X10: the table is keyed by the ID alone.  When a second call draws the
    ID of a call that is still pending, its entry replaces the first one.
    The DelayedCall of the first call then fires the Deferred of the second
    call with [(False, None)] and removes the entry; the DelayedCall of the
    second call, firing next, fails on the table lookup with [KeyError]; and
    the Deferred of the first call is never fired: it is unfired in the end
    and both DelayedCalls are spent. *)
Theorem id_collision_corrupts `{RT : Runtime} (self : engine) (E : env)
    (name1 name2 : string) (a1 a2 : address) (args1 args2 : list value)
    (data1 data2 : bytes) (w : world) :
  packb (VList [VStr name1; VList args1]) = Some data1 -> len data1 <= 8192 ->
  packb (VList [VStr name2; VList args2]) = Some data2 -> len data2 <= 8192 ->
  net E (writes w) = WriteOk -> net E (S (writes w)) = WriteOk ->
  digest E (S (draws w)) = digest E (draws w) ->
  exists w1 tr1 w2 tr2 w3 tr3 w4 tr4,
    func self E name1 a1 args1 w = (Ret (length (deferreds w)), w1, tr1) /\
    func self E name2 a2 args2 w1 = (Ret (S (length (deferreds w))), w2, tr2) /\
    outstanding w2 !! digest E (draws w) =
      Some (S (length (deferreds w)), S (length (timers w))) /\
    reactor_fire self (length (timers w)) w2 = (Ret tt, w3, tr3) /\
    deferreds w3 !! S (length (deferreds w)) = Some (Some (false, VNil)) /\
    outstanding w3 !! digest E (draws w) = None /\
    reactor_fire self (S (length (timers w))) w3 =
      (Raise (KeyError (digest E (draws w))), w4, tr4) /\
    deferreds w4 !! length (deferreds w) = Some None /\
    (forall t tm, timers w4 !! t = Some tm -> t_status tm = TPending ->
                  (t < length (timers w))%nat).
Proof.
  intros Hp1 Hl1 Hp2 Hl2 Hn1 Hn2 Hdig.
  pose proof (func_ok self E name1 a1 args1 data1 w Hp1 Hl1 Hn1) as Hc1.
  set (X := digest E (draws w)) in *.
  set (tmX := {| t_delay := waitTimeout self; t_msgID := X; t_status := TPending |}) in *.
  match type of Hc1 with _ = (_, ?x, _) => set (w1 := x) in * end.
  assert (Hc2 := func_ok self E name2 a2 args2 data2 w1 Hp2 Hl2 Hn2).
  assert (HX1 : digest E (draws w1) = X) by exact Hdig.
  rewrite HX1 in Hc2. fold tmX in Hc2.
  match type of Hc2 with _ = (_, ?x, _) => set (w2 := x) in * end.
  assert (Hd1 : length (deferreds w1) = S (length (deferreds w))).
  { simpl. rewrite length_app. simpl. lia. }
  assert (Ht1 : length (timers w1) = S (length (timers w))).
  { simpl. rewrite length_app. simpl. lia. }
  rewrite Hd1 in Hc2.
  assert (Hout2 : outstanding w2 !! X =
                  Some (S (length (deferreds w)), S (length (timers w)))).
  { unfold w2. simpl. rewrite lookup_insert_eq. f_equal. f_equal; [exact Hd1|exact Ht1]. }
  assert (Htm1 : timers w2 !! length (timers w) = Some tmX).
  { simpl. rewrite lookup_app_l by (rewrite length_app; simpl; lia).
    by rewrite lookup_app_r, Nat.sub_diag. }
  assert (Htm2 : timers w2 !! S (length (timers w)) = Some tmX).
  { simpl. rewrite lookup_app_r by (rewrite length_app; simpl; lia).
    rewrite length_app. simpl.
    by replace (S (length (timers w)) - (length (timers w) + 1))%nat with 0%nat by lia. }
  assert (Hdf2 : deferreds w2 !! S (length (deferreds w)) = Some None).
  { simpl. rewrite lookup_app_r by (rewrite length_app; simpl; lia).
    rewrite length_app. simpl.
    by replace (S (length (deferreds w)) - (length (deferreds w) + 1))%nat
      with 0%nat by lia. }
  assert (Hdf1 : deferreds w2 !! length (deferreds w) = Some None).
  { simpl. rewrite lookup_app_l by (rewrite length_app; simpl; lia).
    by rewrite lookup_app_r, Nat.sub_diag. }
  assert (Hlen2 : length (timers w2) = S (S (length (timers w)))).
  { simpl. rewrite !length_app. simpl. lia. }
  clearbody w2. clearbody w1.
  set (w2' := set_timers (<[length (timers w) := with_status TCalled tmX]>) w2).
  set (w3 := set_outstanding (delete X)
               (set_deferreds (<[S (length (deferreds w)) := Some (false, VNil)]>) w2')).
  assert (Hf1 : reactor_fire self (length (timers w)) w2 =
                (Ret tt, w3, [Log true (LogNoReply X (waitTimeout self))])).
  { unfold reactor_fire. rewrite Htm1. simpl t_status. cbv iota.
    unfold mbind at 1, M_bind at 1, modify. simpl t_msgID.
    fold w2'.
    by rewrite (_timeout_found self X (S (length (deferreds w)))
                  (S (length (timers w))) w2'). }
  assert (Htm3 : timers w3 !! S (length (timers w)) = Some tmX).
  { simpl. rewrite list_lookup_insert_ne by lia. done. }
  set (w4 := set_timers (<[S (length (timers w)) := with_status TCalled tmX]>) w3).
  assert (Hf2 : reactor_fire self (S (length (timers w))) w3 =
                (Raise (KeyError X), w4, [Log true (LogNoReply X (waitTimeout self))])).
  { unfold reactor_fire. rewrite Htm3. simpl t_status. cbv iota.
    unfold mbind at 1, M_bind at 1, modify. simpl t_msgID. fold w4.
    rewrite (_timeout_missing self X w4); [done|]. simpl. apply lookup_delete_eq. }
  eexists w1, _, w2, _, w3, _, w4, _.
  split; [exact Hc1|]. split; [exact Hc2|]. split; [exact Hout2|].
  split; [exact Hf1|]. split.
  { simpl. apply list_lookup_insert_eq. by eapply lookup_lt_Some. }
  split; [simpl; apply lookup_delete_eq|]. split; [exact Hf2|]. split.
  { simpl. rewrite list_lookup_insert_ne by lia. done. }
  intros t tm Hlk Hst. simpl in Hlk.
  assert (Hlt : (t < length (timers w2))%nat).
  { apply lookup_lt_Some in Hlk. by rewrite !length_insert in Hlk. }
  destruct (decide (t = S (length (timers w)))) as [->|Hne1].
  { rewrite list_lookup_insert_eq in Hlk by (rewrite length_insert; lia).
    injection Hlk as <-. done. }
  rewrite list_lookup_insert_ne in Hlk by done.
  destruct (decide (t = length (timers w))) as [->|Hne2].
  { rewrite list_lookup_insert_eq in Hlk by lia. injection Hlk as <-. done. }
  lia.
Qed.

Lemma id_collision_corrupts_witness :
  Msgpack.pack (VList [VStr "echo"; VList [Sample.x_arg]]) =
    Some (Sample.packed (VList [VStr "echo"; VList [Sample.x_arg]])) /\
  len (Sample.packed (VList [VStr "echo"; VList [Sample.x_arg]])) <= 8192 /\
  net Scenario.twin (writes Sample.idle) = WriteOk /\
  net Scenario.twin (S (writes Sample.idle)) = WriteOk /\
  digest Scenario.twin (S (draws Sample.idle)) = digest Scenario.twin (draws Sample.idle) /\
  exists w1 tr1 w2 tr2 w3 tr3 w4 tr4,
    func Sample.plain Scenario.twin "echo" Sample.responder_addr [Sample.x_arg]
      Sample.idle = (Ret (length (deferreds Sample.idle)), w1, tr1) /\
    func Sample.plain Scenario.twin "echo" Sample.caller_addr [Sample.x_arg] w1 =
      (Ret (S (length (deferreds Sample.idle))), w2, tr2) /\
    outstanding w2 !! digest Scenario.twin (draws Sample.idle) =
      Some (S (length (deferreds Sample.idle)), S (length (timers Sample.idle))) /\
    reactor_fire Sample.plain (length (timers Sample.idle)) w2 = (Ret tt, w3, tr3) /\
    deferreds w3 !! S (length (deferreds Sample.idle)) = Some (Some (false, VNil)) /\
    outstanding w3 !! digest Scenario.twin (draws Sample.idle) = None /\
    reactor_fire Sample.plain (S (length (timers Sample.idle))) w3 =
      (Raise (KeyError (digest Scenario.twin (draws Sample.idle))), w4, tr4) /\
    deferreds w4 !! length (deferreds Sample.idle) = Some None /\
    (forall t tm, timers w4 !! t = Some tm -> t_status tm = TPending ->
                  (t < length (timers Sample.idle))%nat).
Proof.
  assert (H1 : Msgpack.pack (VList [VStr "echo"; VList [Sample.x_arg]]) =
               Some (Sample.packed (VList [VStr "echo"; VList [Sample.x_arg]])))
    by reflexivity.
  assert (H2 : len (Sample.packed (VList [VStr "echo"; VList [Sample.x_arg]])) <= 8192)
    by (vm_compute; discriminate).
  assert (H3 : net Scenario.twin (writes Sample.idle) = WriteOk) by reflexivity.
  assert (H4 : net Scenario.twin (S (writes Sample.idle)) = WriteOk) by reflexivity.
  assert (H5 : digest Scenario.twin (S (draws Sample.idle)) =
               digest Scenario.twin (draws Sample.idle)) by reflexivity.
  repeat (split; [assumption|]).
  exact (id_collision_corrupts (RT := Msgpack.runtime) Sample.plain Scenario.twin
           "echo" "echo" Sample.responder_addr Sample.caller_addr [Sample.x_arg]
           [Sample.x_arg] _ _ Sample.idle H1 H2 H1 H2 H3 H4 H5).
Defined.

(** ** Framing as the receive path sees it *)

(** X11: the receive path undoes the framing of the send paths.  A datagram
    made of a tag, a 20-byte ID and a payload that unpacks to [data] is
    handed to [_acceptRequest] (tag 0x02) or to [_acceptResponse] (tag
    0x03) with exactly that ID and [data].  With an empty payload the frame
    is 21 bytes long and is dropped as too small, whatever its tag. *)
Theorem frame_dispatch `{RT : Runtime} (self : engine) (E : env)
    (X payload : bytes) (data : value) (a : address) (w : world) :
  length X = 20%nat ->
  (payload <> [] -> unpackb payload = Some data ->
   datagramReceived self E (REQUEST_BYTE ++ X ++ payload) a w =
     (let '(r, w', t) := _acceptRequest self E X data a w in
      (r, w', (if noisy self then [Log false (LogReceivedDatagram a)] else []) ++ t)) /\
   datagramReceived self E (RESPONSE_BYTE ++ X ++ payload) a w =
     (let '(r, w', t) := _acceptResponse self X data a w in
      (r, w', (if noisy self then [Log false (LogReceivedDatagram a)] else []) ++ t))) /\
  (forall tag : byte,
     datagramReceived self E ([tag] ++ X ++ []) a w =
     (Ret tt, w, (if noisy self then [Log false (LogReceivedDatagram a)] else [])
                 ++ [Log false (LogTooSmall a)])).
Proof.
  intros HX. split.
  - intros Hpay Hdata.
    destruct (frame_parts REQUEST_BYTE X payload eq_refl HX Hpay) as (Hq1 & Hq2 & Hq3 & Hq4).
    destruct (frame_parts RESPONSE_BYTE X payload eq_refl HX Hpay) as (Hr1 & Hr2 & Hr3 & Hr4).
    split.
    + rewrite (datagramReceived_request self E _ a data) by (done || by rewrite Hq4).
      by rewrite Hq3.
    + rewrite (datagramReceived_response self E _ a data) by (done || by rewrite Hr4).
      by rewrite Hr3.
  - intros tag. unfold datagramReceived. unfold mbind at 1, M_bind at 1.
    rewrite when_noisy. rewrite bool_decide_eq_true_2; [done|].
    unfold len. rewrite !length_app, HX. simpl. lia.
Qed.

Lemma frame_dispatch_witness :
  length (Sample.id_of 0) = 20%nat /\
  Sample.packed Sample.x_arg <> [] /\
  Msgpack.unpack (Sample.packed Sample.x_arg) = Some Sample.x_arg /\
  datagramReceived Sample.plain Sample.calm
    (RESPONSE_BYTE ++ Sample.id_of 0 ++ Sample.packed Sample.x_arg)
    Sample.responder_addr Sample.pending =
    (let '(r, w', t) :=
       _acceptResponse Sample.plain (Sample.id_of 0) Sample.x_arg
         Sample.responder_addr Sample.pending in
     (r, w', (if noisy Sample.plain
              then [Log false (LogReceivedDatagram Sample.responder_addr)] else [])
             ++ t)).
Proof.
  assert (H1 : length (Sample.id_of 0) = 20%nat) by reflexivity.
  assert (H2 : Sample.packed Sample.x_arg <> []) by discriminate.
  assert (H3 : Msgpack.unpack (Sample.packed Sample.x_arg) = Some Sample.x_arg)
    by reflexivity.
  repeat (split; [assumption|]).
  exact (proj2 (proj1 (frame_dispatch (RT := Msgpack.runtime) Sample.plain Sample.calm
                         (Sample.id_of 0) (Sample.packed Sample.x_arg) Sample.x_arg
                         Sample.responder_addr Sample.pending H1) H2 H3)).
Defined.

(** ** Who gets an answer *)

(** X12: one received datagram makes the engine send at most one datagram;
    when it sends one, the datagram received was a request of at least 22
    bytes, and what is sent is a response frame with the ID of that
    request, addressed to its sender.  Responses, datagrams with an unknown
    tag and undersized datagrams are never answered. *)
Theorem only_requests_answered `{RT : Runtime} (self : engine) (E : env)
    (datagram : bytes) (a : address) (w w' : world) (r : outcome unit)
    (t : list effect) :
  datagramReceived self E datagram a w = (r, w', t) ->
  sent_of t = [] \/
  (22 <= len datagram /\ slice 0 1 datagram = REQUEST_BYTE /\
   exists response packed,
     packb response = Some packed /\
     sent_of t = [(RESPONSE_BYTE ++ slice 1 21 datagram ++ packed, a)]).
Proof.
  unfold datagramReceived. unfold mbind at 1, M_bind at 1. rewrite when_noisy.
  case_bool_decide as Hlen.
  { unfold log_msg, emit. intros [= <- <- <-]. left.
    by rewrite sent_of_app, sent_of_noisy. }
  destruct (unpackb _) as [data|].
  2:{ unfold raise. intros [= <- <- <-]. left. by rewrite sent_of_app, sent_of_noisy. }
  case_bool_decide as Hreq; [|case_bool_decide as Hresp].
  - unfold _acceptRequest.
    destruct data as [| | | |l];
      try (unfold raise; intros [= <- <- <-]; left; by rewrite sent_of_app, sent_of_noisy).
    destruct l as [|funcname [|args [|? ?]]];
      try (unfold raise; intros [= <- <- <-]; left; by rewrite sent_of_app, sent_of_noisy).
    destruct (rpc_attrs self !! _) as [[f|]|];
      try (unfold log_err, emit; intros [= <- <- <-]; left;
           by rewrite sent_of_app, sent_of_noisy).
    destruct (py_iter args) as [argl|];
      [|unfold raise; intros [= <- <- <-]; left; by rewrite sent_of_app, sent_of_noisy].
    destruct (f a argl) as [response|err|].
    + unfold try_except, _sendResponse. unfold mbind at 1, M_bind at 1.
      rewrite when_noisy.
      destruct (packb response) as [packed|] eqn:Hpack.
      * unfold send_all.
        destruct (send_loop _ _ _ _ _) as [[r1 w1] t1] eqn:Hsend.
        destruct (send_loop_frame _ _ _ _ _ _ _ _ Hsend) as (_ & Hr & Hok & Hbad).
        assert (Hcases : sent_of t1 = [] \/
          sent_of t1 = [(RESPONSE_BYTE ++ slice 1 21 datagram ++ packed, a)]).
        { destruct Hr as [->|(errno & -> & _)].
          - destruct Hok as [?|[? _]]; auto.
          - left. by apply Hbad. }
        destruct r1 as [[]|e]; unfold _onError, log_err, emit;
          intros [= <- <- <-]; rewrite !sent_of_app, !sent_of_noisy; simpl;
          rewrite ?app_nil_r;
          (destruct Hcases as [-> | ->]; [by left|right]);
          (split; [lia|]; split; [done|]; by exists response, packed).
      * unfold raise, _onError, log_err, emit. intros [= <- <- <-]. left.
        by rewrite !sent_of_app, !sent_of_noisy.
    + unfold _onError, log_err, emit. intros [= <- <- <-]. left.
      by rewrite sent_of_app, sent_of_noisy.
    + unfold modify. intros [= <- <- <-]. left. by rewrite sent_of_app, sent_of_noisy.
  - destruct (_acceptResponse _ _ _ _ _) as [[r1 w1] t1] eqn:Hrun.
    intros [= <- <- <-]. left.
    destruct (_acceptResponse_logs self _ _ _ _ _ _ _ Hrun) as (Hlogs & _).
    by rewrite sent_of_app, sent_of_noisy, only_logs_sent.
  - unfold log_msg, emit. intros [= <- <- <-]. left.
    by rewrite sent_of_app, sent_of_noisy.
Qed.

Lemma only_requests_answered_witness :
  datagramReceived Sample.echo_server Sample.calm Sample.echo_request
    Sample.caller_addr Sample.idle =
    (Ret tt, set_writes S Sample.idle, [Sent Sample.echo_response Sample.caller_addr]) /\
  (sent_of [Sent Sample.echo_response Sample.caller_addr] = [] \/
   (22 <= len Sample.echo_request /\ slice 0 1 Sample.echo_request = REQUEST_BYTE /\
    exists response packed,
      Msgpack.pack response = Some packed /\
      sent_of [Sent Sample.echo_response Sample.caller_addr] =
        [(RESPONSE_BYTE ++ slice 1 21 Sample.echo_request ++ packed, Sample.caller_addr)])).
Proof.
  assert (Hrun : datagramReceived Sample.echo_server Sample.calm Sample.echo_request
                   Sample.caller_addr Sample.idle =
                 (Ret tt, set_writes S Sample.idle,
                  [Sent Sample.echo_response Sample.caller_addr]))
    by (vm_compute; reflexivity).
  split; [exact Hrun|].
  exact (only_requests_answered (RT := Msgpack.runtime) Sample.echo_server Sample.calm
           Sample.echo_request Sample.caller_addr Sample.idle _ _ _ Hrun).
Defined.

(** ** Handlers that answer later *)

(** X13: when the handler of a request returns a Deferred that has not
    fired, nothing is sent at that moment: [datagramReceived] returns and
    only remembers the ID and the sender of the request.  When that
    Deferred fires with a result the codec packs and the transport accepts,
    exactly one response frame is sent, with the ID of the request, to its
    sender; when it fires with a failure, the failure is logged and nothing
    is sent.  In both cases a second firing does nothing. *)
Theorem deferred_handler_answers `{RT : Runtime} (self : engine) (E : env)
    (frame : bytes) (a : address) (funcname args : value)
    (f : address -> list value -> hresult) (argl : list value) (w : world) :
  22 <= len frame -> slice 0 1 frame = REQUEST_BYTE ->
  unpackb (slice_from 21 frame) = Some (VList [funcname; args]) ->
  rpc_attrs self !! ("rpc_" +:+ py_str funcname) = Some (Callable f) ->
  py_iter args = Some argl -> f a argl = HDeferred ->
  exists w1 t1,
    datagramReceived self E frame a w = (Ret tt, w1, t1) /\ sent_of t1 = [] /\
    outstanding w1 = outstanding w /\ deferreds w1 = deferreds w /\
    timers w1 = timers w /\
    awaiting w1 !! length (awaiting w) = Some (Some (slice 1 21 frame, a)) /\
    (forall response packed,
       packb response = Some packed -> net E (writes w1) = WriteOk ->
       exists w2 t2,
         handler_fired self E (length (awaiting w)) (inl response) w1 = (Ret tt, w2, t2) /\
         sent_of t2 = [(RESPONSE_BYTE ++ slice 1 21 frame ++ packed, a)] /\
         forall res, handler_fired self E (length (awaiting w)) res w2 = (Ret tt, w2, [])) /\
    (forall err,
       exists w2,
         handler_fired self E (length (awaiting w)) (inr err) w1 =
           (Ret tt, w2, [Log true (LogFailure err)]) /\
         forall res, handler_fired self E (length (awaiting w)) res w2 = (Ret tt, w2, [])).
Proof.
  intros Hlen Htag Hdata Hattr Hiter Hf.
  rewrite (datagramReceived_handled self E frame a funcname args f argl) by done.
  rewrite Hf. unfold modify.
  set (X := slice 1 21 frame).
  set (w1 := set_awaiting (fun l => l ++ [Some (X, a)]) w).
  assert (Haw : awaiting w1 !! length (awaiting w) = Some (Some (X, a))).
  { simpl. by rewrite lookup_app_r, Nat.sub_diag. }
  assert (Hspent : forall w2 res,
    awaiting w2 = <[length (awaiting w) := None]> (awaiting w1) ->
    handler_fired self E (length (awaiting w)) res w2 = (Ret tt, w2, [])).
  { intros w2 res Heq. unfold handler_fired. rewrite Heq.
    rewrite list_lookup_insert_eq; [done|]. by eapply lookup_lt_Some. }
  exists w1. eexists. split; [done|]. split; [by rewrite app_nil_r, sent_of_noisy|].
  split; [done|]. split; [done|]. split; [done|]. split; [exact Haw|]. split.
  - intros response packed Hpack Hnet.
    unfold handler_fired. rewrite Haw.
    unfold mbind at 1, M_bind at 1, modify, try_except, _sendResponse.
    unfold mbind at 1, M_bind at 1. rewrite when_noisy, Hpack. unfold send_all.
    rewrite send_loop_ok; [|unfold default_send_timeout; simpl; lia|done].
    eexists _, _. split; [done|]. split.
    + by rewrite !sent_of_app, sent_of_noisy.
    + intros res. by apply Hspent.
  - intros err. unfold handler_fired. rewrite Haw.
    unfold mbind at 1, M_bind at 1, modify, _onError, log_err, emit.
    eexists. split; [done|]. intros res. by apply Hspent.
Qed.

Lemma deferred_handler_answers_witness :
  22 <= len Scenario.slow_request /\
  slice 0 1 Scenario.slow_request = REQUEST_BYTE /\
  Msgpack.unpack (slice_from 21 Scenario.slow_request) =
    Some (VList [VStr "slow"; VList [VInt 1]]) /\
  rpc_attrs Scenario.server !! ("rpc_" +:+ Msgpack.show false (VStr "slow")) =
    Some (Callable Scenario.rpc_slow) /\
  py_iter (VList [VInt 1]) = Some [VInt 1] /\
  Scenario.rpc_slow Sample.caller_addr [VInt 1] = HDeferred /\
  exists w1 t1,
    datagramReceived Scenario.server Sample.calm Scenario.slow_request
      Sample.caller_addr Sample.idle = (Ret tt, w1, t1) /\
    sent_of t1 = [] /\
    awaiting w1 !! 0%nat = Some (Some (Sample.id_of 0, Sample.caller_addr)) /\
    Msgpack.pack Sample.x_arg = Some (Sample.packed Sample.x_arg) /\
    net Sample.calm (writes w1) = WriteOk /\
    exists w2 t2,
      handler_fired Scenario.server Sample.calm 0 (inl Sample.x_arg) w1 =
        (Ret tt, w2, t2) /\
      sent_of t2 = [(Sample.echo_response, Sample.caller_addr)] /\
      forall res, handler_fired Scenario.server Sample.calm 0 res w2 = (Ret tt, w2, []).
Proof.
  assert (H1 : 22 <= len Scenario.slow_request) by (vm_compute; discriminate).
  assert (H2 : slice 0 1 Scenario.slow_request = REQUEST_BYTE) by reflexivity.
  assert (H3 : Msgpack.unpack (slice_from 21 Scenario.slow_request) =
               Some (VList [VStr "slow"; VList [VInt 1]])) by reflexivity.
  assert (H4 : rpc_attrs Scenario.server !! ("rpc_" +:+ Msgpack.show false (VStr "slow")) =
               Some (Callable Scenario.rpc_slow)) by (vm_compute; reflexivity).
  assert (H5 : py_iter (VList [VInt 1]) = Some [VInt 1]) by reflexivity.
  assert (H6 : Scenario.rpc_slow Sample.caller_addr [VInt 1] = HDeferred) by reflexivity.
  repeat (split; [assumption|]).
  destruct (deferred_handler_answers (RT := Msgpack.runtime) Scenario.server Sample.calm
              Scenario.slow_request Sample.caller_addr (VStr "slow") (VList [VInt 1])
              Scenario.rpc_slow [VInt 1] Sample.idle H1 H2 H3 H4 H5 H6)
    as (w1 & t1 & Hrun & Hsent & _ & _ & _ & Haw & Hfire & _).
  exists w1, t1. split; [exact Hrun|]. split; [exact Hsent|]. split; [exact Haw|].
  split; [reflexivity|]. split; [reflexivity|].
  exact (Hfire Sample.x_arg (Sample.packed Sample.x_arg) eq_refl eq_refl).
Defined.

(** ** The round trip of any call *)



(** ** Runs of an engine from its creation *)

Lemma run_app `{RT : Runtime} (self : engine) (E : env) evs1 evs2 : forall w,
  run self E (evs1 ++ evs2) w = run self E evs2 (run self E evs1 w).
Proof. induction evs1 as [|ev evs1 IH]; intros w; simpl; [done|]. apply IH. Qed.

Lemma collision_free_app `{RT : Runtime} (self : engine) (E : env) evs1 evs2 : forall w,
  collision_free self E (evs1 ++ evs2) w ->
  collision_free self E evs1 w /\ collision_free self E evs2 (run self E evs1 w).
Proof.
  induction evs1 as [|ev evs1 IH]; intros w; simpl; [done|].
  intros [Hev Hrest]. destruct (IH _ Hrest) as [H1 H2]. done.
Qed.

(** X15: take any run of an engine from its creation in which no call
    draws an ID that is outstanding at that moment.  At every point of the
    run the table and the reactor objects agree (each entry holds an unfired
    Deferred and the pending DelayedCall made for its ID, each pending
    DelayedCall belongs to the entry of its ID, no Deferred is held twice);
    no event of the run ends in [KeyError], [AlreadyCalledError],
    [AlreadyCancelled] or [AlreadyCalled]; and a Deferred that has fired
    holds the same result at every later point of the run. *)
Theorem results_are_final `{RT : Runtime} (self : engine) (E : env)
    (evs1 evs2 : list event) (now : Z) :
  collision_free self E (evs1 ++ evs2) (fresh_world now) ->
  consistent (run self E evs1 (fresh_world now)) /\
  crashes self E (evs1 ++ evs2) (fresh_world now) = false /\
  forall d r,
    deferreds (run self E evs1 (fresh_world now)) !! d = Some (Some r) ->
    deferreds (run self E (evs1 ++ evs2) (fresh_world now)) !! d = Some (Some r).
Proof.
  intros Hfree.
  destruct (run_safe self E _ _ (consistent_fresh now) Hfree) as (_ & Hcr & _).
  destruct (collision_free_app self E evs1 evs2 _ Hfree) as [Hf1 Hf2].
  destruct (run_safe self E _ _ (consistent_fresh now) Hf1) as (Hc1 & _ & _).
  destruct (run_safe self E _ _ Hc1 Hf2) as (_ & _ & Hk).
  split; [done|]. split; [done|].
  intros d r Hd. rewrite run_app. by apply Hk.
Qed.

Lemma results_are_final_witness :
  collision_free Sample.plain Sample.calm
    ([EvCall "echo" Sample.responder_addr [Sample.x_arg];
      EvDatagram Sample.echo_response Sample.responder_addr] ++ Sample.late_events)
    (fresh_world 0) /\
  deferreds (run Sample.plain Sample.calm
               [EvCall "echo" Sample.responder_addr [Sample.x_arg];
                EvDatagram Sample.echo_response Sample.responder_addr]
               (fresh_world 0)) !! 0%nat = Some (Some (true, Sample.x_arg)) /\
  crashes Sample.plain Sample.calm
    ([EvCall "echo" Sample.responder_addr [Sample.x_arg];
      EvDatagram Sample.echo_response Sample.responder_addr] ++ Sample.late_events)
    (fresh_world 0) = false /\
  deferreds (run Sample.plain Sample.calm
               ([EvCall "echo" Sample.responder_addr [Sample.x_arg];
                 EvDatagram Sample.echo_response Sample.responder_addr]
                ++ Sample.late_events)
               (fresh_world 0)) !! 0%nat = Some (Some (true, Sample.x_arg)).
Proof.
  assert (H1 : collision_free Sample.plain Sample.calm
    ([EvCall "echo" Sample.responder_addr [Sample.x_arg];
      EvDatagram Sample.echo_response Sample.responder_addr] ++ Sample.late_events)
    (fresh_world 0)) by (vm_compute; repeat split).
  assert (H2 : deferreds (run Sample.plain Sample.calm
               [EvCall "echo" Sample.responder_addr [Sample.x_arg];
                EvDatagram Sample.echo_response Sample.responder_addr]
               (fresh_world 0)) !! 0%nat = Some (Some (true, Sample.x_arg)))
    by (vm_compute; reflexivity).
  destruct (results_are_final (RT := Msgpack.runtime) Sample.plain Sample.calm _ _ 0 H1)
    as (_ & Hcr & Hk).
  split; [exact H1|]. split; [exact H2|]. split; [exact Hcr|].
  exact (Hk _ _ H2).
Defined.

(** ** The [noisy] flag *)

Lemma observe_eq {A} (r r' : outcome A) w w' t t' :
  observe (r, w, t) = observe (r', w', t') <-> r = r' /\ w = w' /\ sent_of t = sent_of t'.
Proof. unfold observe. simpl. split; [by intros [= -> -> ->]|by intros (-> & -> & ->)]. Qed.

Lemma observe_when {A} (b : bool) (l : log_line) (k : M A) (w : world) :
  observe ((when b (log_msg l) ≫= fun _ => k) w) = observe (k w).
Proof.
  unfold mbind, M_bind, when, log_msg, emit, mret, M_ret.
  destruct b; destruct (k w) as [[r w'] t]; done.
Qed.

(** Sequencing keeps observations: two computations with the same outcome,
    world and datagrams, continued in the same way. *)
Lemma observe_prefixed {A} (x y : outcome A * world * list effect) (t0 t1 : list effect) :
  observe x = observe y -> sent_of t0 = sent_of t1 ->
  observe (let '(r, w, t) := x in (r, w, t0 ++ t)) =
  observe (let '(r, w, t) := y in (r, w, t1 ++ t)).
Proof.
  destruct x as [[r w] t], y as [[r' w'] t']. intros Hxy H01.
  apply observe_eq in Hxy as (-> & -> & Ht). apply observe_eq.
  by rewrite !sent_of_app, Ht, H01.
Qed.

Section Noisy.
Context `{RT : Runtime}.
Variable self : engine.
Variable E : env.
Variable b : bool.

Lemma observe__sendResponse response X a w :
  observe (_sendResponse (with_noisy b self) E response X a w) =
  observe (_sendResponse self E response X a w).
Proof. unfold _sendResponse. by rewrite !observe_when. Qed.

Lemma observe_guarded response X a w :
  observe (try_except (_sendResponse (with_noisy b self) E response X a) _onError w) =
  observe (try_except (_sendResponse self E response X a) _onError w).
Proof.
  pose proof (observe__sendResponse response X a w) as Hobs.
  unfold try_except.
  destruct (_sendResponse (with_noisy b self) _ _ _ _ _) as [[r1 w1] t1].
  destruct (_sendResponse self _ _ _ _ _) as [[r2 w2] t2].
  apply observe_eq in Hobs as (-> & -> & Ht).
  destruct r2 as [[]|e]; apply observe_eq; [done|].
  unfold _onError, log_err, emit. by rewrite !sent_of_app, Ht.
Qed.

Lemma observe__acceptRequest X data a w :
  observe (_acceptRequest (with_noisy b self) E X data a w) =
  observe (_acceptRequest self E X data a w).
Proof.
  unfold _acceptRequest.
  change (rpc_attrs (with_noisy b self)) with (rpc_attrs self).
  destruct data as [| | | |l]; try done.
  destruct l as [|funcname [|args [|? ?]]]; try done.
  destruct (rpc_attrs self !! _) as [[f|]|]; try done.
  destruct (py_iter args) as [argl|]; [|done].
  destruct (f a argl) as [response|err|]; try done.
  apply observe_guarded.
Qed.

Lemma observe__acceptResponse X data a w :
  observe (_acceptResponse (with_noisy b self) X data a w) =
  observe (_acceptResponse self X data a w).
Proof.
  unfold _acceptResponse. unfold mbind at 1 6, M_bind at 1 6, get.
  case_bool_decide; [done|].
  apply (observe_prefixed _ _ [] []); [|done]. by rewrite !observe_when.
Qed.

Lemma observe_datagramReceived datagram a w :
  observe (datagramReceived (with_noisy b self) E datagram a w) =
  observe (datagramReceived self E datagram a w).
Proof.
  unfold datagramReceived. rewrite !observe_when.
  case_bool_decide; [done|].
  destruct (unpackb _) as [data|]; [|done].
  repeat case_bool_decide; try done.
  - apply observe__acceptRequest.
  - apply observe__acceptResponse.
Qed.

Lemma observe_func name a args w :
  observe (func (with_noisy b self) E name a args w) =
  observe (func self E name a args w).
Proof.
  unfold func. unfold mbind at 1 7, M_bind at 1 7, fresh_digest.
  destruct (packb _) as [data|]; [|done].
  case_bool_decide; [done|].
  apply (observe_prefixed _ _ [] []); [|done]. by rewrite !observe_when.
Qed.

Lemma observe_handler_fired i res w :
  observe (handler_fired (with_noisy b self) E i res w) =
  observe (handler_fired self E i res w).
Proof.
  unfold handler_fired.
  destruct (awaiting w !! i) as [[[X a]|]|]; try done.
  unfold mbind, M_bind, modify. destruct res as [response|err]; [|done].
  apply (observe_prefixed _ _ [] []); [|done]. apply observe_guarded.
Qed.

End Noisy.

(** X16: the [noisy] flag changes nothing but the log.  Whatever the event
    (a datagram, a timer, a call, a handler result), the engine with the
    flag set either way ends with the same outcome, leaves the same world
    and sends the same datagrams. *)
Theorem noisy_only_logs `{RT : Runtime} (self : engine) (E : env) (b : bool)
    (ev : event) (w : world) :
  observe (step (with_noisy b self) E ev w) = observe (step self E ev w).
Proof.
  destruct ev as [dg a|t0|name a args|i res]; simpl.
  - apply observe_datagramReceived.
  - reflexivity.
  - pose proof (observe_func self E b name a args w) as Hobs.
    unfold mbind, M_bind.
    destruct (func (with_noisy b self) _ _ _ _ _) as [[r1 w1] t1].
    destruct (func self _ _ _ _ _) as [[r2 w2] t2].
    apply observe_eq in Hobs as (-> & -> & Ht).
    destruct r2 as [d|e]; apply observe_eq; [|done].
    unfold mret, M_ret. by rewrite !sent_of_app, Ht.
  - apply observe_handler_fired.
Qed.

(** ** A random source that never repeats *)

Lemma table_grows_same E w w' :
  outstanding w' = outstanding w -> draws w' = draws w -> table_grows_by_draw E w w'.
Proof. intros Ho Hd. split; [lia|]. intros X p. rewrite Ho. auto. Qed.

Lemma table_grows_delete E X w w' :
  outstanding w' = delete X (outstanding w) -> draws w' = draws w ->
  table_grows_by_draw E w w'.
Proof.
  intros Ho Hd. split; [lia|]. intros X' p. rewrite Ho.
  intros [_ ?]%lookup_delete_Some. auto.
Qed.

Section Drawn.
Context `{RT : Runtime}.
Variable self : engine.
Variable E : env.

Lemma _acceptResponse_grows X data a w r w' t :
  _acceptResponse self X data a w = (r, w', t) -> table_grows_by_draw E w w'.
Proof.
  unfold _acceptResponse. unfold mbind at 1, M_bind at 1, get.
  case_bool_decide as Hout.
  { unfold log_err, emit. intros [= <- <- <-]. by apply table_grows_same. }
  unfold mbind at 1, M_bind at 1. rewrite when_noisy.
  unfold mbind at 1, M_bind at 1, get_outstanding.
  destruct (outstanding w !! X) as [[d tr]|]; [|done].
  unfold mbind at 1, M_bind at 1, cancel.
  destruct (timers w !! tr) as [tm|]; [destruct (t_status tm)|];
    try (intros [= <- <- <-]; by apply table_grows_same).
  unfold mbind at 1, M_bind at 1, callback. simpl.
  destruct (deferreds w !! d) as [[?|]|];
    try (intros [= <- <- <-]; by apply table_grows_same).
  unfold del_outstanding. simpl.
  destruct (outstanding w !! X); intros [= <- <- <-];
    [by apply (table_grows_delete E X)|by apply table_grows_same].
Qed.

Lemma reactor_fire_grows t0 w r w' t :
  reactor_fire self t0 w = (r, w', t) -> table_grows_by_draw E w w'.
Proof.
  unfold reactor_fire.
  destruct (timers w !! t0) as [tm|];
    [|intros [= <- <- <-]; by apply table_grows_same].
  destruct (t_status tm); try (intros [= <- <- <-]; by apply table_grows_same).
  unfold mbind at 1, M_bind at 1, modify. unfold _timeout.
  unfold mbind at 1, M_bind at 1, log_err, emit.
  unfold mbind at 1, M_bind at 1, get_outstanding. simpl.
  destruct (outstanding w !! t_msgID tm) as [[d tr]|];
    [|intros [= <- <- <-]; by apply table_grows_same].
  unfold mbind at 1, M_bind at 1, callback. simpl.
  destruct (deferreds w !! d) as [[?|]|];
    try (intros [= <- <- <-]; by apply table_grows_same).
  unfold del_outstanding. simpl.
  destruct (outstanding w !! t_msgID tm); intros [= <- <- <-];
    [by apply (table_grows_delete E (t_msgID tm))|by apply table_grows_same].
Qed.

Lemma step_grows ev w : table_grows_by_draw E w (step self E ev w).1.2.
Proof.
  destruct ev as [dg a|t0|name a args|i res]; simpl.
  - unfold datagramReceived. unfold mbind at 1, M_bind at 1. rewrite when_noisy.
    case_bool_decide; [by apply table_grows_same|].
    destruct (unpackb _) as [data|]; [|by apply table_grows_same].
    repeat case_bool_decide; try by apply table_grows_same.
    + destruct (_acceptRequest _ _ _ _ _ _) as [[r w'] t] eqn:Hrun. simpl.
      destruct (_acceptRequest_frame _ _ _ _ _ _ _ _ _ Hrun) as (Hw & _).
      destruct Hw as [(Ho & _ & _ & _ & Hd)| ->]; by apply table_grows_same.
    + destruct (_acceptResponse _ _ _ _ _) as [[r w'] t] eqn:Hrun. simpl.
      by eapply _acceptResponse_grows.
  - destruct (reactor_fire _ _ _) as [[r w'] t] eqn:Hrun. simpl.
    by eapply reactor_fire_grows.
  - unfold mbind, M_bind.
    destruct (func _ _ _ _ _ _) as [[r w'] t] eqn:Hrun.
    destruct (func_frame _ _ _ _ _ _ _ _ _ Hrun) as (_ & Hd & _ & Hr).
    assert (Hgoal : table_grows_by_draw E w w').
    { split; [lia|]. intros X p Hlk. destruct r as [d|e].
      - destruct Hr as (_ & Ho & _). rewrite Ho in Hlk.
        apply lookup_insert_Some in Hlk as [(<- & _)|(_ & Hlk)]; [right|by left].
        split; [done|lia].
      - destruct Hr as (_ & Ho & _). rewrite Ho in Hlk. by left. }
    by destruct r.
  - unfold handler_fired.
    destruct (awaiting w !! i) as [[[X a]|]|]; try by apply table_grows_same.
    unfold mbind at 1, M_bind at 1, modify. destruct res as [response|err].
    + unfold try_except.
      destruct (_sendResponse _ _ _ _ _ _) as [[r1 w1] t1] eqn:Hsend.
      destruct (_sendResponse_frame _ _ _ _ _ _ _ _ _ Hsend) as ((Ho & _ & _ & _ & Hd) & _).
      destruct r1 as [[]|e]; simpl; by apply table_grows_same.
    + simpl. by apply table_grows_same.
Qed.

Lemma step_drawn ev w : drawn E w -> drawn E (step self E ev w).1.2.
Proof.
  intros Hdr X p Hlk. destruct (step_grows ev w) as [Hle Hsub].
  destruct (Hsub X p Hlk) as [Hold|[-> Hlt]].
  - destruct (Hdr X p Hold) as (n & Hn & ->). exists n. split; [lia|done].
  - exists (draws w). done.
Qed.

End Drawn.

(** X17: when the digests drawn during a run of an engine, from its
    creation on, are pairwise different, no call of the run draws an ID
    that is outstanding: every ID in the table was drawn by an earlier
    call.  Such a run therefore keeps the table consistent and meets no
    error of a reactor object. *)
Theorem distinct_digests_never_collide `{RT : Runtime} (self : engine) (E : env)
    (evs : list event) (now : Z) :
  (forall m n, (m < draws (run self E evs (fresh_world now)))%nat ->
               (n < draws (run self E evs (fresh_world now)))%nat ->
               digest E m = digest E n -> m = n) ->
  collision_free self E evs (fresh_world now) /\
  consistent (run self E evs (fresh_world now)) /\
  crashes self E evs (fresh_world now) = false.
Proof.
  intros Hinj.
  assert (Hmono : forall evs w, (draws w <= draws (run self E evs w))%nat).
  { clear. induction evs as [|ev evs IH]; intros w; simpl; [done|].
    destruct (step_grows self E ev w) as [Hle _]. specialize (IH (step self E ev w).1.2).
    lia. }
  assert (Hfree : forall evs w, drawn E w ->
    (forall m n, (m < draws (run self E evs w))%nat ->
                 (n < draws (run self E evs w))%nat ->
                 digest E m = digest E n -> m = n) ->
    collision_free self E evs w).
  { clear evs Hinj. induction evs as [|ev evs IH]; intros w Hdr Hinj; simpl; [done|].
    split.
    - destruct ev as [| |name a args|]; try done.
      destruct (outstanding w !! digest E (draws w)) as [p|] eqn:Hlk; [|done].
      destruct (Hdr _ _ Hlk) as (n & Hn & Heq). exfalso.
      assert (Hlt : (draws w < draws (run self E (EvCall name a args :: evs) w))%nat).
      { simpl. unfold mbind, M_bind.
        destruct (func self E name a args w) as [[r w'] t] eqn:Hrun.
        destruct (func_frame _ _ _ _ _ _ _ _ _ Hrun) as (_ & Hd & _).
        destruct r; simpl;
          match goal with |- (_ < draws (run _ _ evs ?x))%nat =>
            pose proof (Hmono evs x) as Hm end; simpl in Hm; lia. }
      apply Hinj in Heq; lia.
    - apply IH; [by apply step_drawn|]. exact Hinj. }
  assert (Hdr0 : drawn E (fresh_world now)).
  { intros X p Hlk. simpl in Hlk. by rewrite lookup_empty in Hlk. }
  pose proof (Hfree evs _ Hdr0 Hinj) as Hcf.
  destruct (run_safe self E evs _ (consistent_fresh now) Hcf) as (Hc & Hcr & _).
  done.
Qed.

Lemma distinct_digests_never_collide_witness :
  (forall m n,
     (m < draws (run Sample.plain Sample.calm
                   ([EvCall "echo" Sample.responder_addr [Sample.x_arg];
                     EvDatagram Sample.echo_response Sample.responder_addr]
                    ++ Sample.late_events) (fresh_world 0)))%nat ->
     (n < draws (run Sample.plain Sample.calm
                   ([EvCall "echo" Sample.responder_addr [Sample.x_arg];
                     EvDatagram Sample.echo_response Sample.responder_addr]
                    ++ Sample.late_events) (fresh_world 0)))%nat ->
     digest Sample.calm m = digest Sample.calm n -> m = n) /\
  collision_free Sample.plain Sample.calm
    ([EvCall "echo" Sample.responder_addr [Sample.x_arg];
      EvDatagram Sample.echo_response Sample.responder_addr] ++ Sample.late_events)
    (fresh_world 0) /\
  consistent (run Sample.plain Sample.calm
                ([EvCall "echo" Sample.responder_addr [Sample.x_arg];
                  EvDatagram Sample.echo_response Sample.responder_addr]
                 ++ Sample.late_events) (fresh_world 0)) /\
  crashes Sample.plain Sample.calm
    ([EvCall "echo" Sample.responder_addr [Sample.x_arg];
      EvDatagram Sample.echo_response Sample.responder_addr] ++ Sample.late_events)
    (fresh_world 0) = false.
Proof.
  assert (Hd : draws (run Sample.plain Sample.calm
                   ([EvCall "echo" Sample.responder_addr [Sample.x_arg];
                     EvDatagram Sample.echo_response Sample.responder_addr]
                    ++ Sample.late_events) (fresh_world 0)) = 2%nat)
    by (vm_compute; reflexivity).
  assert (Hinj : forall m n,
     (m < draws (run Sample.plain Sample.calm
                   ([EvCall "echo" Sample.responder_addr [Sample.x_arg];
                     EvDatagram Sample.echo_response Sample.responder_addr]
                    ++ Sample.late_events) (fresh_world 0)))%nat ->
     (n < draws (run Sample.plain Sample.calm
                   ([EvCall "echo" Sample.responder_addr [Sample.x_arg];
                     EvDatagram Sample.echo_response Sample.responder_addr]
                    ++ Sample.late_events) (fresh_world 0)))%nat ->
     digest Sample.calm m = digest Sample.calm n -> m = n).
  { rewrite Hd. intros m n Hm Hn Heq.
    destruct m as [|[|m]]; [| |lia]; destruct n as [|[|n]]; try lia;
      vm_compute in Heq; discriminate. }
  split; [exact Hinj|].
  exact (distinct_digests_never_collide (RT := Msgpack.runtime) Sample.plain Sample.calm
           _ 0 Hinj).
Defined.
